(** * audioscribe: the audio library service of [app.py]

    A shallow embedding of the FastAPI application in [app.py]: the
    configuration loader, the two SQLite tables behind the shared cursor, the
    uploads directory, and the five API handlers ([transcribe], [library],
    [audio_data], [delete_audio], [get_audio]), and the script of the page
    the index route returns, as the functions a browser runs.

    Handlers are functions in a state-and-exception monad over the process
    state, and requests are served one at a time.  What the application leaves
    to its environment is explicit: the Whisper model, the JSON codec and
    IEEE doubles are the members of two type classes, and the random bytes
    behind [uuid.uuid4()] are an argument of [transcribe]. *)

From Stdlib Require Import ZArith NArith Ascii String List.
From stdpp Require Import base option list strings gmap.

(* ===================================================================== *)
(** ** Python values and exceptions *)
(* ===================================================================== *)

(** Python's [float].  The application never computes with the segment
    times: it binds them to [REAL] columns and hands back what a [SELECT]
    yields.  [REAL] stands for the finite doubles, which make that trip
    unchanged and which the framework serialises: no timestamp is NaN (which
    SQLite stores as [NULL]) or an infinity (which, like NaN, the JSON
    response refuses).  [REAL_leb] is [<=] and [REAL_repr] is [str(x)]. *)
Class Float64 := {
  REAL : Type;
  REAL_leb : REAL → REAL → bool;
  REAL_repr : REAL → string;
}.

(** The exceptions the modelled code can raise. *)
Inductive exn :=
| TypeError
| KeyError (key : string)
| IndexError
| ValueError (msg : string)
| FileNotFoundError (path : string)
| IsADirectoryError (path : string)
| NotADirectoryError (path : string)
| FileExistsError (path : string)
| OSError_ENAMETOOLONG (path : string)
| IntegrityError
| JSONDecodeError
| RuntimeError (msg : string).

(** The result of running a piece of Python: a value, or a raised exception. *)
Inductive outcome (A : Type) :=
| Returned (a : A)
| Raised (e : exn).
Arguments Returned {A} a.
Arguments Raised {A} e.

(** State and exceptions: a computation over a state [S] yields an outcome and
    the state it leaves behind.  An exception does not undo the effects that
    came before it. *)
Definition M (S A : Type) : Type := S → outcome A * S.

Global Instance M_ret {S} : MRet (M S) := λ A a s, (Returned a, s).

Global Instance M_bind {S} : MBind (M S) := λ A B k m s,
  match m s with
  | (Returned a, s') => k a s'
  | (Raised e, s') => (Raised e, s')
  end.

Definition raise {S A} (e : exn) : M S A := λ s, (Raised e, s).

(** [try: m except Exception as e: h e] *)
Definition try_except {S A} (m : M S A) (h : exn → M S A) : M S A :=
  λ s, match m s with
       | (Returned a, s') => (Returned a, s')
       | (Raised e, s') => h e s'
       end.

(** Reading the state, for the module globals. *)
Definition get {S} : M S S := λ s, (Returned s, s).

(** [for x in l: body x] *)
Fixpoint for_each {S A} (l : list A) (body : A → M S unit) : M S unit :=
  match l with
  | [] => mret tt
  | x :: l' => body x ;; for_each l' body
  end.

(** [[f x for x in l]] where [f] may raise. *)
Fixpoint comprehension {S A B} (l : list A) (f : A → M S B) : M S (list B) :=
  match l with
  | [] => mret []
  | x :: l' => y ← f x; ys ← comprehension l' f; mret (y :: ys)
  end.

Section Python.
Context `{Float64}.

(** JSON-shaped Python values: what [json.load] returns and what a handler
    returns as its response body.  A [dict] with string keys is a finite map. *)
#[warnings="-register-all"] Inductive pyval :=
| PyNone
| PyBool (b : bool)
| PyInt (z : Z)
| PyFloat (x : REAL)
| PyStr (s : string)
| PyList (l : list pyval)
| PyDict (d : gmap string pyval).

(** [{**a, **b}]: the keys of [b] override those of [a]. *)
Definition dict_merge (a b : gmap string pyval) : gmap string pyval := b ∪ a.

(** [{**a, **v}] for an arbitrary Python value [v]: only a mapping can be
    unpacked. *)
Definition dict_unpack_over {S} (a : gmap string pyval) (v : pyval)
    : M S (gmap string pyval) :=
  match v with
  | PyDict b => mret (dict_merge a b)
  | _ => raise TypeError
  end.

(** [d[k]] *)
Definition dict_getitem {S} (d : gmap string pyval) (k : string) : M S pyval :=
  match d !! k with
  | Some v => mret v
  | None => raise (KeyError k)
  end.

End Python.

(* ===================================================================== *)
(** ** Paths and the file system *)
(* ===================================================================== *)

Definition UPLOAD_DIR : string := "uploads".
Definition DB_PATH : string := "app.db".
Definition CONFIG_PATH : string := "config.json".

Definition sep : ascii := "/"%char.

(** [s.startswith('/')] *)
Definition starts_with_sep (s : string) : bool :=
  match s with
  | String c _ => bool_decide (c = sep)
  | EmptyString => false
  end.

(** [s.endswith('/')] *)
Fixpoint ends_with_sep (s : string) : bool :=
  match s with
  | EmptyString => false
  | String c EmptyString => bool_decide (c = sep)
  | String _ r => ends_with_sep r
  end.

(** [os.path.join(a, b)] of [posixpath], for two components. *)
Definition os_path_join (a b : string) : string :=
  if starts_with_sep b then b
  else if bool_decide (a = "") || ends_with_sep a then a +:+ b
  else a +:+ String sep b.

(** [path.split('/')], with [cur] the component being read. *)
Fixpoint split_sep (cur s : string) : list string :=
  match s with
  | EmptyString => [cur]
  | String c r =>
      if bool_decide (c = sep) then cur :: split_sep "" r
      else split_sep (cur +:+ String c "") r
  end.

(** The loop of [posixpath.normpath] on a relative path: [stack] is
    [new_comps], last component first. *)
Fixpoint normpath_loop (stack comps : list string) : list string :=
  match comps with
  | [] => rev stack
  | comp :: rest =>
      if bool_decide (comp = "") || bool_decide (comp = ".") then
        normpath_loop stack rest
      else if bool_decide (comp = "..") then
        match stack with
        | [] => normpath_loop [comp] rest
        | ".." :: _ => normpath_loop (comp :: stack) rest
        | _ :: stack' => normpath_loop stack' rest
        end
      else normpath_loop (comp :: stack) rest
  end.

(** The components a relative path resolves to, from the working directory;
    a leading [".."] leaves the working directory. *)
Definition resolve (path : string) : list string :=
  normpath_loop [] (split_sep "" path).

(** A path lies inside the uploads directory when it is relative and resolves
    to [uploads/<something>]. *)
Definition inside_upload_dir (path : string) : bool :=
  negb (starts_with_sep path) &&
  match resolve path with
  | d :: _ :: _ => bool_decide (d = UPLOAD_DIR)
  | _ => false
  end.

(** The part of the file system the application touches: the directories that
    exist and the regular files with their contents, both by path.  The
    application builds every path it uses with [os_path_join], so paths are
    compared as written.  The disk is one the process may write to and that
    has room: permissions, links and quotas are not part of it.  A string
    stands for the bytes of its UTF-8 encoding. *)
Record filesystem := {
  dirs : gset string;
  files : gmap string string;
}.

(** ['/' in s] *)
Fixpoint has_sep (s : string) : bool :=
  match s with
  | EmptyString => false
  | String c r => bool_decide (c = sep) || has_sep r
  end.

(** What precedes the last ['/'] of [path], or [""] (the working directory,
    or the root) when there is none. *)
Fixpoint parent_dir (path : string) : string :=
  match path with
  | EmptyString => ""
  | String c r => if has_sep r then String c (parent_dir r) else ""
  end.

(** ['\0' in s] *)
Fixpoint has_nul (s : string) : bool :=
  match s with
  | EmptyString => false
  | String c r => bool_decide (c = "000"%char) || has_nul r
  end.

(** The limits of Linux on one component of a path and on a whole path, in
    bytes (the second counts the terminating zero). *)
Definition NAME_MAX : nat := 255.
Definition PATH_MAX : nat := 4096.

(** [os.path.exists(path)] *)
Definition os_path_exists (path : string) : M filesystem bool :=
  λ fs, (Returned (bool_decide (path ∈ dirs fs ∨ is_Some (files fs !! path))), fs).

(** A component that names no entry of its own: what a doubled ['/'] leaves,
    and the two dots. *)
Definition is_dots (c : string) : bool :=
  bool_decide (c = "") || bool_decide (c = ".") || bool_decide (c = "..").

(** What stops [open(path, "w")] on its way through the components of
    [path], of which [comps] are still to go below [prefix]: the first
    directory that cannot be entered, or the last component when it cannot be
    created or truncated; [None] when the file can be written.  A last
    component followed by ['/'] is taken for a directory. *)
Fixpoint open_for_writing (fs : filesystem) (path prefix : string)
    (comps : list string) : option exn :=
  match comps with
  | [] => Some (FileNotFoundError path)
  | c :: rest =>
      if forallb (λ r, bool_decide (r = "")) rest then
        if bool_decide (c = "") then
          Some (if bool_decide (path = "") then FileNotFoundError path
                else IsADirectoryError path)
        else if negb (bool_decide (rest = [])) || is_dots c then
          Some (IsADirectoryError path)
        else if bool_decide (NAME_MAX < String.length c) then
          Some (OSError_ENAMETOOLONG path)
        else if bool_decide (path ∈ dirs fs) then Some (IsADirectoryError path)
        else None
      else if is_dots c then
        open_for_writing fs path (prefix +:+ c +:+ "/") rest
      else if bool_decide (NAME_MAX < String.length c) then
        Some (OSError_ENAMETOOLONG path)
      else if bool_decide (prefix +:+ c ∈ dirs fs) then
        open_for_writing fs path (prefix +:+ c +:+ "/") rest
      else if bool_decide (is_Some (files fs !! (prefix +:+ c))) then
        Some (NotADirectoryError path)
      else Some (FileNotFoundError path)
  end.

(** [with open(path, "w"/"wb") as f: f.write(content)].  Python refuses a
    path that holds a zero byte before it asks the system, and the system a
    path of [PATH_MAX] bytes or more before it looks at its components. *)
Definition write_file (path content : string) : M filesystem unit :=
  λ fs,
    if has_nul path then (Raised (ValueError "embedded null byte"), fs)
    else if bool_decide (PATH_MAX ≤ String.length path) then
      (Raised (OSError_ENAMETOOLONG path), fs)
    else match open_for_writing fs path "" (split_sep "" path) with
         | Some e => (Raised e, fs)
         | None =>
             (Returned tt, {| dirs := dirs fs; files := <[path := content]> (files fs) |})
         end.

(** [with open(path, "r") as f: f.read()] *)
Definition read_file (path : string) : M filesystem string :=
  λ fs,
    match files fs !! path with
    | Some content => (Returned content, fs)
    | None =>
        if bool_decide (path ∈ dirs fs) then (Raised (IsADirectoryError path), fs)
        else (Raised (FileNotFoundError path), fs)
    end.

(** [os.remove(path)] *)
Definition os_remove (path : string) : M filesystem unit :=
  λ fs,
    if bool_decide (path ∈ dirs fs) then (Raised (IsADirectoryError path), fs)
    else match files fs !! path with
         | Some _ => (Returned tt, {| dirs := dirs fs; files := delete path (files fs) |})
         | None => (Raised (FileNotFoundError path), fs)
         end.

(** [os.makedirs(path, exist_ok=True)] for a one-component path. *)
Definition os_makedirs_exist_ok (path : string) : M filesystem unit :=
  λ fs,
    match files fs !! path with
    | Some _ => (Raised (FileExistsError path), fs)
    | None => (Returned tt, {| dirs := {[path]} ∪ dirs fs; files := files fs |})
    end.

(* ===================================================================== *)
(** ** uuid *)
(* ===================================================================== *)

(** The lower-case hexadecimal digit of [n < 16]. *)
Definition hex_digit (n : N) : ascii :=
  default "f"%char (String.get (N.to_nat n) "0123456789abcdef").

(** The [k] low hexadecimal digits of [n], most significant first:
    ['%032x' % n] for [k = 32] and [n < 2^128]. *)
Fixpoint hex (k : nat) (n : N) : string :=
  match k with
  | O => ""
  | S k' => hex k' (n / 16) +:+ String (hex_digit (n mod 16)) ""
  end.

(** [uuid.uuid4()]: the integer of a version 4 UUID, from 16 random bytes
    read as a number. *)
Definition uuid4 (random : N) : N :=
  let int := (random mod 2 ^ 128)%N in
  let int := N.ldiff int (N.shiftl 0xc000 48) in
  let int := N.lor int (N.shiftl 0x8000 48) in
  let int := N.ldiff int (N.shiftl 0xf000 64) in
  N.lor int (N.shiftl 4 76).

(** [str(u)] for a [UUID] with integer [u]. *)
Definition uuid_str (u : N) : string :=
  let h := hex 32 u in
  substring 0 8 h +:+ "-" +:+ substring 8 4 h +:+ "-" +:+ substring 12 4 h
  +:+ "-" +:+ substring 16 4 h +:+ "-" +:+ substring 20 12 h.

Arguments os_path_join : simpl never.
Arguments uuid4 : simpl never.
Arguments uuid_str : simpl never.

(* ===================================================================== *)
(** ** The SQLite connection *)
(* ===================================================================== *)

Section Sqlite.
Context `{Float64}.

(** A value in a result row, as the [sqlite3] module hands it to Python:
    [None], a [str] or a [float]. *)
Inductive sqlval :=
| SqlNull
| SqlText (s : string)
| SqlReal (x : REAL).

(** A result row is a tuple. *)
Definition row : Type := list sqlval.

(** [audio(id TEXT PRIMARY KEY, filename TEXT, original_name TEXT)] *)
Record audio_row := {
  a_id : string;
  a_filename : string;
  a_original_name : string;
}.

(** [segments(audio_id TEXT, start REAL, end REAL, text TEXT)] *)
Record segment_row := {
  s_audio_id : string;
  s_start : REAL;
  s_end : REAL;
  s_text : string;
}.

(** The two tables, rows in rowid order: an [INSERT] appends, a [SELECT]
    without [ORDER BY] scans from the front. *)
Record database := {
  audio : list audio_row;
  segments : list segment_row;
}.

Definition empty_database : database := {| audio := []; segments := [] |}.

(** The shared connection with its one shared cursor: [tables] is what the
    connection sees (its own uncommitted writes included), [durable] what the
    last [commit] left in [app.db], [cursor_rows] the rows of the last
    statement that are still to be fetched. *)
Record connection := {
  tables : database;
  durable : database;
  cursor_rows : list row;
}.

(** [sqlite3.connect(DB_PATH)] followed by the two [CREATE TABLE IF NOT
    EXISTS] and the [commit]: the tables of an existing [app.db] are kept. *)
Definition connect (db : database) : connection :=
  {| tables := db; durable := db; cursor_rows := [] |}.

(** The statements the application executes, with their bound parameters. *)
Inductive statement :=
| INSERT_INTO_audio (id filename original_name : string)
| INSERT_INTO_segments (audio_id : string) (start end_ : REAL) (text : string)
| SELECT_id_original_name_FROM_audio
| SELECT_filename_FROM_audio_WHERE_id (id : string)
| SELECT_start_end_text_FROM_segments_WHERE_audio_id (audio_id : string)
| DELETE_FROM_segments_WHERE_audio_id (audio_id : string)
| DELETE_FROM_audio_WHERE_id (id : string).

Definition with_tables (db : database) (rows : list row) (c : connection)
    : connection :=
  {| tables := db; durable := durable c; cursor_rows := rows |}.

(** [cursor.execute(sql, params)] *)
Definition cursor_execute (st : statement) : M connection unit :=
  λ c,
    let db := tables c in
    match st with
    | INSERT_INTO_audio id filename original_name =>
        if bool_decide (id ∈ a_id <$> audio db)
        then (Raised IntegrityError, with_tables db [] c)
        else (Returned tt,
              with_tables
                {| audio := audio db ++ [{| a_id := id; a_filename := filename;
                                            a_original_name := original_name |}];
                   segments := segments db |} [] c)
    | INSERT_INTO_segments audio_id start end_ text =>
        (Returned tt,
         with_tables
           {| audio := audio db;
              segments := segments db ++ [{| s_audio_id := audio_id; s_start := start;
                                             s_end := end_; s_text := text |}] |} [] c)
    | SELECT_id_original_name_FROM_audio =>
        (Returned tt,
         with_tables db
           ((λ r, [SqlText (a_id r); SqlText (a_original_name r)]) <$> audio db) c)
    | SELECT_filename_FROM_audio_WHERE_id id =>
        (Returned tt,
         with_tables db
           ((λ r, [SqlText (a_filename r)]) <$> filter (λ r, a_id r = id) (audio db)) c)
    | SELECT_start_end_text_FROM_segments_WHERE_audio_id audio_id =>
        (Returned tt,
         with_tables db
           ((λ r, [SqlReal (s_start r); SqlReal (s_end r); SqlText (s_text r)])
              <$> filter (λ r, s_audio_id r = audio_id) (segments db)) c)
    | DELETE_FROM_segments_WHERE_audio_id audio_id =>
        (Returned tt,
         with_tables
           {| audio := audio db;
              segments := filter (λ r, s_audio_id r ≠ audio_id) (segments db) |} [] c)
    | DELETE_FROM_audio_WHERE_id id =>
        (Returned tt,
         with_tables
           {| audio := filter (λ r, a_id r ≠ id) (audio db);
              segments := segments db |} [] c)
    end.

(** [cursor.fetchone()]: the next row, or [None]. *)
Definition cursor_fetchone : M connection (option row) :=
  λ c,
    match cursor_rows c with
    | [] => (Returned None, c)
    | r :: rest => (Returned (Some r), with_tables (tables c) rest c)
    end.

(** [cursor.fetchall()] *)
Definition cursor_fetchall : M connection (list row) :=
  λ c, (Returned (cursor_rows c), with_tables (tables c) [] c).

(** [conn.commit()] *)
Definition conn_commit : M connection unit :=
  λ c, (Returned tt,
        {| tables := tables c; durable := tables c; cursor_rows := cursor_rows c |}).

(** [r[i]] on a row. *)
Definition getitem {S} (r : row) (i : nat) : M S sqlval :=
  match r !! i with
  | Some v => mret v
  | None => raise IndexError
  end.

(** [r[i]] on what [fetchone] returned: [None] is not subscriptable. *)
Definition getitem_fetched {S} (r : option row) (i : nat) : M S sqlval :=
  match r with
  | Some r => getitem r i
  | None => raise TypeError
  end.

(** [if result:] on what [fetchone] returned. *)
Definition truthy (r : option row) : bool :=
  match r with
  | Some (_ :: _) => true
  | _ => false
  end.

(** A row value used as a path component: [os.path.join] accepts only a
    [str]. *)
Definition as_path_component {S} (v : sqlval) : M S string :=
  match v with
  | SqlText s => mret s
  | _ => raise TypeError
  end.

(** [f"{v}"] *)
Definition format_value (v : sqlval) : string :=
  match v with
  | SqlNull => "None"
  | SqlText s => s
  | SqlReal x => REAL_repr x
  end.

(** A row value placed in a response body. *)
Definition to_py (v : sqlval) : pyval :=
  match v with
  | SqlNull => PyNone
  | SqlText s => PyStr s
  | SqlReal x => PyFloat x
  end.

End Sqlite.

(* ===================================================================== *)
(** ** The application *)
(* ===================================================================== *)

(** One segment of a Whisper result: [s['start']], [s['end']], [s['text']]
    (the other keys are not read). *)
Record whisper_segment `{Float64} := {
  ws_start : REAL;
  ws_end : REAL;
  ws_text : string;
}.

(** What [model.transcribe] returns: [result['segments']]. *)
Record transcription `{Float64} := {
  t_segments : list whisper_segment;
}.

(** The libraries the application calls: the JSON codec ([json.load] on the
    text of a file, [json.dump(obj, f, indent=2)]) and Whisper
    ([whisper.load_model(size, device=device)], and
    [model.transcribe(path, language=language)], which reads the file at
    [path]). *)
Class Collaborators `{Float64} := {
  json_load : string → outcome pyval;
  json_dump : pyval → string;
  Model : Type;
  whisper_load_model : pyval → pyval → outcome Model;
  model_transcribe : Model → filesystem → string → pyval → outcome transcription;
}.

Section App.
Context `{Collaborators}.

(** The state of the running process: the file system, the module globals
    [conn]/[cursor], [config] and [model]. *)
Record world := {
  fs : filesystem;
  conn : connection;
  config : gmap string pyval;
  model : Model;
}.

Definition on_fs {A} (m : M filesystem A) : M world A :=
  λ w, let '(r, fs') := m (fs w) in
       (r, {| fs := fs'; conn := conn w; config := config w; model := model w |}).

Definition on_conn {A} (m : M connection A) : M world A :=
  λ w, let '(r, c') := m (conn w) in
       (r, {| fs := fs w; conn := c'; config := config w; model := model w |}).

(** A library call that returns or raises and leaves the state alone. *)
Definition call {S A} (r : outcome A) : M S A := λ s, (r, s).

(** *** Configuration *)

Definition default_config : gmap string pyval :=
  {[ "language" := PyStr "ja"; "model_size" := PyStr "base"; "device" := PyStr "cpu" ]}.

(** [load_config()].  The [try] block returns the merged configuration; after
    an exception (reported on the console) and after the [else] branch the
    function falls through to [return default_config]. *)
Definition load_config : M filesystem (gmap string pyval) :=
  present ← os_path_exists CONFIG_PATH;
  returned ←
    (if present : bool then
       try_except
         (text ← read_file CONFIG_PATH;
          config ← call (json_load text);
          merged ← dict_unpack_over default_config config;
          mret (Some merged))
         (λ _, mret None)
     else
       write_file CONFIG_PATH (json_dump (PyDict default_config));;
       mret None);
  match returned with
  | Some merged => mret merged
  | None => mret default_config
  end.

(** *** Start-up: the module body of [app.py] *)

(** [config = load_config()], [os.makedirs(UPLOAD_DIR, exist_ok=True)], the
    connection with its tables, and [model = whisper.load_model(...)], on a
    machine with file system [fs0] whose [app.db] holds [db0]. *)
Definition startup (fs0 : filesystem) (db0 : database) : outcome world :=
  match (config ← load_config;
         os_makedirs_exist_ok UPLOAD_DIR;;
         model_size ← dict_getitem config "model_size";
         device ← dict_getitem config "device";
         model ← call (whisper_load_model model_size device);
         mret (config, model)) fs0 with
  | (Returned (config, model), fs1) =>
      Returned {| fs := fs1; conn := connect db0; config := config; model := model |}
  | (Raised e, _) => Raised e
  end.

(** *** Requests *)

(** The uploaded file of a multipart request: [file.filename] and the bytes
    [file.file.read()] yields. *)
Record UploadFile := {
  upload_filename : string;
  upload_content : string;
}.

(** [POST /transcribe].  [random] is the 16 random bytes [uuid.uuid4()] draws.
    The result of [model.transcribe] is the dictionary Whisper documents, so
    the lookups of ["segments"], ["start"], ["end"] and ["text"] find their
    keys; an [INSERT] raises on a key that is taken and on nothing else, and
    the commit succeeds. *)
Definition transcribe (random : N) (file : UploadFile) : M world pyval :=
  let audio_id := uuid_str (uuid4 random) in
  let filename := audio_id +:+ "_" +:+ upload_filename file in
  let path := os_path_join UPLOAD_DIR filename in
  on_fs (write_file path (upload_content file));;
  w ← get;
  language ← dict_getitem (config w) "language";
  result ← call (model_transcribe (model w) (fs w) path language);
  on_conn (cursor_execute (INSERT_INTO_audio audio_id filename (upload_filename file)));;
  for_each (t_segments result) (λ s,
    on_conn (cursor_execute
      (INSERT_INTO_segments audio_id (ws_start s) (ws_end s) (ws_text s))));;
  on_conn conn_commit;;
  mret (PyDict {[ "status" := PyStr "ok" ]}).

(** [GET /library] *)
Definition library : M world pyval :=
  on_conn (cursor_execute SELECT_id_original_name_FROM_audio);;
  rows ← on_conn cursor_fetchall;
  items ← comprehension rows (λ r,
    r0 ← getitem r 0;
    r1 ← getitem r 1;
    mret (PyDict {[ "id" := to_py r0; "original_name" := to_py r1 ]}));
  mret (PyList items).

(** [GET /audio_data/{audio_id}] *)
Definition audio_data (audio_id : string) : M world pyval :=
  on_conn (cursor_execute (SELECT_filename_FROM_audio_WHERE_id audio_id));;
  fetched ← on_conn cursor_fetchone;
  filename ← getitem_fetched fetched 0;
  on_conn (cursor_execute (SELECT_start_end_text_FROM_segments_WHERE_audio_id audio_id));;
  rows ← on_conn cursor_fetchall;
  segments ← comprehension rows (λ r,
    r0 ← getitem r 0;
    r1 ← getitem r 1;
    r2 ← getitem r 2;
    mret (PyDict {[ "start" := to_py r0; "end" := to_py r1; "text" := to_py r2 ]}));
  mret (PyDict {[ "audio_url" := PyStr ("/audio/" +:+ format_value filename);
                  "segments" := PyList segments ]}).

(** [DELETE /delete/{audio_id}] *)
Definition delete_audio (audio_id : string) : M world pyval :=
  on_conn (cursor_execute (SELECT_filename_FROM_audio_WHERE_id audio_id));;
  result ← on_conn cursor_fetchone;
  if truthy result then
    filename ← getitem_fetched result 0;
    component ← as_path_component filename;
    let filepath := os_path_join UPLOAD_DIR component in
    present ← on_fs (os_path_exists filepath);
    (if present : bool then on_fs (os_remove filepath) else mret tt);;
    on_conn (cursor_execute (DELETE_FROM_segments_WHERE_audio_id audio_id));;
    on_conn (cursor_execute (DELETE_FROM_audio_WHERE_id audio_id));;
    on_conn conn_commit;;
    mret (PyDict {[ "status" := PyStr "deleted" ]})
  else
    mret (PyDict {[ "status" := PyStr "not_found" ]}).

(** What a handler hands to the framework: a value to serialise as JSON, or a
    [FileResponse] for a path. *)
Inductive response :=
| JSON (body : pyval)
| FileResponse (path : string).

(** [GET /audio/{filename}] *)
Definition get_audio (filename : string) : M world response :=
  mret (FileResponse (os_path_join UPLOAD_DIR filename)).

End App.

(* ===================================================================== *)
(** ** The HTTP surface *)
(* ===================================================================== *)

Section Http.
Context `{Collaborators}.

(** The requests the routes accept. *)
Inductive request :=
| POST_transcribe (random : N) (file : UploadFile)
| GET_library
| GET_audio_data (audio_id : string)
| DELETE_delete (audio_id : string)
| GET_audio (filename : string).

(** A path parameter such as [{filename}] matches one non-empty path segment:
    it holds no ['/']. *)
Definition path_parameter (s : string) : bool :=
  negb (bool_decide (s = "")) && negb (has_sep s).

Definition as_json (m : M world pyval) : M world response :=
  body ← m; mret (JSON body).

(** [path] names a directory: one of [dirs], or a dot or two after a
    directory that exists. *)
Definition names_directory (path : string) (f : filesystem) : bool :=
  bool_decide (path ∈ dirs f) ||
  match last (split_sep "" path) with
  | Some c => (bool_decide (c = ".") || bool_decide (c = "..")) &&
              bool_decide (parent_dir path = "" ∨ parent_dir path ∈ dirs f)
  | None => false
  end.

(** What the framework does with the [FileResponse] of a handler before it
    sends it: it asks the system for the file at [path] and raises
    [RuntimeError] when there is none or when it is not a regular file. *)
Definition send_file (r : response) : M world response :=
  λ w,
    match r with
    | FileResponse path =>
        match files (fs w) !! path with
        | Some _ => (Returned r, w)
        | None =>
            if names_directory path (fs w)
            then (Raised (RuntimeError ("File at path " +:+ path +:+ " is not a file.")), w)
            else (Raised (RuntimeError ("File at path " +:+ path +:+ " does not exist.")), w)
        end
    | JSON _ => (Returned r, w)
    end.

(** A request, from its handler to the answer the framework sends for it. *)
Definition handle (rq : request) : M world response :=
  match rq with
  | POST_transcribe random file => as_json (transcribe random file)
  | GET_library => as_json library
  | GET_audio_data audio_id => as_json (audio_data audio_id)
  | DELETE_delete audio_id => as_json (delete_audio audio_id)
  | GET_audio filename => r ← get_audio filename; send_file r
  end.

(** The status line the framework sends: 200 for an answer, 500 (Internal
    Server Error) for an exception; no handler raises [HTTPException], so no
    other status is produced for a request that a route matches. *)
Definition status_code {A} (r : outcome A) : nat :=
  match r with
  | Returned _ => 200
  | Raised _ => 500
  end.

(** The process state after a request, and after a sequence of requests. *)
Definition step (w : world) (rq : request) : world := (handle rq w).2.

Definition run (w : world) (rqs : list request) : world := foldl step w rqs.

(** The states the service can be in: a fresh [app.db] at start-up, then any
    number of requests, served one at a time; a restart runs the module body
    again on the same disk, with the tables the last commit left; and a file
    can disappear from the disk behind the back of the service. *)
Inductive reachable : world → Prop :=
| reachable_startup fs0 w :
    startup fs0 empty_database = Returned w → reachable w
| reachable_step w rq :
    reachable w → reachable (step w rq)
| reachable_restart w w' :
    reachable w → startup (fs w) (durable (conn w)) = Returned w' → reachable w'
| reachable_file_lost w path :
    reachable w →
    reachable {| fs := {| dirs := dirs (fs w); files := delete path (files (fs w)) |};
                 conn := conn w; config := config w; model := model w |}.

End Http.

(* ===================================================================== *)
(** ** Vocabulary of the specification *)
(* ===================================================================== *)

Section Vocabulary.
Context `{Collaborators}.

(** The tables as the connection of [w] sees them. *)
Definition db_of (w : world) : database := tables (conn w).

(** The process state with other tables and a drained cursor, with another
    file system, and after a commit. *)
Definition with_db (db : database) (w : world) : world :=
  {| fs := fs w; conn := with_tables db [] (conn w);
     config := config w; model := model w |}.

Definition with_fs (f : filesystem) (w : world) : world :=
  {| fs := f; conn := conn w; config := config w; model := model w |}.

Definition committed (w : world) : world :=
  {| fs := fs w;
     conn := {| tables := db_of w; durable := db_of w; cursor_rows := [] |};
     config := config w; model := model w |}.

(** The rows the two [WHERE] clauses select. *)
Definition audio_rows_for (id : string) (db : database) : list audio_row :=
  filter (λ r, a_id r = id) (audio db).

Definition segment_rows_for (id : string) (db : database) : list segment_row :=
  filter (λ r, s_audio_id r = id) (segments db).

(** An audio id is present when the [audio] table has a row for it. *)
Definition present (id : string) (db : database) : Prop :=
  id ∈ a_id <$> audio db.

#[global] Instance present_dec id db : Decision (present id db) :=
  list_elem_of_dec id (a_id <$> audio db).

(** The response bodies. *)
Definition library_item (id original_name : string) : pyval :=
  PyDict {[ "id" := PyStr id; "original_name" := PyStr original_name ]}.

Definition segment_item (start end_ : REAL) (text : string) : pyval :=
  PyDict {[ "start" := PyFloat start; "end" := PyFloat end_; "text" := PyStr text ]}.

Definition detail (filename : string) (items : list pyval) : pyval :=
  PyDict {[ "audio_url" := PyStr ("/audio/" +:+ filename);
            "segments" := PyList items ]}.

Definition status (s : string) : pyval := PyDict {[ "status" := PyStr s ]}.

Definition row_library_item (r : audio_row) : pyval :=
  library_item (a_id r) (a_original_name r).

Definition row_item (r : segment_row) : pyval :=
  segment_item (s_start r) (s_end r) (s_text r).

Definition whisper_item (s : whisper_segment) : pyval :=
  segment_item (ws_start s) (ws_end s) (ws_text s).

(** The outcome of a JSON route, from the outcome of its handler. *)
Definition json_outcome (r : outcome pyval) : outcome response :=
  match r with
  | Returned body => Returned (JSON body)
  | Raised e => Raised e
  end.

(** Reading a detail body back: its [audio_url], and the
    [(start, end, text)] of its segments in the order they appear. *)
Definition body_audio_url (body : pyval) : option string :=
  match body with
  | PyDict d => match d !! "audio_url" with Some (PyStr s) => Some s | _ => None end
  | _ => None
  end.

Definition item_triple (item : pyval) : option (REAL * REAL * string) :=
  match item with
  | PyDict d =>
      match d !! "start", d !! "end", d !! "text" with
      | Some (PyFloat a), Some (PyFloat b), Some (PyStr t) => Some (a, b, t)
      | _, _, _ => None
      end
  | _ => None
  end.

Definition body_segments (body : pyval) : option (list (REAL * REAL * string)) :=
  match body with
  | PyDict d =>
      match d !! "segments" with
      | Some (PyList items) => mapM item_triple items
      | _ => None
      end
  | _ => None
  end.

Definition whisper_triple (s : whisper_segment) : REAL * REAL * string :=
  (ws_start s, ws_end s, ws_text s).

Definition row_triple (r : segment_row) : REAL * REAL * string :=
  (s_start r, s_end r, s_text r).

(** A sequence of times never steps back. *)
Fixpoint non_decreasing (l : list REAL) : bool :=
  match l with
  | a :: (b :: _) as rest => REAL_leb a b && non_decreasing rest
  | _ => true
  end.

(** The row [transcribe] inserts for a Whisper segment, and the tables after
    its [INSERT]s and after the two [DELETE]s of [delete_audio]. *)
Definition segment_row_of (audio_id : string) (s : whisper_segment) : segment_row :=
  {| s_audio_id := audio_id; s_start := ws_start s; s_end := ws_end s;
     s_text := ws_text s |}.

Definition insert_rows (audio_id filename original_name : string)
    (segs : list whisper_segment) (db : database) : database :=
  {| audio := audio db ++ [{| a_id := audio_id; a_filename := filename;
                              a_original_name := original_name |}];
     segments := segments db ++ (segment_row_of audio_id <$> segs) |}.

Definition delete_rows (audio_id : string) (db : database) : database :=
  {| audio := filter (λ r, a_id r ≠ audio_id) (audio db);
     segments := filter (λ r, s_audio_id r ≠ audio_id) (segments db) |}.

Definition remove_file (path : string) (f : filesystem) : filesystem :=
  {| dirs := dirs f; files := delete path (files f) |}.

(** The path of the asset of an audio row. *)
Definition asset_path (r : audio_row) : string :=
  os_path_join UPLOAD_DIR (a_filename r).

(** Every segment row belongs to an audio row. *)
Definition referential_integrity (db : database) : Prop :=
  ∀ s, s ∈ segments db → present (s_audio_id s) db.

(** An audio row as [transcribe] writes it: the id has the length of a
    printed UUID and the stored name is the id, an underscore and the
    original name. *)
Definition stored_name_ok (r : audio_row) : Prop :=
  String.length (a_id r) = 36 ∧
  a_filename r = a_id r +:+ "_" +:+ a_original_name r.

(** What holds of the tables between requests; [d] is the set of
    directories. *)
Record db_ok (d : gset string) (db : database) : Prop := {
  db_primary_key : NoDup (a_id <$> audio db);
  db_references : referential_integrity db;
  db_names : ∀ r, r ∈ audio db → stored_name_ok r;
  db_assets : ∀ r, r ∈ audio db → asset_path r ∉ d;
}.

Definition consistent (w : world) : Prop :=
  durable (conn w) = db_of w ∧ db_ok (dirs (fs w)) (db_of w).

(** The segments of every audio id, in table order, have non-decreasing
    starts. *)
Definition starts_ordered (db : database) : Prop :=
  ∀ id, non_decreasing (s_start <$> segment_rows_for id db) = true.

(** The model hands back segments in non-decreasing order of [start]. *)
Definition model_ordered : Prop :=
  ∀ m f path language result,
    model_transcribe m f path language = Returned result →
    non_decreasing (ws_start <$> t_segments result) = true.

(** The configuration the file at [CONFIG_PATH] holds: its keys when it reads
    as a JSON object, none otherwise. *)
Definition config_file_keys (f : filesystem) : gmap string pyval :=
  match files f !! CONFIG_PATH with
  | Some text =>
      match json_load text with
      | Returned (PyDict d) => d
      | _ => ∅
      end
  | None => ∅
  end.


End Vocabulary.

(* ===================================================================== *)
(** ** More vocabulary: reads, listings, codecs *)
(* ===================================================================== *)

Section MoreVocabulary.
Context `{Collaborators}.

(** The routes that only read. *)
Definition is_read (rq : request) : bool :=
  match rq with
  | GET_library | GET_audio_data _ | GET_audio _ => true
  | POST_transcribe _ _ | DELETE_delete _ => false
  end.

(** The [id] of an item of the library listing. *)
Definition item_id (item : pyval) : option string :=
  match item with
  | PyDict d => match d !! "id" with Some (PyStr s) => Some s | _ => None end
  | _ => None
  end.

(** The three keys every configuration has. *)
Definition has_default_keys (c : gmap string pyval) : Prop :=
  is_Some (c !! "language") ∧ is_Some (c !! "model_size") ∧ is_Some (c !! "device").

(** The JSON codec reads back the defaults it wrote. *)
Definition codec_reads_defaults : Prop :=
  json_load (json_dump (PyDict default_config)) = Returned (PyDict default_config).

End MoreVocabulary.

(* ===================================================================== *)
(** ** The page: the script of the index route *)
(* ===================================================================== *)

(** What the script leaves to the browser: [String.prototype.trim]. *)
Class Browser := {
  js_trim : string → string;
}.

Section Page.
Context `{Collaborators} `{Browser}.

(** A [span.segment] of the transcript: its [dataset.start] and
    [dataset.end] (the numbers of the segment, which printing and
    [parseFloat] hand back unchanged), its [innerText], and whether its class
    list holds [active] and [playing]. *)
Record segment_span := {
  seg_start : REAL;
  seg_end : REAL;
  seg_text : string;
  seg_active : bool;
  seg_playing : bool;
}.

(** The children of [#transcript]: segment spans, the [br] between them, or
    the empty-state block. *)
Inductive transcript_node :=
| SegmentSpan (sp : segment_span)
| LineBreak
| EmptyState.

(** A [div.audio-item] of the library: the id its handlers close over, the
    text of its name span, and whether its class list holds [active]. *)
Record audio_item := {
  entry_id : string;
  entry_name : string;
  entry_active : bool;
}.

(** The children of [#library]: audio items, or the "No audio files yet"
    block. *)
Inductive library_node :=
| AudioItem (a : audio_item)
| NoFilesYet.

(** What the script asks of the [audio] element besides its source. *)
Inductive audio_command :=
| SetCurrentTime (t : REAL)
| Play.

(** The content of [#uploadText]. *)
Inductive upload_text :=
| StartTranscription
| Transcribing.

(** The player: [currentAudioId], the last value assigned to [audio.src], the
    seeks and plays asked of the element (oldest first), and [#transcript]. *)
Record player := {
  currentAudioId : option string;
  audio_src : string;
  audio_commands : list audio_command;
  transcript : list transcript_node;
}.

(** The upload controls: the selected file ([fileInput.files[0]]), the label,
    the button text and the two [disabled] flags. *)
Record uploader := {
  fileInput_files : option UploadFile;
  fileLabel : string;
  uploadText : upload_text;
  uploadBtn_disabled : bool;
  fileInput_disabled : bool;
}.

(** The dialogs: [deleteAudioId], whether each modal is displayed, and the
    messages passed to [alert] (oldest first). *)
Record dialogs := {
  deleteAudioId : option string;
  successModal : bool;
  confirmModal : bool;
  alerts : list string;
}.

Record page := {
  the_player : player;
  the_uploader : uploader;
  the_dialogs : dialogs;
  library_view : list library_node;
}.

(** A browser tab with no request in flight, and the service it talks to;
    [online] tells whether a [fetch] reaches the service.  The functions of
    the script are given first as what they have done when they have run to
    their end with no other event in between, awaited requests included; how
    they interleave with other events is the subject of [tab_state] and [react]
    below. *)
Record session := {
  the_page : page;
  server : world;
  online : bool;
}.

Definition with_page (f : page → page) (s : session) : session :=
  {| the_page := f (the_page s); server := server s; online := online s |}.

Definition with_player (f : player → player) (s : session) : session :=
  with_page (λ p, {| the_player := f (the_player p); the_uploader := the_uploader p;
                     the_dialogs := the_dialogs p; library_view := library_view p |}) s.

Definition with_uploader (f : uploader → uploader) (s : session) : session :=
  with_page (λ p, {| the_player := the_player p; the_uploader := f (the_uploader p);
                     the_dialogs := the_dialogs p; library_view := library_view p |}) s.

Definition with_dialogs (f : dialogs → dialogs) (s : session) : session :=
  with_page (λ p, {| the_player := the_player p; the_uploader := the_uploader p;
                     the_dialogs := f (the_dialogs p); library_view := library_view p |}) s.

Definition with_library_view (f : list library_node → list library_node)
    (s : session) : session :=
  with_page (λ p, {| the_player := the_player p; the_uploader := the_uploader p;
                     the_dialogs := the_dialogs p; library_view := f (library_view p) |}) s.

(** The page as the markup and the top of the script leave it. *)
Definition initial_page : page :=
  {| the_player := {| currentAudioId := None; audio_src := ""; audio_commands := [];
                      transcript := [EmptyState] |};
     the_uploader := {| fileInput_files := None; fileLabel := "Choose Audio File";
                        uploadText := StartTranscription;
                        uploadBtn_disabled := false; fileInput_disabled := false |};
     the_dialogs := {| deleteAudioId := None; successModal := false;
                       confirmModal := false; alerts := [] |};
     library_view := [] |}.

(** [alert(message)] *)
Definition alert (message : string) : session → session :=
  with_dialogs (λ d, {| deleteAudioId := deleteAudioId d; successModal := successModal d;
                        confirmModal := confirmModal d;
                        alerts := alerts d ++ [message] |}).

(** *** Requests *)

(** The promise of [fetch]: rejected when the service cannot be reached,
    resolved with the answer otherwise, whatever its status. *)
Inductive fetched :=
| Rejected
| Answered (r : outcome response).

(** [await fetch(...)] *)
Definition fetch (rq : request) (s : session) : fetched * session :=
  if online s then
    let '(r, w) := handle rq (server s) in
    (Answered r, {| the_page := the_page s; server := w; online := online s |})
  else (Rejected, s).

(** [await res.json()]: the body of a JSON answer; the answer to a handler
    that raised is the plain text of the framework, for which the promise
    rejects. *)
Definition res_json (r : outcome response) : option pyval :=
  match r with
  | Returned (JSON body) => Some body
  | _ => None
  end.

(** The [id] and [original_name] of the items of a listing. *)
Definition entry_of (item : pyval) : option (string * string) :=
  match item with
  | PyDict d =>
      match d !! "id", d !! "original_name" with
      | Some (PyStr id), Some (PyStr name) => Some (id, name)
      | _, _ => None
      end
  | _ => None
  end.

Definition library_entries (data : pyval) : option (list (string * string)) :=
  match data with
  | PyList items => mapM entry_of items
  | _ => None
  end.

(** *** The library *)

(** The children [loadLibrary] gives [#library] for a listing. *)
Definition render_library (entries : list (string * string)) : list library_node :=
  match entries with
  | [] => [NoFilesYet]
  | _ => (λ e, AudioItem {| entry_id := e.1; entry_name := e.2;
                            entry_active := false |}) <$> entries
  end.

(** [loadLibrary()].  A rejected [fetch] or [json()] ends the function before
    it touches the page.  The listing is read as the service types it; a body
    of another shape is outside the model and leaves the page alone. *)
Definition loadLibrary (s : session) : session :=
  match fetch GET_library s with
  | (Rejected, s1) => s1
  | (Answered r, s1) =>
      match res_json r with
      | None => s1
      | Some data =>
          match library_entries data with
          | None => s1
          | Some entries => with_library_view (λ _, render_library entries) s1
          end
      end
  end.

(** *** Dialogs *)

(** [showSuccessModal()], [closeModal()] *)
Definition set_successModal (shown : bool) : session → session :=
  with_dialogs (λ d, {| deleteAudioId := deleteAudioId d; successModal := shown;
                        confirmModal := confirmModal d; alerts := alerts d |}).

Definition showSuccessModal : session → session := set_successModal true.
Definition closeModal : session → session := set_successModal false.

(** [showDeleteConfirm(audioId)] *)
Definition showDeleteConfirm (audioId : string) : session → session :=
  with_dialogs (λ d, {| deleteAudioId := Some audioId; successModal := successModal d;
                        confirmModal := true; alerts := alerts d |}).

(** [closeConfirmModal()] *)
Definition closeConfirmModal : session → session :=
  with_dialogs (λ d, {| deleteAudioId := None; successModal := successModal d;
                        confirmModal := false; alerts := alerts d |}).

(** [!deleteAudioId]: [null] and the empty string are falsy. *)
Definition falsy (x : option string) : bool :=
  match x with
  | None => true
  | Some s => bool_decide (s = "")
  end.

(** The statements of [confirmDelete] under [if (currentAudioId ===
    deleteAudioId)]. *)
Definition clear_player : session → session :=
  with_player (λ p, {| currentAudioId := None; audio_src := "";
                       audio_commands := audio_commands p;
                       transcript := [EmptyState] |}).

(** [confirmDelete()].  [loadLibrary()] is started inside the [try] and not
    awaited: what it does to the page is the same, and its rejection is not
    caught. *)
Definition confirmDelete (s : session) : session :=
  let id := deleteAudioId (the_dialogs (the_page s)) in
  if falsy id then s
  else
    closeConfirmModal
      match fetch (DELETE_delete (default "" id)) s with
      | (Rejected, s1) => alert "Delete failed. Please try again." s1
      | (Answered _, s1) =>
          loadLibrary
            (if bool_decide (currentAudioId (the_player (the_page s1)) = id)
             then clear_player s1 else s1)
      end.

(** *** Upload *)

(** The [change] listener of the file input, for the new selection. *)
Definition fileInput_change (selection : option UploadFile) : session → session :=
  with_uploader (λ u,
    {| fileInput_files := selection;
       fileLabel := match selection with
                    | Some file => upload_filename file
                    | None => "Choose Audio File"
                    end;
       uploadText := uploadText u;
       uploadBtn_disabled := uploadBtn_disabled u;
       fileInput_disabled := fileInput_disabled u |}).

Definition set_upload_controls (disabled : bool) (text : upload_text)
    : session → session :=
  with_uploader (λ u, {| fileInput_files := fileInput_files u; fileLabel := fileLabel u;
                         uploadText := text; uploadBtn_disabled := disabled;
                         fileInput_disabled := disabled |}).

(** [fileInput.value = ''; fileLabel.textContent = 'Choose Audio File'] *)
Definition reset_file_input : session → session :=
  with_uploader (λ u, {| fileInput_files := None; fileLabel := "Choose Audio File";
                         uploadText := uploadText u;
                         uploadBtn_disabled := uploadBtn_disabled u;
                         fileInput_disabled := fileInput_disabled u |}).

(** [upload()]; [random] is what the service draws for the id. *)
Definition upload (random : N) (s : session) : session :=
  match fileInput_files (the_uploader (the_page s)) with
  | None => alert "Please select a file first" s
  | Some file =>
      set_upload_controls false StartTranscription
        match fetch (POST_transcribe random file) (set_upload_controls true Transcribing s) with
        | (Rejected, s1) => alert "Upload failed. Please try again." s1
        | (Answered _, s1) => loadLibrary (showSuccessModal (reset_file_input s1))
        end
  end.

(** *** The player *)

(** A span as [loadAudio] creates it. *)
Definition new_span (seg : REAL * REAL * string) : transcript_node :=
  SegmentSpan {| seg_start := seg.1.1; seg_end := seg.1.2; seg_text := js_trim seg.2;
                 seg_active := false; seg_playing := false |}.

(** The children [loadAudio] gives [#transcript]: a span per segment and a
    [br] after each but the last. *)
Fixpoint render_transcript (segs : list (REAL * REAL * string)) : list transcript_node :=
  match segs with
  | [] => []
  | [seg] => [new_span seg]
  | seg :: rest => new_span seg :: LineBreak :: render_transcript rest
  end.

(** The class changes of [loadAudio] on the library node at position [i]:
    [active] is removed from every item and added to [element]. *)
Definition mark_item (element i : nat) (node : library_node) : library_node :=
  match node with
  | AudioItem a => AudioItem {| entry_id := entry_id a; entry_name := entry_name a;
                                entry_active := bool_decide (i = element) |}
  | NoFilesYet => NoFilesYet
  end.

Definition activate_item (element : nat) (view : list library_node) : list library_node :=
  imap (mark_item element) view.

(** [loadAudio(id, element)].  A rejected [fetch] or [json()] ends the
    function after the selection was marked. *)
Definition loadAudio (id : string) (element : nat) (s : session) : session :=
  let s0 :=
    with_player (λ p, {| currentAudioId := Some id; audio_src := audio_src p;
                         audio_commands := audio_commands p;
                         transcript := transcript p |})
      (with_library_view (activate_item element) s) in
  match fetch (GET_audio_data id) s0 with
  | (Rejected, s1) => s1
  | (Answered r, s1) =>
      match res_json r with
      | None => s1
      | Some data =>
          match body_audio_url data, body_segments data with
          | Some url, Some segs =>
              with_player (λ p, {| currentAudioId := currentAudioId p; audio_src := url;
                                   audio_commands := audio_commands p;
                                   transcript := render_transcript segs |}) s1
          | _, _ => s1
          end
      end
  end.

(** The [onclick] of the name span of the item at position [element]. *)
Definition click_name (element : nat) (s : session) : session :=
  match library_view (the_page s) !! element with
  | Some (AudioItem a) => loadAudio (entry_id a) element s
  | _ => s
  end.

(** The [onclick] of the delete button of the item at position [element]. *)
Definition click_delete (element : nat) (s : session) : session :=
  match library_view (the_page s) !! element with
  | Some (AudioItem a) => showDeleteConfirm (entry_id a) s
  | _ => s
  end.

(** The class changes of a segment click, on the node at position [i]:
    [active] is removed from every span and added to the one clicked, at
    position [k]. *)
Definition mark_clicked (k i : nat) (node : transcript_node) : transcript_node :=
  match node with
  | SegmentSpan x =>
      SegmentSpan {| seg_start := seg_start x; seg_end := seg_end x;
                     seg_text := seg_text x; seg_active := bool_decide (i = k);
                     seg_playing := seg_playing x |}
  | other => other
  end.

(** The [onclick] of the span at position [k] of the transcript:
    [audio.currentTime = s.start; audio.play()], then the class changes. *)
Definition click_segment (k : nat) (s : session) : session :=
  match transcript (the_player (the_page s)) !! k with
  | Some (SegmentSpan sp) =>
      with_player (λ p,
        {| currentAudioId := currentAudioId p; audio_src := audio_src p;
           audio_commands := audio_commands p ++ [SetCurrentTime (seg_start sp); Play];
           transcript := imap (mark_clicked k) (transcript p) |}) s
  | _ => s
  end.

(** [currentTime >= start && currentTime <= end] *)
Definition within (currentTime : REAL) (sp : segment_span) : bool :=
  REAL_leb (seg_start sp) currentTime && REAL_leb currentTime (seg_end sp).

(** A span with its [playing] mark recomputed for a playback position, and
    the body of the loop of the [timeupdate] listener. *)
Definition highlighted (currentTime : REAL) (sp : segment_span) : segment_span :=
  {| seg_start := seg_start sp; seg_end := seg_end sp; seg_text := seg_text sp;
     seg_active := seg_active sp; seg_playing := within currentTime sp |}.

Definition highlight_node (currentTime : REAL) (node : transcript_node)
    : transcript_node :=
  match node with
  | SegmentSpan x => SegmentSpan (highlighted currentTime x)
  | other => other
  end.

(** The [timeupdate] listener, for the [audio.currentTime] it reads.  The
    position belongs to the audio element, which moves it while playing: it
    comes with the event, and is the position of the last [SetCurrentTime]
    only when the event follows the seek at once. *)
Definition timeupdate (currentTime : REAL) : session → session :=
  with_player (λ p,
    {| currentAudioId := currentAudioId p; audio_src := audio_src p;
       audio_commands := audio_commands p;
       transcript := highlight_node currentTime <$> transcript p |}).

(** The session when the network is down, and after a request that another
    client sent to the service. *)
Definition offline (s : session) : session :=
  {| the_page := the_page s; server := server s; online := false |}.

Definition elsewhere (rq : request) (s : session) : session :=
  {| the_page := the_page s; server := step (server s) rq; online := online s |}.

(** A tab opened on a running service, when the [loadLibrary()] of the last
    line of the script has run to its end. *)
Definition open_tab (w : world) : session :=
  loadLibrary {| the_page := initial_page; server := w; online := true |}.

(** *** The script, one turn of the event loop at a time *)

(** The four [await fetch(...)] of the script, by the function that waits:
    [upload], [loadLibrary], [loadAudio] and [confirmDelete].  The
    [await res.json()] that follows in [loadLibrary] and [loadAudio] reads and
    writes nothing of the page, so it is taken together with the [fetch]. *)
Inductive awaited :=
| FromUpload (file : UploadFile)
| FromLoadLibrary
| FromLoadAudio (id : string)
| FromConfirmDelete (id : string).

(** The request a function waits for; [random] is what the service draws for the id of
    an upload when it handles it. *)
Definition request_of (c : awaited) (random : N) : request :=
  match c with
  | FromUpload file => POST_transcribe random file
  | FromLoadLibrary => GET_library
  | FromLoadAudio id => GET_audio_data id
  | FromConfirmDelete id => DELETE_delete id
  end.

Definition is_upload (c : awaited) : bool :=
  match c with FromUpload _ => true | _ => false end.

(** A request that was sent and whose promise has not settled: the function
    that waits for it, and the answer of the service once it has handled
    it. *)
Record in_flight := {
  waiting : awaited;
  answered : option (outcome response);
}.

(** A tab between two turns of the event loop: the page and the service, and
    the requests in flight, oldest first.  The [online] flag of the session
    plays no part here: whether a request gets through is part of the event
    that settles it. *)
Record tab_state := {
  now : session;
  pending : list in_flight;
}.

Definition on_page (f : session → session) (t : tab_state) : tab_state :=
  {| now := f (now t); pending := pending t |}.

(** [fetch(...)], up to the [await]. *)
Definition sends (c : awaited) (t : tab_state) : tab_state :=
  {| now := now t; pending := pending t ++ [{| waiting := c; answered := None |}] |}.

(** [upload()] up to its [await]. *)
Definition upload_begins (t : tab_state) : tab_state :=
  match fileInput_files (the_uploader (the_page (now t))) with
  | None => on_page (alert "Please select a file first") t
  | Some file => sends (FromUpload file) (on_page (set_upload_controls true Transcribing) t)
  end.

(** [loadAudio(id, element)] up to its [await]: the class changes and
    [currentAudioId = id]. *)
Definition select_item (id : string) (element : nat) (s : session) : session :=
  with_player (λ p, {| currentAudioId := Some id; audio_src := audio_src p;
                       audio_commands := audio_commands p;
                       transcript := transcript p |})
    (with_library_view (activate_item element) s).

Definition loadAudio_begins (id : string) (element : nat) (t : tab_state) : tab_state :=
  sends (FromLoadAudio id) (on_page (select_item id element) t).

(** [confirmDelete()] up to its [await]. *)
Definition confirmDelete_begins (t : tab_state) : tab_state :=
  match deleteAudioId (the_dialogs (the_page (now t))) with
  | Some id => if bool_decide (id = "") then t else sends (FromConfirmDelete id) t
  | None => t
  end.

(** [if (currentAudioId === deleteAudioId) {...}], on the two variables as
    they are when [confirmDelete] goes on. *)
Definition clear_if_current (s : session) : session :=
  if bool_decide (currentAudioId (the_player (the_page s))
                  = deleteAudioId (the_dialogs (the_page s)))
  then clear_player s else s.

(** What a function does from its [await] on, when the promise is settled:
    [r] is the answer, or the rejection. *)
Definition resumes (c : awaited) (r : fetched) (t : tab_state) : tab_state :=
  match c, r with
  | FromUpload _, Answered _ =>
      on_page (set_upload_controls false StartTranscription)
        (sends FromLoadLibrary (on_page (λ s, showSuccessModal (reset_file_input s)) t))
  | FromUpload _, Rejected =>
      on_page (λ s, set_upload_controls false StartTranscription
                      (alert "Upload failed. Please try again." s)) t
  | FromLoadLibrary, Answered r =>
      match res_json r with
      | Some data =>
          match library_entries data with
          | Some entries => on_page (with_library_view (λ _, render_library entries)) t
          | None => t
          end
      | None => t
      end
  | FromLoadLibrary, Rejected => t
  | FromLoadAudio _, Answered r =>
      match res_json r with
      | Some data =>
          match body_audio_url data, body_segments data with
          | Some url, Some segs =>
              on_page (with_player (λ p,
                {| currentAudioId := currentAudioId p; audio_src := url;
                   audio_commands := audio_commands p;
                   transcript := render_transcript segs |})) t
          | _, _ => t
          end
      | None => t
      end
  | FromLoadAudio _, Rejected => t
  | FromConfirmDelete _, Answered _ =>
      on_page closeConfirmModal (sends FromLoadLibrary (on_page clear_if_current t))
  | FromConfirmDelete _, Rejected =>
      on_page (λ s, closeConfirmModal (alert "Delete failed. Please try again." s)) t
  end.

(** What can happen to a tab: the user's gestures, the clock of the [audio]
    element, the service handling a request in flight, the promise of a
    request settling (with the answer when there is one and it is delivered,
    rejected otherwise), and a request that someone else sends to the
    service. *)
Inductive event :=
| SelectFile (selection : option UploadFile)
| ClickUpload
| ClickCloseModal
| ClickSuccessBackdrop
| ClickName (element : nat)
| ClickDelete (element : nat)
| ClickCancel
| ClickConfirmBackdrop
| ClickConfirm
| ClickSegment (k : nat)
| TimeUpdate (currentTime : REAL)
| Served (i : nat) (random : N)
| Settled (i : nat) (delivered : bool)
| Elsewhere (rq : request).

(** One turn of the event loop.  A disabled control raises no event, and
    [window.onclick] closes the modal whose backdrop was clicked. *)
Definition react (t : tab_state) (ev : event) : tab_state :=
  match ev with
  | SelectFile selection =>
      if fileInput_disabled (the_uploader (the_page (now t))) then t
      else on_page (fileInput_change selection) t
  | ClickUpload =>
      if uploadBtn_disabled (the_uploader (the_page (now t))) then t
      else upload_begins t
  | ClickCloseModal | ClickSuccessBackdrop => on_page closeModal t
  | ClickName element =>
      match library_view (the_page (now t)) !! element with
      | Some (AudioItem a) => loadAudio_begins (entry_id a) element t
      | _ => t
      end
  | ClickDelete element => on_page (click_delete element) t
  | ClickCancel | ClickConfirmBackdrop => on_page closeConfirmModal t
  | ClickConfirm => confirmDelete_begins t
  | ClickSegment k => on_page (click_segment k) t
  | TimeUpdate currentTime => on_page (timeupdate currentTime) t
  | Served i random =>
      match pending t !! i with
      | Some {| waiting := c; answered := None |} =>
          {| now := {| the_page := the_page (now t);
                       server := step (server (now t)) (request_of c random);
                       online := online (now t) |};
             pending :=
               <[i := {| waiting := c;
                         answered := Some (handle (request_of c random)
                                             (server (now t))).1 |}]> (pending t) |}
      | _ => t
      end
  | Settled i delivered =>
      match pending t !! i with
      | Some p =>
          resumes (waiting p)
            (match answered p with
             | Some r => if delivered then Answered r else Rejected
             | None => Rejected
             end)
            {| now := now t; pending := delete i (pending t) |}
      | None => t
      end
  | Elsewhere rq => on_page (elsewhere rq) t
  end.

(** A tab opened on a running service: the script runs to its last line,
    [loadLibrary()], which sends its request; and the tabs that follow. *)
Definition opens (w : world) : tab_state :=
  sends FromLoadLibrary
    {| now := {| the_page := initial_page; server := w; online := true |};
       pending := [] |}.

Inductive browsing : tab_state → Prop :=
| browsing_opens w : reachable w → browsing (opens w)
| browsing_react t ev : browsing t → browsing (react t ev).

(** The spans of a transcript, and how many of them are [active]. *)
Definition spans (nodes : list transcript_node) : list segment_span :=
  omap (λ node, match node with SegmentSpan sp => Some sp | _ => None end) nodes.

Definition active_spans (nodes : list transcript_node) : list segment_span :=
  filter (λ sp, seg_active sp = true) (spans nodes).

Definition items (view : list library_node) : list audio_item :=
  omap (λ node, match node with AudioItem a => Some a | _ => None end) view.

Definition active_items (view : list library_node) : list audio_item :=
  filter (λ a, entry_active a = true) (items view).

(** The span [loadAudio] creates for a segment row, and the item
    [loadLibrary] creates for an audio row. *)
Definition span_of_row (r : segment_row) : segment_span :=
  {| seg_start := s_start r; seg_end := s_end r; seg_text := js_trim (s_text r);
     seg_active := false; seg_playing := false |}.

Definition item_of_row (r : audio_row) : audio_item :=
  {| entry_id := a_id r; entry_name := a_original_name r; entry_active := false |}.

(** The span [loadAudio] shows for a segment of the model. *)
Definition span_of_segment (seg : whisper_segment) : segment_span :=
  {| seg_start := ws_start seg; seg_end := ws_end seg; seg_text := js_trim (ws_text seg);
     seg_active := false; seg_playing := false |}.

(** The view [loadLibrary] renders for the audio rows of the service. *)
Definition library_view_of (rows : list audio_row) : list library_node :=
  match rows with
  | [] => [NoFilesYet]
  | _ => AudioItem ∘ item_of_row <$> rows
  end.


(** A library item with its [active] mark set. *)
Definition selected_item (a : audio_item) : audio_item :=
  {| entry_id := entry_id a; entry_name := entry_name a; entry_active := true |}.

(** What a span shows apart from its [active] mark. *)
Definition unmarked (sp : segment_span) : REAL * REAL * string * bool :=
  (seg_start sp, seg_end sp, seg_text sp, seg_playing sp).

(** A span with its [active] mark set. *)
Definition activated (sp : segment_span) : segment_span :=
  {| seg_start := seg_start sp; seg_end := seg_end sp; seg_text := seg_text sp;
     seg_active := true; seg_playing := seg_playing sp |}.

(** The uploads among the requests in flight. *)
Definition uploads_in_flight (l : list in_flight) : nat :=
  length (filter (λ p, is_upload (waiting p) = true) l).

(** The tab between two turns of the event loop: at most one span and at most
    one library item are marked active; the delete dialog is displayed exactly
    when an id is waiting in [deleteAudioId]; the two upload controls are
    disabled together, exactly while an upload is in flight, of which there is
    never more than one, and the button says so. *)
Definition tidy (t : tab_state) : Prop :=
  let p := the_page (now t) in
  length (active_spans (transcript (the_player p))) ≤ 1 ∧
  length (active_items (library_view p)) ≤ 1 ∧
  (confirmModal (the_dialogs p) = true ↔ is_Some (deleteAudioId (the_dialogs p))) ∧
  fileInput_disabled (the_uploader p) = uploadBtn_disabled (the_uploader p) ∧
  uploadText (the_uploader p)
    = (if uploadBtn_disabled (the_uploader p) then Transcribing else StartTranscription) ∧
  uploads_in_flight (pending t) = (if uploadBtn_disabled (the_uploader p) then 1 else 0).

End Page.

(** Projections of page records applied to record literals. *)
Ltac page_simpl :=
  cbn [the_page server online the_player the_uploader the_dialogs library_view
       currentAudioId audio_src audio_commands transcript
       fileInput_files fileLabel uploadText uploadBtn_disabled fileInput_disabled
       deleteAudioId successModal confirmModal alerts
       with_page with_player with_uploader with_dialogs with_library_view
       now pending on_page].

(** The parts of a conjunction of facts about a page, each closed by what is
    at hand. *)
Ltac page_facts :=
  repeat split; first [done | tauto | by intros [? ?] | by eexists | cbn; lia].

(* ===================================================================== *)
(** ** A test double of the environment *)
(* ===================================================================== *)

(** Concrete stand-ins for the libraries, used to run the handlers on
    examples: three doubles, a JSON codec that knows two texts, and a model
    that returns the same two segments for every non-empty audio file. *)
Module Demo.

Inductive double := d0_0 | d2_5 | d5_0.

Definition rank (x : double) : nat :=
  match x with d0_0 => 0 | d2_5 => 1 | d5_0 => 2 end.

Definition repr (x : double) : string :=
  match x with d0_0 => "0.0" | d2_5 => "2.5" | d5_0 => "5.0" end.

#[export] Instance floats : Float64 :=
  {| REAL := double; REAL_leb := λ x y, Nat.leb (rank x) (rank y); REAL_repr := repr |}.

Definition quote : string := String "034"%char "".
Definition newline : string := String "010"%char "".

(** [{"language": "en"}] *)
Definition english_text : string :=
  "{" +:+ quote +:+ "language" +:+ quote +:+ ": " +:+ quote +:+ "en" +:+ quote +:+ "}".

(** The text of [json.dump(default_config, f, indent=2)]. *)
Definition default_text : string :=
  "{" +:+ newline +:+
  "  " +:+ quote +:+ "language" +:+ quote +:+ ": " +:+ quote +:+ "ja" +:+ quote +:+ "," +:+ newline +:+
  "  " +:+ quote +:+ "model_size" +:+ quote +:+ ": " +:+ quote +:+ "base" +:+ quote +:+ "," +:+ newline +:+
  "  " +:+ quote +:+ "device" +:+ quote +:+ ": " +:+ quote +:+ "cpu" +:+ quote +:+ newline +:+
  "}".

Definition load (text : string) : outcome pyval :=
  if bool_decide (text = english_text) then
    Returned (PyDict {[ "language" := PyStr "en" ]})
  else if bool_decide (text = default_text) then
    Returned (PyDict {[ "language" := PyStr "ja"; "model_size" := PyStr "base";
                        "device" := PyStr "cpu" ]})
  else if bool_decide (text = "[]") then Returned (PyList [])
  else Raised JSONDecodeError.

Definition two_segments : transcription :=
  {| t_segments := [ {| ws_start := d0_0; ws_end := d2_5; ws_text := "konnichiwa" |};
                     {| ws_start := d2_5; ws_end := d5_0; ws_text := "genki desu ka" |} ] |}.

Definition run_model (_ : unit) (f : filesystem) (path : string) (_ : pyval)
    : outcome transcription :=
  match files f !! path with
  | Some "" => Raised (RuntimeError "no audio")
  | Some _ => Returned two_segments
  | None => Raised (FileNotFoundError path)
  end.

#[export] Instance collaborators : Collaborators :=
  {| json_load := load;
     json_dump := λ _, default_text;
     Model := unit;
     whisper_load_model := λ _ _, Returned tt;
     model_transcribe := run_model |}.

(** A machine on which nothing has run yet, and one whose operator wrote a
    configuration file. *)
Definition blank_disk : filesystem := {| dirs := ∅; files := ∅ |}.

Definition configured_disk : filesystem :=
  {| dirs := ∅; files := {[ CONFIG_PATH := english_text ]} |}.

(** The process state after start-up on the blank machine. *)
Definition booted : world :=
  {| fs := {| dirs := {[ UPLOAD_DIR ]}; files := {[ CONFIG_PATH := default_text ]} |};
     conn := connect empty_database;
     config := default_config;
     model := tt |}.

Definition lesson1 : UploadFile :=
  {| upload_filename := "lesson1.mp3"; upload_content := "ID3-lesson-one" |}.

Definition lesson2 : UploadFile :=
  {| upload_filename := "lesson2.mp3"; upload_content := "ID3-lesson-two" |}.

(** An upload whose name asks for a directory that does not exist. *)
Definition nested : UploadFile :=
  {| upload_filename := "album/track.mp3"; upload_content := "ID3-track" |}.

Definition id1 : string := uuid_str (uuid4 1).
Definition id2 : string := uuid_str (uuid4 2).

(** The state after uploading [lesson1] and then [lesson2]. *)
Definition one_upload : world := step booted (POST_transcribe 1 lesson1).
Definition two_uploads : world := step one_upload (POST_transcribe 2 lesson2).

(** [one_upload] after the asset of its upload was removed from the disk by
    hand. *)
Definition asset_lost : world :=
  {| fs := {| dirs := dirs (fs one_upload);
              files := delete (os_path_join UPLOAD_DIR (id1 +:+ "_lesson1.mp3"))
                         (files (fs one_upload)) |};
     conn := conn one_upload; config := config one_upload; model := model one_upload |}.

End Demo.

(** More of the test double: a browser, and states for the edge cases. *)
Module DemoPage.

(** [trim] for texts whose only white space is the ASCII space. *)
Fixpoint drop_spaces (l : list ascii) : list ascii :=
  match l with
  | c :: rest => if bool_decide (c = " "%char) then drop_spaces rest else l
  | [] => []
  end.

Definition trim (s : string) : string :=
  string_of_list_ascii
    (rev (drop_spaces (rev (drop_spaces (list_ascii_of_string s))))).

#[export] Instance browser : Browser := {| js_trim := trim |}.

(** An upload the model cannot transcribe. *)
Definition silent : UploadFile :=
  {| upload_filename := "silent.mp3"; upload_content := "" |}.

(** A disk on which [uploads] is a regular file. *)
Definition uploads_is_a_file : filesystem :=
  {| dirs := ∅; files := {[ UPLOAD_DIR := "not a directory" ]} |}.

(** [Demo.one_upload] after its asset was replaced by a directory. *)
Definition directory_in_the_way : world :=
  {| fs := {| dirs := {[ os_path_join UPLOAD_DIR (Demo.id1 +:+ "_lesson1.mp3") ]}
                      ∪ dirs (fs Demo.one_upload);
              files := delete (os_path_join UPLOAD_DIR (Demo.id1 +:+ "_lesson1.mp3"))
                         (files (fs Demo.one_upload)) |};
     conn := conn Demo.one_upload; config := config Demo.one_upload;
     model := model Demo.one_upload |}.


(** A tab opened on the service with two uploads; then the first recording is
    opened and its second segment clicked. *)
Definition tab : session := open_tab Demo.two_uploads.
Definition opened : session := click_name 0 tab.
Definition clicked : session := click_segment 2 opened.

(** The same tab after someone else deleted the first recording. *)
Definition stale : session := elsewhere (DELETE_delete Demo.id1) tab.

(** The tab with a file selected for upload. *)
Definition selected : session := fileInput_change (Some Demo.nested) tab.

(** The tab with the delete dialog open on the recording that is loaded. *)
Definition confirming : session := click_delete 0 opened.

(** A tab opened on the service with one upload, with the second lesson
    selected for upload. *)
Definition ready : session :=
  fileInput_change (Some Demo.lesson2) (open_tab Demo.one_upload).

(** A tab opened on the service with two uploads: the library has arrived,
    then a file is selected and sent, and while the upload is in flight the
    first recording is clicked and the playback position moves. *)
Definition busy : tab_state :=
  foldl react (opens Demo.two_uploads)
    [Served 0 0%N; Settled 0 true; SelectFile (Some Demo.lesson1); ClickUpload;
     ClickName 0; TimeUpdate (Demo.d2_5 : @REAL Demo.floats)].

(** The rows of the two uploads, and what the page shows for them. *)
Definition row1 : audio_row :=
  {| a_id := Demo.id1; a_filename := Demo.id1 +:+ "_lesson1.mp3";
     a_original_name := "lesson1.mp3" |}.

Definition item1 : audio_item :=
  {| entry_id := Demo.id1; entry_name := "lesson1.mp3"; entry_active := false |}.

Definition span1 : @segment_span Demo.floats :=
  {| seg_start := Demo.d0_0 : @REAL Demo.floats; seg_end := Demo.d2_5;
     seg_text := "konnichiwa";
     seg_active := false; seg_playing := false |}.

Definition span2 : @segment_span Demo.floats :=
  {| seg_start := Demo.d2_5 : @REAL Demo.floats; seg_end := Demo.d5_0;
     seg_text := "genki desu ka";
     seg_active := false; seg_playing := false |}.

End DemoPage.

(** A decidable proposition, settled by evaluation. *)
Ltac by_evaluation :=
  lazymatch goal with
  | |- ¬ ?P => apply (bool_decide_eq_false_1 P); vm_compute; reflexivity
  | |- ?P => apply (bool_decide_eq_true_1 P); vm_compute; reflexivity
  end.


(* ===================================================================== *)
(** ** Strings, paths and UUIDs *)
(* ===================================================================== *)

Lemma length_append (s t : string) :
  String.length (s +:+ t) = String.length s + String.length t.
Proof. induction s as [|c s IH]; simpl; [reflexivity|]. by rewrite IH. Qed.

Lemma length_substring (n m : nat) (s : string) :
  n + m ≤ String.length s → String.length (substring n m s) = m.
Proof.
  revert n m. induction s as [|c s IH]; intros n m Hlen; cbn in Hlen.
  - assert (n = 0) as -> by lia. assert (m = 0) as -> by lia. reflexivity.
  - destruct n as [|n]; cbn.
    + destruct m as [|m]; cbn; [reflexivity|]. rewrite IH by lia. reflexivity.
    + apply IH. lia.
Qed.

Lemma length_hex (k : nat) (n : N) : String.length (hex k n) = k.
Proof.
  revert n. induction k as [|k IH]; intros n; cbn [hex]; [reflexivity|].
  rewrite length_append, IH. cbn. lia.
Qed.

(** A printed UUID has 36 characters. *)
Lemma length_uuid_str (u : N) : String.length (uuid_str u) = 36.
Proof.
  unfold uuid_str. cbv zeta.
  repeat rewrite length_append.
  repeat rewrite length_substring by (rewrite length_hex; lia).
  reflexivity.
Qed.

(** Two concatenations with prefixes of the same length agree only when the
    prefixes and the rests agree. *)
Lemma append_inj_length (a b c d : string) :
  String.length a = String.length c → a +:+ b = c +:+ d → a = c ∧ b = d.
Proof.
  revert c. induction a as [|x a IH]; intros [|y c] Hlen Heq; cbn in *;
    try discriminate.
  - auto.
  - injection Heq as -> Heq. destruct (IH c) as [-> ->]; auto.
Qed.

Lemma append_inj_r (a b d : string) : a +:+ b = a +:+ d → b = d.
Proof. intros Heq. by destruct (append_inj_length a b a d eq_refl Heq). Qed.

(** [os.path.join(UPLOAD_DIR, _)] sends different names to different paths. *)
Lemma os_path_join_inj (b b' : string) :
  os_path_join UPLOAD_DIR b = os_path_join UPLOAD_DIR b' → b = b'.
Proof.
  unfold os_path_join. cbn [UPLOAD_DIR ends_with_sep bool_decide orb].
  change (bool_decide ("uploads" = "") || ends_with_sep "uploads") with false.
  cbv iota.
  destruct (starts_with_sep b) eqn:Hb, (starts_with_sep b') eqn:Hb'; intros Heq.
  - done.
  - subst b. cbn in Hb. discriminate.
  - subst b'. cbn in Hb'. discriminate.
  - apply (append_inj_r "uploads/" b b'). exact Heq.
Qed.

(** No joined path is the uploads directory itself. *)
Lemma os_path_join_not_upload_dir (b : string) :
  os_path_join UPLOAD_DIR b ≠ UPLOAD_DIR.
Proof.
  unfold os_path_join.
  change (bool_decide (UPLOAD_DIR = "") || ends_with_sep UPLOAD_DIR) with false.
  cbv iota. destruct (starts_with_sep b) eqn:Hb.
  - intros ->. cbn in Hb. discriminate.
  - intros Heq. apply (f_equal String.length) in Heq.
    rewrite length_append in Heq. cbn in Heq. lia.
Qed.

(** Stored names that start with printed UUIDs agree only for the same UUID. *)
Lemma stored_name_inj (id id' name name' : string) :
  String.length id = 36 → String.length id' = 36 →
  id +:+ "_" +:+ name = id' +:+ "_" +:+ name' → id = id'.
Proof.
  intros Hid Hid' Heq.
  by destruct (append_inj_length id _ id' _ ltac:(congruence) Heq).
Qed.

Lemma hex_digit_not_sep (n : N) : hex_digit n ≠ sep.
Proof.
  unfold hex_digit. generalize (N.to_nat n). intros m.
  do 16 (destruct m as [|m]; [by cbn|]). by cbn.
Qed.

Lemma has_sep_append (s t : string) : has_sep (s +:+ t) = has_sep s || has_sep t.
Proof.
  induction s as [|c s IH]; [reflexivity|]. simpl. rewrite IH. by rewrite orb_assoc.
Qed.

Lemma has_sep_substring (n m : nat) (s : string) :
  has_sep s = false → has_sep (substring n m s) = false.
Proof.
  revert n m. induction s as [|c s IH]; intros n m Hs.
  - by destruct n, m.
  - simpl in Hs. apply orb_false_iff in Hs as [Hc Hs].
    destruct n as [|n]; simpl.
    + destruct m as [|m]; [reflexivity|]. simpl. by rewrite Hc, IH.
    + by apply IH.
Qed.

Lemma has_sep_hex (k : nat) (n : N) : has_sep (hex k n) = false.
Proof.
  revert n. induction k as [|k IH]; intros n; [reflexivity|].
  cbn [hex]. rewrite has_sep_append, IH. cbn [has_sep orb].
  by rewrite (bool_decide_eq_false_2 _ (hex_digit_not_sep _)).
Qed.

(** A printed UUID holds no ['/']. *)
Lemma has_sep_uuid_str (u : N) : has_sep (uuid_str u) = false.
Proof.
  unfold uuid_str. cbv zeta. rewrite !has_sep_append.
  rewrite !has_sep_substring by apply has_sep_hex. reflexivity.
Qed.

Lemma starts_with_sep_has_sep (s : string) : has_sep s = false → starts_with_sep s = false.
Proof. destruct s as [|c s]; [done|]. simpl. by intros [? _]%orb_false_iff. Qed.

Lemma parent_dir_append (a b : string) :
  has_sep b = false → parent_dir (a +:+ String sep b) = a.
Proof.
  intros Hb. induction a as [|c a IH].
  - simpl. by rewrite Hb.
  - change (String c a +:+ String sep b) with (String c (a +:+ String sep b)).
    cbn [parent_dir]. rewrite has_sep_append. cbn [has_sep].
    rewrite (bool_decide_eq_true_2 (sep = sep) eq_refl).
    rewrite orb_true_r. by rewrite IH.
Qed.

(** A name without ['/'] is stored directly in the uploads directory. *)
Lemma os_path_join_flat (b : string) :
  has_sep b = false →
  os_path_join UPLOAD_DIR b = UPLOAD_DIR +:+ String sep b ∧
  parent_dir (os_path_join UPLOAD_DIR b) = UPLOAD_DIR.
Proof.
  intros Hb. unfold os_path_join. rewrite starts_with_sep_has_sep by done.
  change (bool_decide (UPLOAD_DIR = "") || ends_with_sep UPLOAD_DIR) with false.
  cbv iota. split; [reflexivity|]. by apply parent_dir_append.
Qed.

Lemma append_empty_r (s : string) : s +:+ "" = s.
Proof.
  induction s as [|c s IH]; [done|].
  change (String c (s +:+ "") = String c s). by f_equal.
Qed.

Lemma append_snoc (s t : string) (c : ascii) :
  (s +:+ String c "") +:+ t = s +:+ String c t.
Proof.
  induction s as [|x s IH]; [done|].
  change (String x ((s +:+ String c "") +:+ t) = String x (s +:+ String c t)).
  by f_equal.
Qed.

Lemma split_sep_flat (cur s : string) :
  has_sep s = false → split_sep cur s = [cur +:+ s].
Proof.
  revert cur. induction s as [|c s IH]; intros cur Hs.
  - cbn. by rewrite append_empty_r.
  - cbn [has_sep] in Hs. apply orb_false_iff in Hs as [Hc Hs].
    cbn [split_sep]. rewrite Hc, IH by done. by rewrite append_snoc.
Qed.

Lemma hex_digit_not_nul (n : N) : hex_digit n ≠ "000"%char.
Proof.
  unfold hex_digit. generalize (N.to_nat n). intros m.
  do 16 (destruct m as [|m]; [by cbn|]). by cbn.
Qed.

Lemma has_nul_append (s t : string) : has_nul (s +:+ t) = has_nul s || has_nul t.
Proof.
  induction s as [|c s IH]; [reflexivity|]. simpl. rewrite IH. by rewrite orb_assoc.
Qed.

Lemma has_nul_substring (n m : nat) (s : string) :
  has_nul s = false → has_nul (substring n m s) = false.
Proof.
  revert n m. induction s as [|c s IH]; intros n m Hs.
  - by destruct n, m.
  - simpl in Hs. apply orb_false_iff in Hs as [Hc Hs].
    destruct n as [|n]; simpl.
    + destruct m as [|m]; [reflexivity|]. simpl. by rewrite Hc, IH.
    + by apply IH.
Qed.

Lemma has_nul_hex (k : nat) (n : N) : has_nul (hex k n) = false.
Proof.
  revert n. induction k as [|k IH]; intros n; [reflexivity|].
  cbn [hex]. rewrite has_nul_append, IH. cbn [has_nul orb].
  by rewrite (bool_decide_eq_false_2 _ (hex_digit_not_nul _)).
Qed.

(** A printed UUID holds no zero byte. *)
Lemma has_nul_uuid_str (u : N) : has_nul (uuid_str u) = false.
Proof.
  unfold uuid_str. cbv zeta. rewrite !has_nul_append.
  rewrite !has_nul_substring by apply has_nul_hex. reflexivity.
Qed.

(** A file directly in the uploads directory can be written when its name is
    one the system takes and no directory stands in its place. *)
Lemma write_file_flat (f : filesystem) (name content : string) :
  has_sep name = false → has_nul name = false →
  2 < String.length name → String.length name ≤ NAME_MAX →
  UPLOAD_DIR ∈ dirs f → os_path_join UPLOAD_DIR name ∉ dirs f →
  write_file (os_path_join UPLOAD_DIR name) content f =
  (Returned tt,
   {| dirs := dirs f; files := <[os_path_join UPLOAD_DIR name := content]> (files f) |}).
Proof.
  intros Hsep Hnul Hshort Hlong Hup Hdir.
  destruct (os_path_join_flat name Hsep) as [Hjoin _].
  unfold write_file.
  assert (has_nul (os_path_join UPLOAD_DIR name) = false) as ->.
  { rewrite Hjoin, has_nul_append. cbn. by rewrite Hnul. }
  rewrite (bool_decide_eq_false_2 (PATH_MAX ≤ _)).
  2:{ rewrite Hjoin, length_append. unfold PATH_MAX, NAME_MAX in *. cbn. lia. }
  assert (split_sep "" (os_path_join UPLOAD_DIR name) = ["uploads"; name]) as ->.
  { rewrite Hjoin.
    change (split_sep "" (UPLOAD_DIR +:+ String sep name))
      with ("uploads" :: split_sep "" name).
    by rewrite split_sep_flat. }
  assert (name ≠ "") as Hne by (intros ->; cbn in Hshort; lia).
  assert (is_dots name = false) as Hdots.
  { unfold is_dots. rewrite !bool_decide_eq_false_2; [done|..];
      intros ->; cbn in Hshort; lia. }
  cbn [open_for_writing forallb].
  rewrite (bool_decide_eq_false_2 (name = "") Hne). cbn [andb].
  change (is_dots "uploads") with false. cbv iota.
  rewrite (bool_decide_eq_false_2 (NAME_MAX < String.length "uploads"))
    by (vm_compute; lia).
  change ("" +:+ "uploads") with UPLOAD_DIR.
  rewrite (bool_decide_eq_true_2 _ Hup).
  rewrite (bool_decide_eq_true_2 ([] = []) eq_refl), Hdots. cbn [negb orb].
  rewrite (bool_decide_eq_false_2 (NAME_MAX < String.length name)) by lia.
  by rewrite (bool_decide_eq_false_2 _ Hdir).
Qed.

(* ===================================================================== *)
(** ** What the handlers compute *)
(* ===================================================================== *)

Section Handlers.
Context `{Collaborators}.

Lemma comprehension_fmap {S A B C} (mk : A → B) (f : B → M S C) (g : A → C)
    (rows : list A) (s : S) :
  (∀ r s', f (mk r) s' = (Returned (g r), s')) →
  comprehension (mk <$> rows) f s = (Returned (g <$> rows), s).
Proof.
  intros Hf. induction rows as [|r rows IH]; [reflexivity|].
  cbn [fmap list_fmap comprehension]. unfold mbind at 1, M_bind at 1.
  rewrite Hf. unfold mbind at 1, M_bind at 1.
  change (list_fmap A B mk rows) with (mk <$> rows). rewrite IH. reflexivity.
Qed.

Lemma library_eq (w : world) :
  library w =
  (Returned (PyList (row_library_item <$> audio (db_of w))), with_db (db_of w) w).
Proof.
  unfold library, mbind, M_bind. cbn.
  erewrite (comprehension_fmap _ _ row_library_item); reflexivity.
Qed.

Lemma audio_data_eq (audio_id : string) (w : world) :
  audio_data audio_id w =
  match audio_rows_for audio_id (db_of w) with
  | [] => (Raised TypeError, with_db (db_of w) w)
  | r :: _ =>
      (Returned (detail (a_filename r)
                   (row_item <$> segment_rows_for audio_id (db_of w))),
       with_db (db_of w) w)
  end.
Proof.
  unfold audio_data, audio_rows_for, segment_rows_for, db_of, mbind, M_bind. cbn.
  destruct (filter _ (audio _)) as [|r rest]; cbn; [reflexivity|].
  erewrite (comprehension_fmap _ _ row_item); reflexivity.
Qed.

Lemma delete_audio_absent (audio_id : string) (w : world) :
  audio_rows_for audio_id (db_of w) = [] →
  delete_audio audio_id w = (Returned (status "not_found"), with_db (db_of w) w).
Proof.
  unfold delete_audio, audio_rows_for, db_of, mbind, M_bind. cbn.
  intros ->. reflexivity.
Qed.

Lemma delete_audio_present (audio_id : string) (w : world) r rest :
  audio_rows_for audio_id (db_of w) = r :: rest →
  asset_path r ∉ dirs (fs w) →
  delete_audio audio_id w =
  (Returned (status "deleted"),
   committed (with_db (delete_rows audio_id (db_of w))
                (with_fs (remove_file (asset_path r) (fs w)) w))).
Proof.
  unfold delete_audio, audio_rows_for, asset_path, db_of, mbind, M_bind. cbn.
  intros -> Hdir. cbn.
  unfold os_remove, committed, with_db, with_fs, remove_file, db_of. cbn.
  destruct (files (fs w) !! _) as [content|] eqn:Hfile.
  - rewrite bool_decide_eq_true_2 by (right; eauto). cbn. unfold on_fs. cbn.
    rewrite (bool_decide_eq_false_2 _ Hdir), Hfile. reflexivity.
  - rewrite bool_decide_eq_false_2 by (intros [?|[? ?]]; [done|congruence]).
    cbn. rewrite delete_id by done. destruct w as [[] ? ? ?]; reflexivity.
Qed.

Lemma for_each_insert_segments (audio_id : string) (segs : list whisper_segment)
    f rows_a rows_s dur cfg mdl :
  for_each segs (λ s,
    on_conn (cursor_execute
      (INSERT_INTO_segments audio_id (ws_start s) (ws_end s) (ws_text s))))
    {| fs := f;
       conn := {| tables := {| audio := rows_a; segments := rows_s |};
                  durable := dur; cursor_rows := [] |};
       config := cfg; model := mdl |}
  = (Returned tt,
     {| fs := f;
        conn := {| tables := {| audio := rows_a;
                                segments := rows_s ++ (segment_row_of audio_id <$> segs) |};
                   durable := dur; cursor_rows := [] |};
        config := cfg; model := mdl |}).
Proof.
  revert rows_s. induction segs as [|s segs IH]; intros rows_s.
  - cbn. rewrite app_nil_r. reflexivity.
  - cbn [for_each]. unfold mbind at 1, M_bind at 1. unfold on_conn at 1.
    cbn [cursor_execute conn tables audio segments]. unfold with_tables. cbn [durable].
    rewrite IH. rewrite <- app_assoc. reflexivity.
Qed.

(** [transcribe], step by step: the file is written first; the tables are
    touched only once the file is on disk, the language is configured and
    the model has returned. *)
Lemma transcribe_eq (random : N) (file : UploadFile) (w : world) :
  let audio_id := uuid_str (uuid4 random) in
  let filename := audio_id +:+ "_" +:+ upload_filename file in
  let path := os_path_join UPLOAD_DIR filename in
  transcribe random file w =
  match write_file path (upload_content file) (fs w) with
  | (Raised e, f1) => (Raised e, with_fs f1 w)
  | (Returned _, f1) =>
      match config w !! "language" with
      | None => (Raised (KeyError "language"), with_fs f1 w)
      | Some language =>
          match model_transcribe (model w) f1 path language with
          | Raised e => (Raised e, with_fs f1 w)
          | Returned result =>
              if bool_decide (present audio_id (db_of w))
              then (Raised IntegrityError, with_db (db_of w) (with_fs f1 w))
              else (Returned (status "ok"),
                    committed (with_db
                      (insert_rows audio_id filename (upload_filename file)
                         (t_segments result) (db_of w))
                      (with_fs f1 w)))
          end
      end
  end.
Proof.
  intros audio_id filename path. unfold transcribe.
  fold audio_id. fold filename. fold path.
  unfold mbind at 1, M_bind at 1. unfold on_fs at 1.
  destruct (write_file path (upload_content file) (fs w)) as [[[]|e] f1]; [|reflexivity].
  unfold mbind at 1, M_bind at 1. cbn [get config fs model].
  unfold mbind at 1, M_bind at 1. unfold dict_getitem at 1.
  destruct (config w !! "language") as [language|]; [|reflexivity].
  cbn [mret M_ret]. unfold mbind at 1, M_bind at 1. unfold call at 1.
  destruct (model_transcribe (model w) f1 path language) as [result|e]; [|reflexivity].
  unfold mbind at 1, M_bind at 1. unfold on_conn at 1. cbn [conn cursor_execute].
  unfold present, db_of.
  destruct w as [f [[rows_a rows_s] dur cur] cfg mdl]. cbn [tables audio fs conn].
  destruct (bool_decide _); [reflexivity|].
  unfold with_tables. cbn [tables durable audio segments config model].
  unfold mbind at 1, M_bind at 1.
  rewrite for_each_insert_segments. reflexivity.
Qed.

(** The file system after a write that succeeded or failed. *)
Lemma open_for_writing_none (f : filesystem) (path prefix : string) (comps : list string) :
  open_for_writing f path prefix comps = None → path ∉ dirs f.
Proof.
  revert prefix. induction comps as [|c rest IH]; intros prefix; [discriminate|].
  cbn [open_for_writing]. destruct (forallb _ rest).
  - case_bool_decide; [discriminate|].
    destruct (negb _ || is_dots c); [discriminate|].
    case_bool_decide; [discriminate|]. by case_bool_decide.
  - destruct (is_dots c); [apply IH|].
    case_bool_decide; [discriminate|].
    case_bool_decide; [apply IH|]. by case_bool_decide.
Qed.

Lemma write_file_returned (path content : string) (f f1 : filesystem) :
  write_file path content f = (Returned tt, f1) →
  (path ∉ dirs f) ∧ dirs f1 = dirs f ∧ files f1 = (<[path := content]> (files f)).
Proof.
  unfold write_file. destruct (has_nul path); [discriminate|].
  case_bool_decide; [discriminate|].
  destruct (open_for_writing _ _ _ _) as [e|] eqn:Hopen; [discriminate|].
  intros [= <-]. split; [|done]. by eapply open_for_writing_none.
Qed.

Lemma write_file_raised (path content : string) (f f1 : filesystem) e :
  write_file path content f = (Raised e, f1) → f1 = f.
Proof.
  unfold write_file. destruct (has_nul path); [congruence|].
  case_bool_decide; [congruence|].
  destruct (open_for_writing _ _ _ _); congruence.
Qed.

Lemma write_file_dirs (path content : string) (f : filesystem) :
  dirs (write_file path content f).2 = dirs f.
Proof.
  unfold write_file. destruct (has_nul path); [done|].
  case_bool_decide; [done|]. by destruct (open_for_writing _ _ _ _).
Qed.

(** A response is the handler's outcome, wrapped. *)
Lemma as_json_eq (m : M world pyval) (w : world) :
  as_json m w = (json_outcome (m w).1, (m w).2).
Proof. unfold as_json, mbind, M_bind. destruct (m w) as [[body|e] w1]; reflexivity. Qed.

(** [GET /audio/{filename}] never changes the state. *)
Lemma send_file_state (r : response) (w : world) : (send_file r w).2 = w.
Proof.
  unfold send_file. destruct r as [body|path]; [done|].
  destruct (files (fs w) !! path); [done|]. by destruct (names_directory path (fs w)).
Qed.

Lemma get_audio_sent (filename : string) (w : world) :
  (get_audio filename ≫= λ r, send_file r) w
  = ((send_file (FileResponse (os_path_join UPLOAD_DIR filename)) w).1, w).
Proof.
  unfold get_audio, mbind, M_bind. cbn [mret M_ret].
  pose proof (send_file_state (FileResponse (os_path_join UPLOAD_DIR filename)) w) as Hw.
  destruct (send_file _ w) as [[r|e] w1]; cbn [snd] in Hw; by subst.
Qed.

End Handlers.

(* ===================================================================== *)
(** ** The tables under [INSERT] and [DELETE] *)
(* ===================================================================== *)

Section Tables.
Context `{Collaborators}.

Lemma filter_segment_row_of (id id' : string) (segs : list whisper_segment) :
  filter (λ r, s_audio_id r = id) (segment_row_of id' <$> segs) =
  if decide (id' = id) then segment_row_of id' <$> segs else [].
Proof.
  induction segs as [|s segs IH]; [by case_decide|].
  rewrite fmap_cons, filter_cons, IH. cbn [segment_row_of s_audio_id].
  repeat case_decide; done.
Qed.

Lemma segment_rows_for_insert (id id' filename name : string) segs db :
  segment_rows_for id (insert_rows id' filename name segs db) =
  segment_rows_for id db ++
  (if decide (id' = id) then segment_row_of id' <$> segs else []).
Proof.
  unfold segment_rows_for, insert_rows. cbn [segments].
  by rewrite filter_app, filter_segment_row_of.
Qed.

Lemma audio_rows_for_insert (id id' filename name : string) segs db :
  audio_rows_for id (insert_rows id' filename name segs db) =
  audio_rows_for id db ++
  (if decide (id' = id)
   then [{| a_id := id'; a_filename := filename; a_original_name := name |}]
   else []).
Proof.
  unfold audio_rows_for, insert_rows. cbn [audio].
  rewrite filter_app, filter_cons, filter_nil. cbn [a_id]. done.
Qed.

Lemma filter_eq_after_ne {A} (key : A → string) (id id' : string) (l : list A) :
  filter (λ r, key r = id) (filter (λ r, key r ≠ id') l) =
  if decide (id' = id) then [] else filter (λ r, key r = id) l.
Proof.
  induction l as [|r l IH]; [by case_decide|].
  rewrite (filter_cons (λ r, key r ≠ id')), (filter_cons (λ r, key r = id) r l).
  destruct (decide (key r ≠ id')) as [Hne|Heq].
  - rewrite filter_cons, IH. repeat case_decide; congruence.
  - rewrite IH. apply dec_stable in Heq. repeat case_decide; congruence.
Qed.

Lemma segment_rows_for_delete (id id' : string) db :
  segment_rows_for id (delete_rows id' db) =
  if decide (id' = id) then [] else segment_rows_for id db.
Proof. apply (filter_eq_after_ne s_audio_id). Qed.

Lemma audio_rows_for_delete (id id' : string) db :
  audio_rows_for id (delete_rows id' db) =
  if decide (id' = id) then [] else audio_rows_for id db.
Proof. apply (filter_eq_after_ne a_id). Qed.

(** An id is present exactly when the [WHERE id=?] query finds a row. *)
Lemma audio_rows_for_nil (id : string) db :
  audio_rows_for id db = [] ↔ ¬ present id db.
Proof.
  unfold audio_rows_for, present. split.
  - intros Hnil [r [-> Hr]]%list_elem_of_fmap.
    by apply (filter_nil_not_elem_of _ _ r Hnil).
  - intros Hno. destruct (filter _ _) as [|r rest] eqn:Hf; [done|].
    assert (r ∈ filter (λ r, a_id r = id) (audio db)) as [<- Hr]%list_elem_of_filter
      by (rewrite Hf; left).
    destruct Hno. by apply list_elem_of_fmap_2.
Qed.

Lemma audio_rows_for_elem (id : string) db r :
  r ∈ audio_rows_for id db ↔ a_id r = id ∧ r ∈ audio db.
Proof. unfold audio_rows_for. by rewrite list_elem_of_filter. Qed.

Lemma audio_rows_for_head (id : string) db r rest :
  audio_rows_for id db = r :: rest → a_id r = id ∧ r ∈ audio db.
Proof. intros Hf. apply audio_rows_for_elem. rewrite Hf. left. Qed.

(** Under referential integrity an id without audio row has no segment. *)
Lemma segment_rows_for_absent (id : string) db :
  referential_integrity db → ¬ present id db → segment_rows_for id db = [].
Proof.
  intros Href Hno. unfold segment_rows_for.
  destruct (filter _ _) as [|s rest] eqn:Hf; [done|].
  assert (s ∈ filter (λ r, s_audio_id r = id) (segments db)) as [<- Hs]%list_elem_of_filter
    by (rewrite Hf; left).
  destruct Hno. by apply Href.
Qed.

Lemma present_insert (id id' filename name : string) segs db :
  present id (insert_rows id' filename name segs db) ↔ id = id' ∨ present id db.
Proof.
  unfold present, insert_rows. cbn [audio].
  rewrite fmap_app, elem_of_app. cbn. rewrite list_elem_of_singleton. tauto.
Qed.

Lemma present_delete (id id' : string) db :
  present id (delete_rows id' db) ↔ id ≠ id' ∧ present id db.
Proof.
  unfold present, delete_rows. cbn [audio].
  rewrite !list_elem_of_fmap. split.
  - intros [r [-> [Hne Hr]%list_elem_of_filter]]. eauto.
  - intros [Hne [r [-> Hr]]]. exists r. split; [done|]. by apply list_elem_of_filter.
Qed.

Lemma referential_integrity_insert (id filename name : string) segs db :
  referential_integrity db →
  referential_integrity (insert_rows id filename name segs db).
Proof.
  intros Href s. unfold insert_rows at 1. cbn [segments].
  rewrite elem_of_app, present_insert. intros [Hs|Hs].
  - right. by apply Href.
  - left. apply list_elem_of_fmap in Hs as [ws [-> _]]. reflexivity.
Qed.

Lemma referential_integrity_delete (id : string) db :
  referential_integrity db → referential_integrity (delete_rows id db).
Proof.
  intros Href s. unfold delete_rows at 1. cbn [segments].
  intros [Hne Hs]%list_elem_of_filter. apply present_delete. auto.
Qed.

Lemma db_ok_insert (d : gset string) (random : N) (name : string) segs db :
  let id := uuid_str (uuid4 random) in
  db_ok d db → ¬ present id db →
  os_path_join UPLOAD_DIR (id +:+ "_" +:+ name) ∉ d →
  db_ok d (insert_rows id (id +:+ "_" +:+ name) name segs db).
Proof.
  intros id [Hkey Href Hnames Hassets] Hfresh Hpath. split.
  - unfold insert_rows. cbn [audio]. rewrite fmap_app. apply NoDup_app.
    split; [done|]. split; [|apply NoDup_singleton].
    intros x Hx [= ->]%list_elem_of_singleton. by destruct Hfresh.
  - by apply referential_integrity_insert.
  - intros r [Hr|[= ->]%list_elem_of_singleton]%elem_of_app; [by apply Hnames|].
    split; [apply length_uuid_str|reflexivity].
  - intros r [Hr|[= ->]%list_elem_of_singleton]%elem_of_app; [by apply Hassets|].
    exact Hpath.
Qed.

Lemma db_ok_delete (d : gset string) (id : string) db :
  db_ok d db → db_ok d (delete_rows id db).
Proof.
  intros [Hkey Href Hnames Hassets]. split.
  - unfold delete_rows. cbn [audio].
    eapply sublist_NoDup; [exact Hkey|]. apply fmap_sublist, sublist_filter.
  - by apply referential_integrity_delete.
  - intros r [_ Hr]%list_elem_of_filter. by apply Hnames.
  - intros r [_ Hr]%list_elem_of_filter. by apply Hassets.
Qed.

Lemma db_ok_empty (d : gset string) : db_ok d empty_database.
Proof.
  split; cbn.
  - apply NoDup_nil_2.
  - intros s Hs. by apply not_elem_of_nil in Hs.
  - intros r Hr. by apply not_elem_of_nil in Hr.
  - intros r Hr. by apply not_elem_of_nil in Hr.
Qed.

End Tables.

(* ===================================================================== *)
(** ** Start-up and the invariant of the service *)
(* ===================================================================== *)

Section Invariant.
Context `{Collaborators}.

(** [config.json] can be written wherever it is not a directory. *)
Lemma write_file_config (content : string) (f : filesystem) :
  CONFIG_PATH ∉ dirs f →
  write_file CONFIG_PATH content f =
  (Returned tt, {| dirs := dirs f; files := <[CONFIG_PATH := content]> (files f) |}).
Proof.
  intros Hdir. unfold write_file.
  change (has_nul CONFIG_PATH) with false.
  rewrite (bool_decide_eq_false_2 (PATH_MAX ≤ _)) by (vm_compute; lia).
  change (split_sep "" CONFIG_PATH) with [CONFIG_PATH].
  cbn [open_for_writing forallb].
  change (bool_decide (CONFIG_PATH = "")) with false.
  change (negb (bool_decide ([] = [])) || is_dots CONFIG_PATH) with false.
  rewrite (bool_decide_eq_false_2 (NAME_MAX < _)) by (vm_compute; lia).
  by rewrite (bool_decide_eq_false_2 _ Hdir).
Qed.

(** [load_config] in closed form. *)
Lemma load_config_eq (f : filesystem) :
  load_config f =
  if bool_decide (CONFIG_PATH ∈ dirs f ∨ is_Some (files f !! CONFIG_PATH))
  then (Returned (config_file_keys f ∪ default_config), f)
  else (Returned default_config,
        {| dirs := dirs f;
           files := <[CONFIG_PATH := json_dump (PyDict default_config)]> (files f) |}).
Proof.
  unfold load_config, config_file_keys.
  unfold mbind at 1, M_bind at 1. unfold os_path_exists at 1.
  case_bool_decide as Hexists.
  - unfold mbind at 1, M_bind at 1. unfold try_except.
    unfold mbind at 1, M_bind at 1. unfold read_file at 1.
    destruct (files f !! CONFIG_PATH) as [text|] eqn:Hfile.
    + unfold mbind at 1, M_bind at 1. unfold call at 1.
      destruct (json_load text) as [[]|]; cbn; try by rewrite (left_id_L ∅ (∪)).
      reflexivity.
    + case_bool_decide; cbn; by rewrite (left_id_L ∅ (∪)).
  - unfold mbind at 1, M_bind at 1. unfold mbind at 1, M_bind at 1.
    rewrite write_file_config by (intros Hd; apply Hexists; by left). reflexivity.
Qed.

Lemma load_config_dirs (f : filesystem) : dirs (load_config f).2 = dirs f.
Proof. rewrite load_config_eq. by case_bool_decide. Qed.

(** What a start-up that succeeds leaves behind. *)
Lemma startup_returned (fs0 : filesystem) (db0 : database) (w : world) :
  startup fs0 db0 = Returned w →
  db_of w = db0 ∧ durable (conn w) = db0 ∧
  dirs (fs w) = {[ UPLOAD_DIR ]} ∪ dirs fs0 ∧
  (load_config fs0).1 = Returned (config w).
Proof.
  pose proof (load_config_dirs fs0) as Hdirs.
  unfold startup, mbind, M_bind.
  destruct (load_config fs0) as [[cfg|e] f1]; [|discriminate].
  unfold os_makedirs_exist_ok. destruct (files f1 !! UPLOAD_DIR); [discriminate|].
  unfold dict_getitem. destruct (cfg !! "model_size") as [size|]; [|discriminate].
  destruct (cfg !! "device") as [device|]; [|discriminate].
  unfold call. cbn. destruct (whisper_load_model size device); [|discriminate].
  intros [= <-]. cbn in *. by rewrite Hdirs.
Qed.

(** The directories are those of start-up: no handler creates or removes
    one. *)
Lemma step_dirs (w : world) (rq : request) : dirs (fs (step w rq)) = dirs (fs w).
Proof.
  unfold step. destruct rq as [random file| |id|id|filename]; cbn [handle].
  - rewrite as_json_eq. cbn [snd]. rewrite transcribe_eq. cbv zeta.
    pose proof (write_file_dirs
      (os_path_join UPLOAD_DIR (uuid_str (uuid4 random) +:+ "_" +:+ upload_filename file))
      (upload_content file) (fs w)) as Hd.
    destruct (write_file _ _ _) as [[[]|e] f1]; cbn [snd] in Hd; [|exact Hd].
    destruct (config w !! "language"); [|exact Hd].
    destruct (model_transcribe _ _ _ _); [|exact Hd].
    case_bool_decide; exact Hd.
  - rewrite as_json_eq, library_eq. reflexivity.
  - rewrite as_json_eq, audio_data_eq. by destruct (audio_rows_for _ _).
  - rewrite as_json_eq. cbn [snd].
    unfold delete_audio, mbind, M_bind, on_conn, on_fs. cbn.
    destruct (filter _ _) as [|r rest]; cbn; [reflexivity|].
    case_bool_decide; cbn; [|reflexivity].
    unfold os_remove. case_bool_decide; cbn; [reflexivity|].
    destruct (files (fs w) !! _); reflexivity.
  - by rewrite get_audio_sent.
Qed.

(** Every request, whether its handler returns or raises, keeps the
    invariant. *)
Lemma consistent_step (w : world) (rq : request) :
  consistent w → consistent (step w rq).
Proof.
  intros [Hcommit Hok]. unfold consistent. rewrite step_dirs.
  unfold step. destruct rq as [random file| |id|id|filename]; cbn [handle].
  - rewrite as_json_eq. cbn [snd]. rewrite transcribe_eq. cbv zeta.
    destruct (write_file _ _ _) as [[[]|e] f1] eqn:Hwrite; [|done].
    destruct (config w !! "language"); [|done].
    destruct (model_transcribe _ _ _ _); [|done].
    case_bool_decide as Hpresent; [done|].
    split; [reflexivity|]. apply db_ok_insert; [done..|].
    by apply write_file_returned in Hwrite as [? _].
  - rewrite as_json_eq, library_eq. done.
  - rewrite as_json_eq, audio_data_eq. by destruct (audio_rows_for _ _).
  - rewrite as_json_eq. cbn [snd].
    destruct (audio_rows_for id (db_of w)) as [|r rest] eqn:Hrows.
    + rewrite delete_audio_absent by done. done.
    + assert (asset_path r ∉ dirs (fs w)) as Hdir.
      { apply Hok. by apply audio_rows_for_head in Hrows as [_ ?]. }
      rewrite (delete_audio_present _ _ _ _ Hrows Hdir).
      split; [reflexivity|]. by apply db_ok_delete.
  - by rewrite get_audio_sent.
Qed.

(** A start-up on consistent durable tables gives a consistent state. *)
Lemma consistent_startup (fs0 : filesystem) (db0 : database) (w : world) :
  db_ok (dirs fs0) db0 → startup fs0 db0 = Returned w → consistent w.
Proof.
  intros [Hkey Href Hnames Hassets] (Hdb & Hdur & Hdirs & _)%startup_returned.
  split; [congruence|]. rewrite Hdb, Hdirs. split; [done..|].
  intros r Hr [Hup%elem_of_singleton|Hd]%elem_of_union.
  - by apply os_path_join_not_upload_dir in Hup.
  - by apply (Hassets r).
Qed.

Theorem reachable_consistent (w : world) : reachable w → consistent w.
Proof.
  induction 1 as [fs0 w Hstart|w rq _ IH|w w' _ IH Hstart|w path _ IH].
  - eapply consistent_startup; [apply db_ok_empty|exact Hstart].
  - by apply consistent_step.
  - destruct IH as [Hcommit Hok].
    eapply consistent_startup; [|exact Hstart]. by rewrite Hcommit.
  - exact IH.
Qed.

End Invariant.

(* ===================================================================== *)
(** ** Reading a response back, and what a request leaves alone *)
(* ===================================================================== *)

Section Frames.
Context `{Collaborators}.

Lemma item_triple_segment_item (a b : REAL) (t : string) :
  item_triple (segment_item a b t) = Some (a, b, t).
Proof. reflexivity. Qed.

Lemma mapM_item_triple (rows : list segment_row) :
  mapM item_triple (row_item <$> rows) = Some (row_triple <$> rows).
Proof.
  induction rows as [|r rows IH]; [reflexivity|].
  rewrite !fmap_cons. cbn [mapM]. rewrite IH. reflexivity.
Qed.

Lemma body_segments_detail (filename : string) (rows : list segment_row) :
  body_segments (detail filename (row_item <$> rows)) = Some (row_triple <$> rows).
Proof.
  unfold body_segments, detail.
  rewrite lookup_insert_ne by done. rewrite lookup_singleton_eq.
  apply mapM_item_triple.
Qed.

Lemma body_audio_url_detail (filename : string) (items : list pyval) :
  body_audio_url (detail filename items) = Some ("/audio/" +:+ filename).
Proof. unfold body_audio_url, detail. by rewrite lookup_insert_eq. Qed.

Lemma row_triple_segment_row_of (id : string) (segs : list whisper_segment) :
  row_triple <$> (segment_row_of id <$> segs) = whisper_triple <$> segs.
Proof. rewrite <- list_fmap_compose. reflexivity. Qed.

(** The tables after a request: unchanged, or with the rows of one upload
    under a fresh id added, or with the rows of one id removed. *)
Lemma step_tables (w : world) (rq : request) :
  db_of (step w rq) = db_of w ∨
  (∃ random file f path language result,
     rq = POST_transcribe random file ∧
     ¬ present (uuid_str (uuid4 random)) (db_of w) ∧
     model_transcribe (model w) f path language = Returned result ∧
     db_of (step w rq) =
       insert_rows (uuid_str (uuid4 random))
         (uuid_str (uuid4 random) +:+ "_" +:+ upload_filename file)
         (upload_filename file) (t_segments result) (db_of w)) ∨
  (∃ id, rq = DELETE_delete id ∧ db_of (step w rq) = delete_rows id (db_of w)).
Proof.
  unfold step. destruct rq as [random file| |id|id|filename]; cbn [handle].
  - rewrite as_json_eq. cbn [snd]. rewrite transcribe_eq. cbv zeta.
    destruct (write_file _ _ _) as [[[]|e] f1]; [|by left].
    destruct (config w !! "language") as [language|]; [|by left].
    destruct (model_transcribe _ _ _ _) as [result|e] eqn:Hmodel; [|by left].
    case_bool_decide as Hpresent; [by left|].
    right. left. by eexists random, file, f1, _, language, result.
  - left. by rewrite as_json_eq, library_eq.
  - left. rewrite as_json_eq, audio_data_eq. by destruct (audio_rows_for _ _).
  - rewrite as_json_eq. cbn [snd].
    unfold delete_audio, mbind, M_bind, on_conn, on_fs. cbn.
    destruct (filter _ _) as [|r rest]; cbn; [by left|].
    case_bool_decide; cbn.
    + unfold os_remove. case_bool_decide; cbn; [by left|].
      destruct (files (fs w) !! _); cbn; [|by left].
      right. right. by exists id.
    + right. right. by exists id.
  - rewrite get_audio_sent. by left.
Qed.

(** A request other than the deletion of [id] leaves the rows of a present
    [id] as they are. *)
Lemma step_frame (w : world) (rq : request) (id : string) :
  rq ≠ DELETE_delete id → present id (db_of w) →
  audio_rows_for id (db_of (step w rq)) = audio_rows_for id (db_of w) ∧
  segment_rows_for id (db_of (step w rq)) = segment_rows_for id (db_of w).
Proof.
  intros Hrq Hpresent.
  destruct (step_tables w rq)
    as [->|[(random & file & f & path & language & result & -> & Hfresh & _ & ->)
           |(id' & -> & ->)]].
  - done.
  - rewrite audio_rows_for_insert, segment_rows_for_insert.
    case_decide as Hid; [by subst|]. by rewrite !app_nil_r.
  - rewrite audio_rows_for_delete, segment_rows_for_delete.
    case_decide as Hid; [by subst|]. done.
Qed.

Lemma run_frame (w : world) (later : list request) (id : string) :
  Forall (λ rq, rq ≠ DELETE_delete id) later → present id (db_of w) →
  audio_rows_for id (db_of (run w later)) = audio_rows_for id (db_of w) ∧
  segment_rows_for id (db_of (run w later)) = segment_rows_for id (db_of w).
Proof.
  intros Hlater. revert w. induction Hlater as [|rq later Hrq _ IH]; intros w Hpresent.
  - done.
  - cbn [run foldl]. destruct (step_frame w rq id Hrq Hpresent) as [Ha Hs].
    destruct (IH (step w rq)) as [Ha' Hs'].
    + apply dec_stable. rewrite <- audio_rows_for_nil, Ha, audio_rows_for_nil. tauto.
    + unfold run in *. by rewrite Ha', Hs'.
Qed.

(** The order of starts, from the model to the tables. *)
Lemma starts_segment_row_of (id : string) (segs : list whisper_segment) :
  s_start <$> (segment_row_of id <$> segs) = ws_start <$> segs.
Proof. rewrite <- list_fmap_compose. reflexivity. Qed.

Lemma starts_ordered_step (w : world) (rq : request) :
  model_ordered → referential_integrity (db_of w) →
  starts_ordered (db_of w) → starts_ordered (db_of (step w rq)).
Proof.
  intros Hmodel Href Hord id.
  destruct (step_tables w rq)
    as [->|[(random & file & f & path & language & result & -> & Hfresh & Hres & ->)
           |(id' & -> & ->)]].
  - apply Hord.
  - rewrite segment_rows_for_insert. case_decide as Hid.
    + subst id. rewrite segment_rows_for_absent by done. cbn [app].
      rewrite starts_segment_row_of. by eapply Hmodel.
    + rewrite app_nil_r. apply Hord.
  - rewrite segment_rows_for_delete. case_decide; [reflexivity|apply Hord].
Qed.

Lemma reachable_starts_ordered (w : world) :
  model_ordered → reachable w → starts_ordered (db_of w).
Proof.
  intros Hmodel. induction 1 as [fs0 w Hstart|w rq Hw IH|w w' Hw IH Hstart|w path _ IH].
  - apply startup_returned in Hstart as [-> _]. intros id. reflexivity.
  - apply starts_ordered_step; [done| |done].
    by destruct (reachable_consistent w Hw) as [_ []].
  - apply startup_returned in Hstart as [-> _].
    destruct (reachable_consistent w Hw) as [-> _]. exact IH.
  - exact IH.
Qed.

(** Under the primary key, the audio row of an id is unique. *)
Lemma primary_key_unique (rows : list audio_row) (r r' : audio_row) :
  NoDup (a_id <$> rows) → r ∈ rows → r' ∈ rows → a_id r = a_id r' → r = r'.
Proof.
  induction rows as [|x rows IH]; intros Hnd Hr Hr' Hid.
  - by apply not_elem_of_nil in Hr.
  - rewrite fmap_cons in Hnd. apply NoDup_cons in Hnd as [Hx Hnd].
    apply elem_of_cons in Hr as [->|Hr]; apply elem_of_cons in Hr' as [->|Hr'].
    + done.
    + destruct Hx. rewrite Hid. by apply list_elem_of_fmap_2.
    + destruct Hx. rewrite <- Hid. by apply list_elem_of_fmap_2.
    + by apply IH.
Qed.

End Frames.

(* ===================================================================== *)
(** ** Properties of the service *)
(* ===================================================================== *)

Section Properties.
Context `{Collaborators}.

(** [GET /audio_data/{id}] on an id without audio row: [fetchone()] is [None]
    and subscripting it raises. *)
Lemma audio_data_absent (w : world) (id : string) :
  ¬ present id (db_of w) →
  (handle (GET_audio_data id) w).1 = Raised TypeError.
Proof.
  intros Hno%audio_rows_for_nil. cbn [handle].
  by rewrite as_json_eq, audio_data_eq, Hno.
Qed.

(** [GET /audio_data/{id}] on a present id: the stored name of its row and
    its segment rows in table order. *)
Lemma audio_data_present (w : world) (id : string) :
  present id (db_of w) →
  ∃ r, r ∈ audio (db_of w) ∧ a_id r = id ∧
       (handle (GET_audio_data id) w).1 =
       Returned (JSON (detail (a_filename r)
                         (row_item <$> segment_rows_for id (db_of w)))).
Proof.
  intros Hp. cbn [handle]. rewrite as_json_eq, audio_data_eq.
  destruct (audio_rows_for id (db_of w)) as [|r rest] eqn:Hrows.
  - by apply audio_rows_for_nil in Hrows.
  - apply audio_rows_for_head in Hrows as [Hid Hr]. by exists r.
Qed.

(** The state after an upload that succeeded. *)
Lemma transcribe_returned (w : world) (random : N) (file : UploadFile) body w1 :
  let audio_id := uuid_str (uuid4 random) in
  let filename := audio_id +:+ "_" +:+ upload_filename file in
  let path := os_path_join UPLOAD_DIR filename in
  transcribe random file w = (Returned body, w1) →
  ∃ language result,
    config w !! "language" = Some language ∧
    model_transcribe (model w) (write_file path (upload_content file) (fs w)).2
      path language = Returned result ∧
    ¬ present audio_id (db_of w) ∧
    body = status "ok" ∧
    db_of w1 = insert_rows audio_id filename (upload_filename file)
                 (t_segments result) (db_of w) ∧
    durable (conn w1) = db_of w1 ∧
    (path ∉ dirs (fs w)) ∧
    dirs (fs w1) = dirs (fs w) ∧
    files (fs w1) = (<[path := upload_content file]> (files (fs w))).
Proof.
  intros audio_id filename path. rewrite transcribe_eq. cbv zeta.
  fold audio_id. fold filename. fold path.
  destruct (write_file path _ _) as [[[]|e] f1] eqn:Hwrite; [|discriminate].
  apply write_file_returned in Hwrite as (Hdir & Hdirs & Hfiles).
  destruct (config w !! "language") as [language|]; [|discriminate].
  cbn [snd].
  destruct (model_transcribe _ _ _ _) as [result|e] eqn:Hmodel; [|discriminate].
  case_bool_decide as Hpresent; [discriminate|].
  intros [= <- <-]. by exists language, result.
Qed.

(** C2. Round trip: after an upload for which the model returned a sequence
    of segments, and after any later requests that do not delete it,
    [GET /audio_data/{id}] returns exactly the [(start, end, text)] triples
    of that sequence, in the same order (so with the same count). *)
Theorem transcribe_audio_data_roundtrip (w : world) (random : N) (file : UploadFile)
    (language : pyval) (result : transcription) (w1 : world) (later : list request) :
  let audio_id := uuid_str (uuid4 random) in
  let path := os_path_join UPLOAD_DIR (audio_id +:+ "_" +:+ upload_filename file) in
  reachable w →
  config w !! "language" = Some language →
  model_transcribe (model w) (write_file path (upload_content file) (fs w)).2
    path language = Returned result →
  transcribe random file w = (Returned (status "ok"), w1) →
  Forall (λ rq, rq ≠ DELETE_delete audio_id) later →
  ∃ body triples,
    (handle (GET_audio_data audio_id) (run w1 later)).1 = Returned (JSON body) ∧
    body_segments body = Some triples ∧
    triples = whisper_triple <$> t_segments result ∧
    length triples = length (t_segments result).
Proof.
  intros audio_id path Hreach Hlang Hmodel Hrun Hlater.
  destruct (reachable_consistent w Hreach) as [_ [_ Href _ _]].
  apply transcribe_returned in Hrun
    as (language' & result' & Hlang' & Hmodel' & Hfresh & _ & Hdb & _).
  fold audio_id in Hfresh, Hdb. fold path in Hmodel'.
  rewrite Hlang in Hlang'. injection Hlang' as <-.
  assert (Returned result' = Returned result) as [= ->]
    by exact (eq_trans (eq_sym Hmodel') Hmodel).
  assert (present audio_id (db_of w1)) as Hpresent.
  { rewrite Hdb. apply present_insert. by left. }
  destruct (run_frame w1 later audio_id Hlater Hpresent) as [Ha Hs].
  assert (present audio_id (db_of (run w1 later))) as Hpresent'.
  { apply dec_stable. rewrite <- audio_rows_for_nil, Ha, audio_rows_for_nil. tauto. }
  destruct (audio_data_present _ _ Hpresent') as (r & _ & _ & ->).
  eexists _, _. split; [reflexivity|]. rewrite body_segments_detail.
  split; [reflexivity|].
  rewrite Hs, Hdb, segment_rows_for_insert, decide_True by done.
  rewrite segment_rows_for_absent by done. cbn [app].
  rewrite row_triple_segment_row_of. by rewrite length_fmap.
Qed.


(** C4. Upload, then list: after a [POST /transcribe] that succeeded for a
    file named [N], under an id that was not in the table before,
    [GET /library] holds the new id paired with [N]; the [audio_url] of
    [GET /audio_data/{id}] is ["/audio/"] followed by the stored name
    [{id}_{N}]; and the uploaded bytes are on disk under that name in the
    uploads directory. *)
Theorem transcribe_then_library (w : world) (random : N) (file : UploadFile)
    (body : pyval) (w1 : world) :
  let audio_id := uuid_str (uuid4 random) in
  let stored := audio_id +:+ "_" +:+ upload_filename file in
  transcribe random file w = (Returned body, w1) →
  ¬ present audio_id (db_of w) ∧
  (∃ items, (handle GET_library w1).1 = Returned (JSON (PyList items)) ∧
            library_item audio_id (upload_filename file) ∈ items) ∧
  (∃ r, audio_rows_for audio_id (db_of w1) = [r] ∧ a_filename r = stored) ∧
  (∃ detail_body,
     (handle (GET_audio_data audio_id) w1).1 = Returned (JSON detail_body) ∧
     body_audio_url detail_body = Some ("/audio/" +:+ stored)) ∧
  files (fs w1) !! os_path_join UPLOAD_DIR stored = Some (upload_content file).
Proof.
  intros audio_id stored Hrun.
  apply transcribe_returned in Hrun
    as (language & result & _ & _ & Hfresh & _ & Hdb & _ & _ & _ & Hfiles).
  fold audio_id in Hfresh, Hdb. fold stored in Hdb, Hfiles.
  assert (audio_rows_for audio_id (db_of w1) =
          [{| a_id := audio_id; a_filename := stored;
              a_original_name := upload_filename file |}]) as Hrows.
  { rewrite Hdb, audio_rows_for_insert, decide_True by done.
    apply audio_rows_for_nil in Hfresh. by rewrite Hfresh. }
  split; [exact Hfresh|]. split; [|split; [|split]].
  - eexists. cbn [handle]. rewrite as_json_eq, library_eq. split; [reflexivity|].
    rewrite Hdb. unfold insert_rows. cbn [audio]. rewrite fmap_app.
    apply elem_of_app. right. by apply list_elem_of_singleton.
  - by eexists.
  - eexists. cbn [handle]. rewrite as_json_eq, audio_data_eq, Hrows.
    split; [reflexivity|]. apply body_audio_url_detail.
  - rewrite Hfiles. apply lookup_insert_eq.
Qed.

(** C5. Abort on save failure: when writing the uploaded bytes raises,
    [transcribe] raises the same exception (the request ends in a 500) and the
    connection is as before: no audio row, no segment row, nothing committed. *)
Theorem transcribe_save_failure (w : world) (random : N) (file : UploadFile)
    (e : exn) (f1 : filesystem) :
  let audio_id := uuid_str (uuid4 random) in
  let path := os_path_join UPLOAD_DIR (audio_id +:+ "_" +:+ upload_filename file) in
  write_file path (upload_content file) (fs w) = (Raised e, f1) →
  (handle (POST_transcribe random file) w).1 = Raised e ∧
  status_code (handle (POST_transcribe random file) w).1 = 500 ∧
  conn (step w (POST_transcribe random file)) = conn w ∧
  db_of (step w (POST_transcribe random file)) = db_of w ∧
  durable (conn (step w (POST_transcribe random file))) = durable (conn w).
Proof.
  intros audio_id path Hwrite. unfold step, db_of. cbn [handle].
  rewrite as_json_eq, transcribe_eq. cbv zeta.
  fold audio_id. fold path. rewrite Hwrite. done.
Qed.

Lemma reachable_referential_integrity (w : world) :
  reachable w →
  referential_integrity (db_of w) ∧ referential_integrity (durable (conn w)).
Proof.
  intros [Hcommit [_ Href _ _]]%reachable_consistent. by rewrite Hcommit.
Qed.

(** C9. Referential integrity: in every state the service reaches, and so
    after every further request ([/transcribe], [/delete] or a read, whether
    its handler returns or raises), each row of [segments] has an [audio_id]
    for which [audio] has a row; this holds of the tables the connection sees
    and of the tables the last commit left. *)
Theorem referential_integrity_invariant (w : world) :
  reachable w →
  referential_integrity (db_of w) ∧
  referential_integrity (durable (conn w)) ∧
  ∀ rq, referential_integrity (db_of (step w rq)) ∧
        referential_integrity (durable (conn (step w rq))).
Proof.
  intros Hreach. destruct (reachable_referential_integrity w Hreach) as [Hdb Hdur].
  split; [exact Hdb|]. split; [exact Hdur|].
  intros rq. by apply reachable_referential_integrity, reachable_step.
Qed.

(** C6. Order of starts: when the model hands back its segments in
    non-decreasing order of [start], then in every state the service reaches
    the segments that [GET /audio_data/{id}] returns come in non-decreasing
    order of [start]. *)
Theorem audio_data_starts_non_decreasing (w : world) (id : string) (body : pyval) :
  model_ordered → reachable w →
  (handle (GET_audio_data id) w).1 = Returned (JSON body) →
  ∃ triples, body_segments body = Some triples ∧
             non_decreasing (triples.*1.*1) = true.
Proof.
  intros Hmodel Hreach. cbn [handle]. rewrite as_json_eq, audio_data_eq.
  destruct (audio_rows_for id (db_of w)) as [|r rest]; [discriminate|].
  intros [= <-]. eexists. split; [apply body_segments_detail|].
  rewrite <- !list_fmap_compose.
  exact (reachable_starts_ordered w Hmodel Hreach id).
Qed.


(** [DELETE /delete/{id}] in a consistent state. *)
Lemma delete_audio_consistent (w : world) (id : string) :
  consistent w →
  delete_audio id w =
  match audio_rows_for id (db_of w) with
  | [] => (Returned (status "not_found"), with_db (db_of w) w)
  | r :: _ =>
      (Returned (status "deleted"),
       committed (with_db (delete_rows id (db_of w))
                    (with_fs (remove_file (asset_path r) (fs w)) w)))
  end.
Proof.
  intros [_ Hok]. destruct (audio_rows_for id (db_of w)) as [|r rest] eqn:Hrows.
  - by apply delete_audio_absent.
  - apply (delete_audio_present _ _ _ _ Hrows).
    apply Hok. by apply audio_rows_for_head in Hrows as [_ ?].
Qed.

Lemma remove_file_missing (path : string) (f : filesystem) :
  files f !! path = None → remove_file path f = f.
Proof.
  intros Hnone. unfold remove_file. rewrite delete_id by done. by destruct f.
Qed.

(** C3. Delete never errors on absence.  In every state the service reaches,
    [DELETE /delete/{id}] returns [{"status": "deleted"}] for a present id and
    [{"status": "not_found"}] for an absent one, with status 200 either way;
    a second delete of the same id returns ["not_found"] and changes neither
    the tables nor the files; and when the asset of a present id is already
    missing from the disk the delete still returns ["deleted"] and leaves the
    file system as it is. *)
Theorem delete_audio_never_errors_on_absence (w : world) (id : string) :
  reachable w →
  let outcome1 := (handle (DELETE_delete id) w).1 in
  let w1 := step w (DELETE_delete id) in
  (present id (db_of w) → outcome1 = Returned (JSON (status "deleted"))) ∧
  (¬ present id (db_of w) → outcome1 = Returned (JSON (status "not_found"))) ∧
  status_code outcome1 = 200 ∧
  (handle (DELETE_delete id) w1).1 = Returned (JSON (status "not_found")) ∧
  status_code (handle (DELETE_delete id) w1).1 = 200 ∧
  db_of (step w1 (DELETE_delete id)) = db_of w1 ∧
  fs (step w1 (DELETE_delete id)) = fs w1 ∧
  (∀ r, r ∈ audio_rows_for id (db_of w) → files (fs w) !! asset_path r = None →
        outcome1 = Returned (JSON (status "deleted")) ∧ fs w1 = fs w).
Proof.
  intros Hreach outcome1 w1.
  pose proof (reachable_consistent w Hreach) as Hcons.
  pose proof (delete_audio_consistent w id Hcons) as Hfirst.
  assert (outcome1 = json_outcome (delete_audio id w).1 ∧ w1 = (delete_audio id w).2)
    as [Hout Hw1].
  { subst outcome1 w1. unfold step. cbn [handle]. by rewrite as_json_eq. }
  clearbody outcome1 w1. subst outcome1 w1.
  assert (¬ present id (db_of (delete_audio id w).2)) as Hgone.
  { rewrite Hfirst. destruct (audio_rows_for id (db_of w)) as [|r rest] eqn:Hrows.
    - by apply audio_rows_for_nil in Hrows.
    - change (¬ present id (delete_rows id (db_of w))).
      rewrite present_delete. tauto. }
  pose proof (delete_audio_absent id _ (proj2 (audio_rows_for_nil _ _) Hgone)) as Hsecond.
  unfold step. cbn [handle]. rewrite !as_json_eq, Hsecond. cbn [fst snd json_outcome].
  destruct Hcons as [_ [Hkey _ _ _]].
  destruct (audio_rows_for id (db_of w)) as [|r rest] eqn:Hrows.
  - apply audio_rows_for_nil in Hrows as Hno. rewrite Hfirst. cbn.
    split; [intros Hp; by destruct Hno|]. do 6 (split; [done|]).
    intros r Hr. by apply not_elem_of_nil in Hr.
  - assert (present id (db_of w)) as Hp
      by (apply dec_stable; rewrite <- audio_rows_for_nil; congruence).
    rewrite Hfirst. cbn.
    split; [done|]. split; [by intros []|]. do 5 (split; [done|]).
    intros r0 Hr0 Hmissing. split; [done|].
    pose proof (audio_rows_for_head _ _ _ _ Hrows) as [Hid Hr].
    rewrite <- Hrows in Hr0. apply audio_rows_for_elem in Hr0 as [Hid0 Hr0].
    assert (r0 = r) as -> by (eapply primary_key_unique; eauto; congruence).
    by apply remove_file_missing.
Qed.

(** C7. Frame of a delete.  In every state the service reaches, deleting
    [id] leaves every other id with the audio row, the segment rows, the
    asset on disk and the [GET /audio_data] answer it had; the rows of [id]
    are gone, its asset is gone, and no other path of the file system
    changes. *)
Theorem delete_audio_frame (w : world) (id other : string) :
  reachable w → other ≠ id →
  let w1 := step w (DELETE_delete id) in
  audio_rows_for other (db_of w1) = audio_rows_for other (db_of w) ∧
  segment_rows_for other (db_of w1) = segment_rows_for other (db_of w) ∧
  (∀ r, r ∈ audio_rows_for other (db_of w) →
        files (fs w1) !! asset_path r = files (fs w) !! asset_path r) ∧
  (handle (GET_audio_data other) w1).1 = (handle (GET_audio_data other) w).1 ∧
  (¬ present id (db_of w1)) ∧
  segment_rows_for id (db_of w1) = [] ∧
  (∀ r, r ∈ audio_rows_for id (db_of w) → files (fs w1) !! asset_path r = None) ∧
  (∀ path, (∀ r, r ∈ audio_rows_for id (db_of w) → path ≠ asset_path r) →
           files (fs w1) !! path = files (fs w) !! path) ∧
  dirs (fs w1) = dirs (fs w).
Proof.
  intros Hreach Hother w1.
  pose proof (reachable_consistent w Hreach) as Hcons.
  destruct (Hcons) as [_ [Hkey Href Hnames Hassets]].
  assert (db_of w1 = (if decide (present id (db_of w))
                      then delete_rows id (db_of w) else db_of w) ∧
          fs w1 = match audio_rows_for id (db_of w) with
                  | [] => fs w
                  | r :: _ => remove_file (asset_path r) (fs w)
                  end) as [Hdb Hfs].
  { subst w1. unfold step. cbn [handle].
    rewrite as_json_eq, delete_audio_consistent by done. cbn [snd].
    destruct (audio_rows_for id (db_of w)) as [|r rest] eqn:Hrows.
    - apply audio_rows_for_nil in Hrows. by rewrite decide_False.
    - rewrite decide_True; [done|].
      apply dec_stable. rewrite <- audio_rows_for_nil. congruence. }
  assert (audio_rows_for other (db_of w1) = audio_rows_for other (db_of w)) as Ha.
  { rewrite Hdb. case_decide; [|done].
    by rewrite audio_rows_for_delete, decide_False. }
  assert (segment_rows_for other (db_of w1) = segment_rows_for other (db_of w)) as Hs.
  { rewrite Hdb. case_decide; [|done].
    by rewrite segment_rows_for_delete, decide_False. }
  assert (∀ path, (∀ r, r ∈ audio_rows_for id (db_of w) → path ≠ asset_path r) →
                  files (fs w1) !! path = files (fs w) !! path) as Hframe.
  { intros path Hpath. rewrite Hfs.
    destruct (audio_rows_for id (db_of w)) as [|r rest]; [done|].
    cbn. apply lookup_delete_ne. apply not_eq_sym, Hpath. left. }
  split; [exact Ha|]. split; [exact Hs|].
  split; [|split; [|split; [|split; [|split; [|split]]]]].
  - intros r [Hid Hr]%audio_rows_for_elem. apply Hframe.
    intros r' [Hid' Hr']%audio_rows_for_elem Heq.
    apply os_path_join_inj in Heq.
    destruct (Hnames r Hr) as [Hlen Hname], (Hnames r' Hr') as [Hlen' Hname'].
    rewrite Hname, Hname' in Heq. apply stored_name_inj in Heq; [|done..].
    congruence.
  - cbn [handle]. rewrite !as_json_eq, !audio_data_eq, Ha, Hs.
    by destruct (audio_rows_for other (db_of w)).
  - rewrite Hdb. case_decide; [|done]. rewrite present_delete. tauto.
  - rewrite Hdb. case_decide as Hp.
    + by rewrite segment_rows_for_delete, decide_True.
    + by apply segment_rows_for_absent.
  - intros r Hr. rewrite Hfs.
    destruct (audio_rows_for id (db_of w)) as [|r' rest] eqn:Hrows;
      [by apply not_elem_of_nil in Hr|].
    pose proof (audio_rows_for_head _ _ _ _ Hrows) as [Hid' Hr'].
    rewrite <- Hrows in Hr. apply audio_rows_for_elem in Hr as [Hid Hr].
    assert (r = r') as -> by (eapply primary_key_unique; eauto; congruence).
    cbn. apply lookup_delete_eq.
  - exact Hframe.
  - subst w1. apply step_dirs.
Qed.


(** C8. Configuration loading.  When [config.json] exists, [load_config]
    returns the defaults overridden key by key with the keys the file holds (a
    file that does not read as a JSON object holds none) and writes nothing;
    the defaults are the three keys [language], [model_size] and [device].
    When it does not exist, [load_config] returns the defaults and creates the
    file with the serialised defaults as its content. *)
Theorem load_config_merges_defaults (f : filesystem) :
  dom default_config = {[ "language"; "model_size"; "device" ]} ∧
  ((os_path_exists CONFIG_PATH f).1 = Returned true →
   ∃ merged,
     load_config f = (Returned merged, f) ∧
     ∀ key, merged !! key = match config_file_keys f !! key with
                            | Some v => Some v
                            | None => default_config !! key
                            end) ∧
  ((os_path_exists CONFIG_PATH f).1 = Returned false →
   ∃ f1,
     load_config f = (Returned default_config, f1) ∧
     dirs f1 = dirs f ∧
     files f1 = (<[CONFIG_PATH := json_dump (PyDict default_config)]> (files f))).
Proof.
  split; [|split].
  - unfold default_config. rewrite !dom_insert_L, dom_singleton_L. set_solver.
  - unfold os_path_exists. cbn [fst]. intros [= Hexists].
    exists (config_file_keys f ∪ default_config).
    rewrite load_config_eq, Hexists. split; [reflexivity|].
    intros key. rewrite lookup_union. by destruct (config_file_keys f !! key), (default_config !! key).
  - unfold os_path_exists. cbn [fst]. intros [= Hexists].
    eexists. rewrite load_config_eq, Hexists. done.
Qed.



End Properties.

(* ===================================================================== *)
(** ** The properties on the test double *)
(* ===================================================================== *)

Lemma reachable_booted : reachable Demo.booted.
Proof. apply (reachable_startup Demo.blank_disk). vm_compute. reflexivity. Qed.

Lemma reachable_one_upload : reachable Demo.one_upload.
Proof. apply reachable_step, reachable_booted. Qed.

Lemma reachable_two_uploads : reachable Demo.two_uploads.
Proof. apply reachable_step, reachable_one_upload. Qed.

Lemma transcribe_audio_data_roundtrip_witness :
  ∃ body triples,
    (handle (GET_audio_data Demo.id2)
       (run Demo.two_uploads [GET_library; DELETE_delete Demo.id1])).1
      = Returned (JSON body) ∧
    body_segments body = Some triples ∧
    triples = whisper_triple <$> t_segments Demo.two_segments ∧
    length triples = length (t_segments Demo.two_segments).
Proof.
  apply (transcribe_audio_data_roundtrip Demo.one_upload 2 Demo.lesson2 (PyStr "ja")).
  - exact reachable_one_upload.
  - vm_compute. reflexivity.
  - vm_compute. reflexivity.
  - vm_compute. reflexivity.
  - repeat constructor; discriminate.
Defined.


Lemma transcribe_then_library_witness :
  ∃ items, (handle GET_library Demo.two_uploads).1 = Returned (JSON (PyList items)) ∧
           library_item Demo.id2 "lesson2.mp3" ∈ items.
Proof.
  refine (proj1 (proj2 (transcribe_then_library Demo.one_upload 2 Demo.lesson2
                          (status "ok") Demo.two_uploads _))).
  vm_compute. reflexivity.
Defined.

Lemma transcribe_save_failure_witness :
  (handle (POST_transcribe 3 Demo.nested) Demo.two_uploads).1 =
    Raised (FileNotFoundError
              (os_path_join UPLOAD_DIR (uuid_str (uuid4 3) +:+ "_album/track.mp3"))) ∧
  db_of (step Demo.two_uploads (POST_transcribe 3 Demo.nested)) = db_of Demo.two_uploads.
Proof.
  pose proof (transcribe_save_failure Demo.two_uploads 3 Demo.nested
                (FileNotFoundError
                   (os_path_join UPLOAD_DIR (uuid_str (uuid4 3) +:+ "_album/track.mp3")))
                (fs Demo.two_uploads)) as Hfail.
  cbv zeta in Hfail.
  destruct Hfail as (Hraised & _ & _ & Hdb & _); [vm_compute; reflexivity|].
  exact (conj Hraised Hdb).
Defined.

Lemma referential_integrity_invariant_witness :
  referential_integrity (db_of Demo.two_uploads) ∧
  referential_integrity (db_of (step Demo.two_uploads (DELETE_delete Demo.id1))).
Proof.
  destruct (referential_integrity_invariant Demo.two_uploads reachable_two_uploads)
    as (Hnow & _ & Hnext).
  exact (conj Hnow (proj1 (Hnext (DELETE_delete Demo.id1)))).
Defined.

Lemma demo_model_ordered : @model_ordered Demo.floats Demo.collaborators.
Proof.
  intros m f path language result. cbn. unfold Demo.run_model.
  destruct (files f !! path) as [[|c content]|]; [discriminate| |discriminate].
  intros [= <-]. reflexivity.
Qed.

Lemma audio_data_starts_non_decreasing_witness :
  ∃ triples,
    body_segments (detail (Demo.id1 +:+ "_lesson1.mp3")
                     (whisper_item <$> t_segments Demo.two_segments)) = Some triples ∧
    non_decreasing (triples.*1.*1) = true.
Proof.
  apply (audio_data_starts_non_decreasing Demo.two_uploads Demo.id1).
  - exact demo_model_ordered.
  - exact reachable_two_uploads.
  - vm_compute. reflexivity.
Defined.


Lemma present_id1_two_uploads : present Demo.id1 (db_of Demo.two_uploads).
Proof. apply (bool_decide_unpack _). by vm_compute. Qed.

Lemma reachable_asset_lost : reachable Demo.asset_lost.
Proof. apply reachable_file_lost, reachable_one_upload. Qed.

Lemma delete_audio_never_errors_on_absence_witness :
  (handle (DELETE_delete Demo.id1) Demo.two_uploads).1
    = Returned (JSON (status "deleted")) ∧
  (handle (DELETE_delete Demo.id1) (step Demo.two_uploads (DELETE_delete Demo.id1))).1
    = Returned (JSON (status "not_found")) ∧
  status_code (handle (DELETE_delete Demo.id1) Demo.asset_lost).1 = 200.
Proof.
  destruct (delete_audio_never_errors_on_absence Demo.two_uploads Demo.id1
              reachable_two_uploads) as (Hpresent & _ & _ & Hsecond & _).
  destruct (delete_audio_never_errors_on_absence Demo.asset_lost Demo.id1
              reachable_asset_lost) as (_ & _ & Hstatus & _).
  exact (conj (Hpresent present_id1_two_uploads) (conj Hsecond Hstatus)).
Defined.

Lemma delete_audio_frame_witness :
  segment_rows_for Demo.id2 (db_of (step Demo.two_uploads (DELETE_delete Demo.id1)))
    = segment_rows_for Demo.id2 (db_of Demo.two_uploads) ∧
  (handle (GET_audio_data Demo.id2) (step Demo.two_uploads (DELETE_delete Demo.id1))).1
    = (handle (GET_audio_data Demo.id2) Demo.two_uploads).1.
Proof.
  assert (Demo.id2 ≠ Demo.id1) as Hne by (by vm_compute).
  destruct (delete_audio_frame Demo.two_uploads Demo.id1 Demo.id2
              reachable_two_uploads Hne) as (_ & Hsegments & _ & Hdata & _).
  exact (conj Hsegments Hdata).
Defined.


Lemma load_config_merges_defaults_witness :
  ∃ merged : gmap string (@pyval Demo.floats),
    @load_config Demo.floats Demo.collaborators Demo.configured_disk
      = (Returned merged, Demo.configured_disk) ∧
    merged !! "language" = Some (PyStr "en") ∧
    merged !! "device" = Some (PyStr "cpu").
Proof.
  destruct (proj1 (proj2 (@load_config_merges_defaults Demo.floats Demo.collaborators
                            Demo.configured_disk)))
    as (merged & Hload & Hkeys); [by vm_compute|].
  exists merged. split; [exact Hload|].
  split; rewrite Hkeys; by vm_compute.
Defined.

(** C1. [GET /audio_data/{id}] for an id that is not in the store: the
    handler raises [TypeError], which the framework answers with status 500,
    where the specification asks for a not-found (404) answer. *)
Theorem audio_data_unknown_id_raises_type_error :
  ¬ present "no-such-id" (db_of Demo.two_uploads) ∧
  (handle (GET_audio_data "no-such-id") Demo.two_uploads).1 = Raised TypeError ∧
  status_code (handle (GET_audio_data "no-such-id") Demo.two_uploads).1 = 500 ∧
  (handle (DELETE_delete "no-such-id") Demo.two_uploads).1
    = Returned (JSON (status "not_found")).
Proof.
  split; [|by vm_compute].
  apply (bool_decide_eq_false_1 _). by vm_compute.
Qed.

(** The examples of the specification, run on the test double. *)
Example startup_on_blank_disk :
  startup Demo.blank_disk empty_database = Returned Demo.booted.
Proof. by vm_compute. Qed.

Example audio_data_after_upload :
  (handle (GET_audio_data Demo.id1) Demo.one_upload).1 =
  Returned (JSON (detail "00000000-0000-4000-8000-000000000001_lesson1.mp3"
                    [@segment_item Demo.floats Demo.d0_0 Demo.d2_5 "konnichiwa";
                     @segment_item Demo.floats Demo.d2_5 Demo.d5_0 "genki desu ka"])).
Proof. by vm_compute. Qed.

Example delete_with_missing_asset :
  files (fs Demo.asset_lost) !! os_path_join UPLOAD_DIR (Demo.id1 +:+ "_lesson1.mp3")
    = None ∧
  (handle (DELETE_delete Demo.id1) Demo.asset_lost).1
    = Returned (JSON (status "deleted")).
Proof. by vm_compute. Qed.

Example transcribe_with_a_used_uuid :
  (handle (POST_transcribe 1 Demo.lesson2) Demo.one_upload).1 = Raised IntegrityError.
Proof. by vm_compute. Qed.

Example load_config_of_a_json_array :
  let disk := {| dirs := ∅; files := {[ CONFIG_PATH := "[]" ]} |} in
  @load_config Demo.floats Demo.collaborators disk = (Returned default_config, disk).
Proof. by vm_compute. Qed.

Example load_config_of_garbage :
  let disk := {| dirs := ∅; files := {[ CONFIG_PATH := "language = en" ]} |} in
  @load_config Demo.floats Demo.collaborators disk = (Returned default_config, disk).
Proof. by vm_compute. Qed.

Example uuid_str_example :
  uuid_str (uuid4 0) = "00000000-0000-4000-8000-000000000000".
Proof. reflexivity. Qed.

Example uuid_str_example_ones :
  uuid_str (uuid4 (2 ^ 128 - 1)) = "ffffffff-ffff-4fff-bfff-ffffffffffff".
Proof. vm_compute. reflexivity. Qed.

Example os_path_join_example :
  os_path_join UPLOAD_DIR "x.mp3" = "uploads/x.mp3".
Proof. reflexivity. Qed.

Example resolve_example :
  resolve "uploads/./a/../b.mp3" = ["uploads"; "b.mp3"].
Proof. reflexivity. Qed.

Example resolve_parent :
  os_path_join UPLOAD_DIR ".." = "uploads/.." ∧ resolve "uploads/.." = [].
Proof. split; reflexivity. Qed.

(* ===================================================================== *)
(** ** More on the service: reads, failures, start-up *)
(* ===================================================================== *)

Section ServiceProperties.
Context `{Collaborators}.

(** No handler touches the module globals [config] and [model]. *)
Lemma step_config (w : world) (rq : request) :
  config (step w rq) = config w ∧ model (step w rq) = model w.
Proof.
  unfold step. destruct rq as [random file| |id|id|filename]; cbn [handle].
  - rewrite as_json_eq. cbn [snd]. rewrite transcribe_eq. cbv zeta.
    destruct (write_file _ _ _) as [[[]|e] f1]; [|done].
    destruct (config w !! "language"); [|done].
    destruct (model_transcribe _ _ _ _); [|done].
    by case_bool_decide.
  - by rewrite as_json_eq, library_eq.
  - rewrite as_json_eq, audio_data_eq. by destruct (audio_rows_for _ _).
  - rewrite as_json_eq. cbn [snd].
    unfold delete_audio, mbind, M_bind, on_conn, on_fs. cbn.
    destruct (filter _ _) as [|r rest]; cbn; [done|].
    case_bool_decide; cbn; [|done].
    unfold os_remove. case_bool_decide; cbn; [done|].
    by destruct (files (fs w) !! _).
  - by rewrite get_audio_sent.
Qed.

Lemma lookup_union_default (d : gmap string pyval) (key : string) :
  is_Some (default_config !! key) → is_Some ((d ∪ default_config) !! key).
Proof.
  intros [v Hv]. rewrite lookup_union. destruct (d !! key); rewrite Hv; by eexists.
Qed.

Lemma default_config_keys : has_default_keys default_config.
Proof. repeat split; by eexists. Qed.

Lemma load_config_returns (f : filesystem) :
  ∃ c f1, load_config f = (Returned c, f1) ∧ has_default_keys c ∧ dirs f1 = dirs f.
Proof.
  rewrite load_config_eq. case_bool_decide.
  - eexists _, _. split; [reflexivity|]. split; [|reflexivity].
    destruct default_config_keys as (Hl & Hm & Hd).
    repeat split; by apply lookup_union_default.
  - eexists _, _. split; [reflexivity|]. split; [apply default_config_keys|reflexivity].
Qed.

(** The environment a start-up that succeeds leaves. *)
Lemma startup_environment (fs0 : filesystem) (db0 : database) (w : world) :
  startup fs0 db0 = Returned w →
  UPLOAD_DIR ∈ dirs (fs w) ∧ has_default_keys (config w).
Proof.
  intros Hstart.
  pose proof (startup_returned _ _ _ Hstart) as (_ & _ & Hdirs & Hcfg).
  destruct (load_config_returns fs0) as (c & f1 & Hload & Hkeys & _).
  rewrite Hload in Hcfg. injection Hcfg as <-.
  split; [|done]. rewrite Hdirs. apply elem_of_union. left. by apply elem_of_singleton.
Qed.

(** X2. Start-up leaves the uploads directory in place, a configuration with
    the three keys, a configuration file on disk, the tables of [app.db] as
    they were, and nothing uncommitted. *)
Theorem startup_postconditions (fs0 : filesystem) (db0 : database) (w : world) :
  startup fs0 db0 = Returned w →
  UPLOAD_DIR ∈ dirs (fs w) ∧
  has_default_keys (config w) ∧
  (os_path_exists CONFIG_PATH (fs w)).1 = Returned true ∧
  db_of w = db0 ∧ durable (conn w) = db0 ∧ cursor_rows (conn w) = [].
Proof.
  intros Hstart.
  destruct (startup_environment _ _ _ Hstart) as [Hup Hkeys].
  pose proof (startup_returned _ _ _ Hstart) as (Hdb & Hdur & _ & _).
  split; [done|]. split; [done|]. split; [|split; [done|split; [done|]]].
  - clear Hup Hkeys Hdb Hdur. revert Hstart. unfold startup, mbind, M_bind.
    destruct (load_config fs0) as [[c|e] f1] eqn:Hload; [|discriminate].
    unfold os_makedirs_exist_ok. destruct (files f1 !! UPLOAD_DIR) eqn:Hfile; [discriminate|].
    unfold dict_getitem. destruct (c !! "model_size") as [size|]; [|discriminate].
    destruct (c !! "device") as [device|]; [|discriminate].
    unfold call. cbn. destruct (whisper_load_model size device); [|discriminate].
    intros [= <-]. cbn. f_equal. apply bool_decide_eq_true_2.
    revert Hload. rewrite load_config_eq. case_bool_decide as Hex.
    + intros [= _ <-]. destruct Hex as [Hd|Hf]; [left; set_solver|by right].
    + intros [= _ <-]. right. cbn. rewrite lookup_insert_eq. by eexists.
  - revert Hstart. unfold startup, mbind, M_bind.
    destruct (load_config fs0) as [[c|e] f1]; [|discriminate].
    unfold os_makedirs_exist_ok. destruct (files f1 !! UPLOAD_DIR); [discriminate|].
    unfold dict_getitem. destruct (c !! "model_size") as [size|]; [|discriminate].
    destruct (c !! "device") as [device|]; [|discriminate].
    unfold call. cbn. destruct (whisper_load_model size device); [|discriminate].
    by intros [= <-].
Qed.

(** X3. Start-up stops with [FileExistsError] when [uploads] is a regular
    file: [os.makedirs(..., exist_ok=True)] accepts an existing directory
    only. *)
Theorem startup_uploads_is_a_file (fs0 : filesystem) (db0 : database) (content : string) :
  files fs0 !! UPLOAD_DIR = Some content →
  startup fs0 db0 = Raised (FileExistsError UPLOAD_DIR).
Proof.
  intros Hfile. unfold startup, mbind, M_bind. rewrite load_config_eq.
  case_bool_decide; unfold os_makedirs_exist_ok; cbn.
  - by rewrite Hfile.
  - rewrite lookup_insert_ne by done. by rewrite Hfile.
Qed.

(** In every state the service reaches the uploads directory exists and the
    configuration has its three keys. *)
Lemma reachable_environment (w : world) :
  reachable w → UPLOAD_DIR ∈ dirs (fs w) ∧ has_default_keys (config w).
Proof.
  induction 1 as [fs0 w Hstart|w rq _ IH|w w' _ IH Hstart|w path _ IH].
  - by apply startup_environment in Hstart.
  - rewrite step_dirs. by destruct (step_config w rq) as [-> _].
  - by apply startup_environment in Hstart.
  - exact IH.
Qed.

(** X4. The reads are reads: [GET /library], [GET /audio_data/{id}] and
    [GET /audio/{filename}] leave the tables, what is committed, the file
    system and the configuration as they were, whether the handler returns or
    raises. *)
Theorem reads_change_nothing (w : world) (rq : request) :
  is_read rq = true →
  db_of (step w rq) = db_of w ∧
  durable (conn (step w rq)) = durable (conn w) ∧
  fs (step w rq) = fs w ∧
  config (step w rq) = config w.
Proof.
  unfold step. destruct rq as [random file| |id|id|filename]; cbn [handle is_read];
    try discriminate; intros _.
  - by rewrite as_json_eq, library_eq.
  - rewrite as_json_eq, audio_data_eq. by destruct (audio_rows_for _ _).
  - by rewrite get_audio_sent.
Qed.

Lemma library_item_inj (id id' name name' : string) :
  library_item id name = library_item id' name' → id = id' ∧ name = name'.
Proof.
  intros Heq. split.
  - apply (f_equal item_id) in Heq. by injection Heq.
  - apply (f_equal (λ v, match v with
                         | PyDict d => d !! "original_name"
                         | _ => None
                         end)) in Heq.
    by injection Heq.
Qed.

Lemma library_item_elem (id name : string) (rows : list audio_row) :
  library_item id name ∈ row_library_item <$> rows ↔
  ∃ r, r ∈ rows ∧ a_id r = id ∧ a_original_name r = name.
Proof.
  rewrite list_elem_of_fmap. split.
  - intros (r & Heq & Hr). apply library_item_inj in Heq as [-> ->]. by exists r.
  - intros (r & Hr & <- & <-). by exists r.
Qed.

(** X5. [GET /library] never raises: it answers with one item per audio row,
    in table order (the empty list for an empty table), and an id is listed
    exactly when it is present; in a state the service reaches no id is listed
    twice. *)
Theorem library_lists_the_audio_table (w : world) :
  ∃ items,
    (handle GET_library w).1 = Returned (JSON (PyList items)) ∧
    items = row_library_item <$> audio (db_of w) ∧
    length items = length (audio (db_of w)) ∧
    (∀ id, present id (db_of w) ↔ ∃ name, library_item id name ∈ items) ∧
    (reachable w → NoDup (item_id <$> items)).
Proof.
  eexists. cbn [handle]. rewrite as_json_eq, library_eq. cbn [fst json_outcome].
  split; [reflexivity|]. split; [reflexivity|]. split; [by rewrite length_fmap|]. split.
  - intros id. unfold present. rewrite list_elem_of_fmap. split.
    + intros (r & -> & Hr). exists (a_original_name r).
      apply library_item_elem. by exists r.
    + intros (name & (r & Hr & <- & _)%library_item_elem). by exists r.
  - intros [_ [Hkey _ _ _]]%reachable_consistent.
    rewrite <- list_fmap_compose.
    replace (item_id ∘ row_library_item) with (Some ∘ a_id) by done.
    rewrite list_fmap_compose. apply NoDup_fmap_2; [|done]. by intros ?? [=].
Qed.

Lemma step_delete_gone (w : world) (id : string) :
  reachable w → ¬ present id (db_of (step w (DELETE_delete id))).
Proof.
  intros Hreach. pose proof (reachable_consistent w Hreach) as Hcons.
  unfold step. cbn [handle].
  rewrite as_json_eq, delete_audio_consistent by done. cbn [snd].
  destruct (audio_rows_for id (db_of w)) as [|r rest] eqn:Hrows.
  - by apply audio_rows_for_nil in Hrows.
  - change (¬ present id (delete_rows id (db_of w))).
    rewrite present_delete. tauto.
Qed.

(** X6. Delete, then read: in a state the service reaches, after
    [DELETE /delete/{id}] the library no longer lists [id], and
    [GET /audio_data/{id}] raises [TypeError] (status 500). *)
Theorem delete_then_reads (w : world) (id : string) :
  reachable w →
  let w1 := step w (DELETE_delete id) in
  (∃ items, (handle GET_library w1).1 = Returned (JSON (PyList items)) ∧
            ∀ name, library_item id name ∉ items) ∧
  (handle (GET_audio_data id) w1).1 = Raised TypeError ∧
  status_code (handle (GET_audio_data id) w1).1 = 500.
Proof.
  intros Hreach w1.
  pose proof (step_delete_gone w id Hreach) as Hgone. fold w1 in Hgone.
  split.
  - eexists. cbn [handle]. rewrite as_json_eq, library_eq. split; [reflexivity|].
    intros name (r & Hr & Hid & _)%library_item_elem.
    apply Hgone. unfold present. rewrite <- Hid. by apply list_elem_of_fmap_2.
  - rewrite (audio_data_absent _ _ Hgone). done.
Qed.

(** X7. An upload whose transcription fails leaves its asset behind: when the
    bytes were written and the model raises, [transcribe] raises the same
    exception, the tables and what is committed are as before, and the file
    stays on disk; in a state the service reaches, under an id that was not
    in the table, no audio row refers to that file. *)
Theorem transcribe_model_failure_orphans_asset (w : world) (random : N)
    (file : UploadFile) (language : pyval) (e : exn) (f1 : filesystem) :
  let audio_id := uuid_str (uuid4 random) in
  let stored := audio_id +:+ "_" +:+ upload_filename file in
  let path := os_path_join UPLOAD_DIR stored in
  write_file path (upload_content file) (fs w) = (Returned tt, f1) →
  config w !! "language" = Some language →
  model_transcribe (model w) f1 path language = Raised e →
  (handle (POST_transcribe random file) w).1 = Raised e ∧
  db_of (step w (POST_transcribe random file)) = db_of w ∧
  durable (conn (step w (POST_transcribe random file))) = durable (conn w) ∧
  files (fs (step w (POST_transcribe random file))) !! path
    = Some (upload_content file) ∧
  (reachable w → ¬ present audio_id (db_of w) →
   ∀ r, r ∈ audio (db_of (step w (POST_transcribe random file))) →
        asset_path r ≠ path).
Proof.
  intros audio_id stored path Hwrite Hlang Hmodel. unfold step. cbn [handle].
  rewrite as_json_eq, transcribe_eq. cbv zeta.
  fold audio_id. fold stored. fold path. rewrite Hwrite, Hlang, Hmodel.
  cbn [fst snd json_outcome].
  apply write_file_returned in Hwrite as (_ & _ & Hfiles).
  split; [done|]. split; [done|]. split; [done|]. split.
  - cbn. rewrite Hfiles. apply lookup_insert_eq.
  - intros [_ [_ _ Hnames _]]%reachable_consistent Hfresh r Hr Heq%os_path_join_inj.
    destruct (Hnames r Hr) as [Hlen Hname]. rewrite Hname in Heq.
    apply stored_name_inj in Heq; [|done|apply length_uuid_str].
    apply Hfresh. unfold present. fold audio_id. rewrite <- Heq.
    by apply list_elem_of_fmap_2.
Qed.

(** X8. An upload never adds to an id that exists: when the generated id is
    already in the [audio] table, [transcribe] raises and the tables and what
    is committed are as before; when the bytes were written and the model
    returned, the exception is [IntegrityError] and the bytes stay on disk. *)
Theorem transcribe_existing_id (w : world) (random : N) (file : UploadFile) :
  let audio_id := uuid_str (uuid4 random) in
  let path := os_path_join UPLOAD_DIR (audio_id +:+ "_" +:+ upload_filename file) in
  present audio_id (db_of w) →
  (∃ e, (handle (POST_transcribe random file) w).1 = Raised e) ∧
  db_of (step w (POST_transcribe random file)) = db_of w ∧
  durable (conn (step w (POST_transcribe random file))) = durable (conn w) ∧
  (∀ f1 language result,
     write_file path (upload_content file) (fs w) = (Returned tt, f1) →
     config w !! "language" = Some language →
     model_transcribe (model w) f1 path language = Returned result →
     (handle (POST_transcribe random file) w).1 = Raised IntegrityError ∧
     files (fs (step w (POST_transcribe random file))) !! path
       = Some (upload_content file)).
Proof.
  intros audio_id path Hpresent. unfold step. cbn [handle].
  rewrite as_json_eq, transcribe_eq. cbv zeta. fold audio_id. fold path.
  destruct (write_file path _ _) as [[[]|e] f1] eqn:Hwrite.
  2:{ split; [by eexists|]. split; [done|]. split; [done|]. by intros ??? [=]. }
  destruct (config w !! "language") as [language|].
  2:{ split; [by eexists|]. split; [done|]. split; [done|]. by intros ??? _ [=]. }
  destruct (model_transcribe _ _ _ _) as [result|e] eqn:Hmodel.
  2:{ split; [by eexists|]. split; [done|]. split; [done|].
      intros ??? [= <-] [= <-]. by rewrite Hmodel. }
  rewrite bool_decide_eq_true_2 by done.
  split; [by eexists|]. split; [done|]. split; [done|].
  intros ??? [= <-] _ _. split; [done|]. cbn.
  apply write_file_returned in Hwrite as (_ & _ & ->). apply lookup_insert_eq.
Qed.

(** X9. Keys and names: in every state the service reaches the ids of the
    [audio] table are pairwise different and 36 characters long, each stored
    name is the id, an underscore and the original name, no asset path is a
    directory, and two audio rows never share an asset path. *)
Theorem reachable_keys_and_names (w : world) :
  reachable w →
  NoDup (a_id <$> audio (db_of w)) ∧
  (∀ r, r ∈ audio (db_of w) →
        String.length (a_id r) = 36 ∧
        a_filename r = a_id r +:+ "_" +:+ a_original_name r ∧
        asset_path r ∉ dirs (fs w)) ∧
  (∀ r r', r ∈ audio (db_of w) → r' ∈ audio (db_of w) →
           asset_path r = asset_path r' → r = r').
Proof.
  intros [_ [Hkey _ Hnames Hassets]]%reachable_consistent.
  split; [done|]. split.
  - intros r Hr. destruct (Hnames r Hr). split; [done|]. split; [done|]. by apply Hassets.
  - intros r r' Hr Hr' Heq%os_path_join_inj.
    destruct (Hnames r Hr) as [Hlen Hname], (Hnames r' Hr') as [Hlen' Hname'].
    rewrite Hname, Hname' in Heq. apply stored_name_inj in Heq; [|done..].
    by eapply primary_key_unique.
Qed.

(** X10. What a handler that returns leaves is committed: a request that is
    answered without an exception either touched neither the tables nor what
    is committed (the [GET] routes, and the delete of an id that is not
    there), or ended with [conn.commit()], after which the tables are the
    committed ones.  So it leaves nothing uncommitted when nothing was before,
    and every change it made to the tables is committed.  Nothing is said of
    a handler that raises. *)
Theorem returned_changes_are_committed (w : world) (rq : request) (r : response) :
  (handle rq w).1 = Returned r →
  ((db_of (step w rq) = db_of w ∧ durable (conn (step w rq)) = durable (conn w)) ∨
   durable (conn (step w rq)) = db_of (step w rq)) ∧
  (durable (conn w) = db_of w → durable (conn (step w rq)) = db_of (step w rq)) ∧
  (db_of (step w rq) ≠ db_of w → durable (conn (step w rq)) = db_of (step w rq)).
Proof.
  intros Hreturned.
  assert ((db_of (step w rq) = db_of w ∧ durable (conn (step w rq)) = durable (conn w)) ∨
          durable (conn (step w rq)) = db_of (step w rq)) as Hcases.
  { revert Hreturned. unfold step.
    destruct rq as [random file| |id|id|filename]; cbn [handle].
    - rewrite as_json_eq, transcribe_eq. cbv zeta.
      destruct (write_file _ _ _) as [[[]|e] f1]; [|discriminate].
      destruct (config w !! "language") as [language|]; [|discriminate].
      destruct (model_transcribe _ _ _ _) as [result|e]; [|discriminate].
      case_bool_decide; [discriminate|]. intros _. by right.
    - rewrite as_json_eq, library_eq. intros _. by left.
    - rewrite as_json_eq, audio_data_eq.
      destruct (audio_rows_for id (db_of w)); intros _; by left.
    - rewrite as_json_eq.
      destruct (audio_rows_for id (db_of w)) as [|row rest] eqn:Hrows.
      + rewrite (delete_audio_absent _ _ Hrows). intros _. by left.
      + destruct (decide (asset_path row ∈ dirs (fs w))) as [Hdir|Hdir].
        * revert Hrows Hdir.
          unfold delete_audio, audio_rows_for, asset_path, db_of, mbind, M_bind. cbn.
          intros -> Hdir. cbn.
          rewrite bool_decide_eq_true_2 by (by left). cbn. unfold on_fs, os_remove. cbn.
          rewrite (bool_decide_eq_true_2 _ Hdir). discriminate.
        * rewrite (delete_audio_present _ _ _ _ Hrows Hdir). intros _. by right.
    - rewrite get_audio_sent. intros _. by left. }
  split; [exact Hcases|]. split.
  - intros Hcommitted. destruct Hcases as [[Hdb Hdur]|Hdone]; [|done].
    by rewrite Hdb, Hdur.
  - intros Hchanged. by destruct Hcases as [[Hdb _]|Hdone].
Qed.

(** X11. First run, second run: with a JSON codec that reads back the defaults
    it wrote, [load_config] on a disk without [config.json] returns the
    defaults and creates the file, and a second [load_config] returns the
    defaults again and leaves the disk as it is. *)
Theorem load_config_second_run (f : filesystem) :
  codec_reads_defaults →
  (os_path_exists CONFIG_PATH f).1 = Returned false →
  ∃ f1, load_config f = (Returned default_config, f1) ∧
        load_config f1 = (Returned default_config, f1).
Proof.
  intros Hcodec. unfold os_path_exists. cbn [fst]. intros [= Habsent].
  eexists. rewrite load_config_eq, Habsent. split; [reflexivity|].
  rewrite load_config_eq. cbn [dirs files].
  rewrite bool_decide_eq_true_2
    by (right; rewrite lookup_insert_eq; by eexists).
  unfold config_file_keys. cbn [files]. rewrite lookup_insert_eq, Hcodec.
  by rewrite (idemp (∪) default_config).
Qed.

(** The state after an upload that goes through. *)
Lemma transcribe_ok_state (w : world) (random : N) (file : UploadFile)
    (language : pyval) (result : transcription) :
  let audio_id := uuid_str (uuid4 random) in
  let stored := audio_id +:+ "_" +:+ upload_filename file in
  let path := os_path_join UPLOAD_DIR stored in
  let f1 := {| dirs := dirs (fs w);
               files := <[path := upload_content file]> (files (fs w)) |} in
  reachable w →
  has_sep (upload_filename file) = false →
  has_nul (upload_filename file) = false →
  String.length stored ≤ NAME_MAX →
  path ∉ dirs (fs w) →
  ¬ present audio_id (db_of w) →
  config w !! "language" = Some language →
  model_transcribe (model w) f1 path language = Returned result →
  transcribe random file w =
  (Returned (status "ok"),
   committed (with_db (insert_rows audio_id stored (upload_filename file)
                         (t_segments result) (db_of w))
                (with_fs f1 w))).
Proof.
  intros audio_id stored path f1 Hreach Hname Hnul Hlong Hdir Hfresh Hlang Hmodel.
  destruct (reachable_environment w Hreach) as [Hup _].
  assert (has_sep stored = false) as Hflat.
  { subst stored audio_id. rewrite !has_sep_append, has_sep_uuid_str, Hname. done. }
  assert (has_nul stored = false) as Hclean.
  { subst stored audio_id. rewrite !has_nul_append, has_nul_uuid_str, Hnul. done. }
  assert (2 < String.length stored) as Hshort.
  { subst stored audio_id. rewrite !length_append, length_uuid_str. lia. }
  rewrite transcribe_eq. cbv zeta.
  fold audio_id. fold stored. fold path.
  unfold path at 1. rewrite (write_file_flat _ _ _ Hflat Hclean Hshort Hlong Hup Hdir).
  fold path. fold f1. rewrite Hlang, Hmodel.
  by rewrite (bool_decide_eq_false_2 _ Hfresh).
Qed.

(** X12. The upload that goes through: in a state the service reaches, for
    a file name without ['/'] and without a zero byte whose stored name
    [{id}_{name}] is at most [NAME_MAX] bytes long, a path that is not a
    directory, an id that is not in the table and a model that returns,
    [POST /transcribe] answers [{"status": "ok"}] with status 200; the bytes
    are on disk under [uploads/{id}_{name}], the audio row and one segment
    row per segment of the model are appended to the tables, all of it
    committed, and nothing else on disk or in the configuration changes. *)
Theorem transcribe_returns_ok (w : world) (random : N) (file : UploadFile)
    (language : pyval) (result : transcription) :
  let audio_id := uuid_str (uuid4 random) in
  let stored := audio_id +:+ "_" +:+ upload_filename file in
  let path := os_path_join UPLOAD_DIR stored in
  let w1 := step w (POST_transcribe random file) in
  reachable w →
  has_sep (upload_filename file) = false →
  has_nul (upload_filename file) = false →
  String.length stored ≤ NAME_MAX →
  path ∉ dirs (fs w) →
  ¬ present audio_id (db_of w) →
  config w !! "language" = Some language →
  model_transcribe (model w)
    {| dirs := dirs (fs w); files := <[path := upload_content file]> (files (fs w)) |}
    path language = Returned result →
  (handle (POST_transcribe random file) w).1 = Returned (JSON (status "ok")) ∧
  status_code (handle (POST_transcribe random file) w).1 = 200 ∧
  audio (db_of w1)
    = audio (db_of w) ++ [{| a_id := audio_id; a_filename := stored;
                             a_original_name := upload_filename file |}] ∧
  segments (db_of w1)
    = segments (db_of w) ++ (segment_row_of audio_id <$> t_segments result) ∧
  durable (conn w1) = db_of w1 ∧
  files (fs w1) = <[path := upload_content file]> (files (fs w)) ∧
  dirs (fs w1) = dirs (fs w) ∧
  config w1 = config w.
Proof.
  intros audio_id stored path w1 Hreach Hname Hnul Hlong Hdir Hfresh Hlang Hmodel.
  subst w1. unfold step. cbn [handle]. rewrite as_json_eq.
  by rewrite (transcribe_ok_state w random file language result).
Qed.

(** X13. What the route can reach: for a filename that the path parameter
    accepts (non-empty, without ['/']), the served path resolves to a file
    inside the uploads directory exactly when the filename is neither ["."]
    nor [".."]. *)
Theorem get_audio_route_containment (filename : string) :
  path_parameter filename = true →
  inside_upload_dir (os_path_join UPLOAD_DIR filename) = true ↔
  filename ≠ "." ∧ filename ≠ "..".
Proof.
  unfold path_parameter. intros [Hne Hflat]%andb_true_iff.
  apply negb_true_iff in Hflat. apply negb_true_iff, bool_decide_eq_false in Hne.
  destruct (os_path_join_flat filename Hflat) as [-> _].
  unfold inside_upload_dir, resolve.
  change (starts_with_sep (UPLOAD_DIR +:+ String sep filename)) with false.
  change (split_sep "" (UPLOAD_DIR +:+ String sep filename))
    with ("uploads" :: split_sep "" filename).
  rewrite split_sep_flat by done.
  change ("" +:+ filename) with filename.
  cbn [negb andb normpath_loop].
  change (bool_decide ("uploads" = "") || bool_decide ("uploads" = ".")) with false.
  change (bool_decide ("uploads" = "..")) with false. cbv iota.
  cbn [normpath_loop].
  rewrite (bool_decide_eq_false_2 (filename = "") Hne). cbn [orb].
  destruct (decide (filename = ".")) as [->|Hdot].
  { cbn. split; [discriminate|]. by intros [[] _]. }
  rewrite (bool_decide_eq_false_2 _ Hdot).
  destruct (decide (filename = "..")) as [->|Hdots].
  { cbn. split; [discriminate|]. by intros [_ []]. }
  rewrite (bool_decide_eq_false_2 _ Hdots). cbn. done.
Qed.

(** X14. Every listed recording opens: in a state the service reaches, for
    each item [(id, original_name)] of [GET /library],
    [GET /audio_data/{id}] returns (status 200) and its [audio_url] is
    ["/audio/{id}_{original_name}"]. *)
Theorem listed_audio_opens (w : world) (id name : string) (items : list pyval) :
  reachable w →
  (handle GET_library w).1 = Returned (JSON (PyList items)) →
  library_item id name ∈ items →
  ∃ body,
    (handle (GET_audio_data id) w).1 = Returned (JSON body) ∧
    status_code (handle (GET_audio_data id) w).1 = 200 ∧
    body_audio_url body = Some ("/audio/" +:+ id +:+ "_" +:+ name).
Proof.
  intros [_ [Hkey _ Hnames _]]%reachable_consistent.
  cbn [handle]. rewrite as_json_eq, library_eq. cbn [fst json_outcome].
  intros [= <-] (r & Hr & Hid & Hname)%library_item_elem.
  assert (present id (db_of w)) as Hp
    by (unfold present; rewrite <- Hid; by apply list_elem_of_fmap_2).
  destruct (audio_data_present w id Hp) as (r' & Hr' & Hid' & Hbody).
  cbn [handle] in Hbody. rewrite as_json_eq in Hbody. rewrite as_json_eq, Hbody.
  assert (r' = r) as -> by (eapply primary_key_unique; eauto; congruence).
  eexists. split; [reflexivity|]. split; [reflexivity|].
  rewrite body_audio_url_detail. destruct (Hnames r Hr) as [_ ->].
  by rewrite Hid, Hname.
Qed.

(** X15. A delete stops at an asset it cannot remove: when the path of the
    asset is a directory, [os.remove] raises [IsADirectoryError], the handler
    raises with it (status 500), and the audio row and its segments stay in
    the tables. *)
Theorem delete_audio_asset_is_directory (w : world) (id : string) r rest :
  audio_rows_for id (db_of w) = r :: rest →
  asset_path r ∈ dirs (fs w) →
  (handle (DELETE_delete id) w).1 = Raised (IsADirectoryError (asset_path r)) ∧
  status_code (handle (DELETE_delete id) w).1 = 500 ∧
  db_of (step w (DELETE_delete id)) = db_of w ∧
  durable (conn (step w (DELETE_delete id))) = durable (conn w) ∧
  fs (step w (DELETE_delete id)) = fs w.
Proof.
  intros Hrows Hdir. unfold step. cbn [handle]. rewrite as_json_eq.
  revert Hrows Hdir.
  unfold delete_audio, audio_rows_for, asset_path, db_of, mbind, M_bind. cbn.
  intros -> Hdir. cbn.
  rewrite bool_decide_eq_true_2 by (by left). cbn. unfold on_fs, os_remove. cbn.
  rewrite (bool_decide_eq_true_2 _ Hdir). cbn. by destruct w as [[] ? ? ?].
Qed.


End ServiceProperties.

(* ===================================================================== *)
(** ** The page and the service together *)
(* ===================================================================== *)

Section PageProperties.
Context `{Collaborators} `{Browser}.

Lemma fetch_eq (rq : request) (s : session) :
  fetch rq s =
  if online s
  then (Answered (handle rq (server s)).1,
        {| the_page := the_page s; server := step (server s) rq; online := online s |})
  else (Rejected, s).
Proof.
  unfold fetch, step. destruct (online s); [|done]. by destruct (handle rq (server s)).
Qed.

Lemma entry_of_row (r : audio_row) :
  entry_of (row_library_item r) = Some (a_id r, a_original_name r).
Proof. reflexivity. Qed.

Lemma library_entries_rows (rows : list audio_row) :
  library_entries (PyList (row_library_item <$> rows)) =
  Some ((λ r, (a_id r, a_original_name r)) <$> rows).
Proof.
  unfold library_entries. induction rows as [|r rows IH]; [done|].
  rewrite !fmap_cons. cbn [mapM]. rewrite IH. reflexivity.
Qed.

Lemma render_library_rows (rows : list audio_row) :
  render_library ((λ r, (a_id r, a_original_name r)) <$> rows) = library_view_of rows.
Proof.
  destruct rows as [|r rows]; [done|].
  exact (eq_sym (list_fmap_compose (λ r, (a_id r, a_original_name r))
                   (λ e, AudioItem {| entry_id := e.1; entry_name := e.2;
                                      entry_active := false |}) (r :: rows))).
Qed.

(** [loadLibrary] in closed form: on line, the view is rendered from the
    audio table; off line, nothing happens. *)
Lemma loadLibrary_eq (s : session) :
  loadLibrary s =
  if online s then
    {| the_page := {| the_player := the_player (the_page s);
                      the_uploader := the_uploader (the_page s);
                      the_dialogs := the_dialogs (the_page s);
                      library_view := library_view_of (audio (db_of (server s))) |};
       server := step (server s) GET_library;
       online := online s |}
  else s.
Proof.
  unfold loadLibrary. rewrite fetch_eq. destruct (online s) eqn:Hon; [|done].
  cbn [handle]. rewrite as_json_eq, library_eq. cbn [fst json_outcome res_json].
  rewrite library_entries_rows, render_library_rows. reflexivity.
Qed.

Lemma step_library_db (w : world) : db_of (step w GET_library) = db_of w.
Proof. unfold step. cbn [handle]. by rewrite as_json_eq, library_eq. Qed.

Lemma reachable_run (w : world) (rqs : list request) :
  reachable w → reachable (run w rqs).
Proof.
  revert w. induction rqs as [|rq rqs IH]; intros w Hw; [done|].
  cbn [run foldl]. apply IH. by apply reachable_step.
Qed.

Lemma items_library_view_of (rows : list audio_row) :
  items (library_view_of rows) = item_of_row <$> rows.
Proof.
  destruct rows as [|r rows]; [done|]. unfold library_view_of, items.
  generalize (r :: rows). intros l. induction l as [|x l IH]; [done|].
  cbn. by rewrite <- IH.
Qed.

Lemma active_items_library_view_of (rows : list audio_row) :
  active_items (library_view_of rows) = [].
Proof.
  unfold active_items. rewrite items_library_view_of.
  induction rows as [|r rows IH]; [done|].
  rewrite fmap_cons, filter_cons_False; [done|]. cbn. discriminate.
Qed.

(** X17. [loadLibrary] mirrors the audio table: on line the library view gets
    one item per audio row, in table order and none of them marked active
    (the mark of the loaded recording is lost), or the "No audio files yet"
    block for an empty table; off line the page stays as it is.  The player,
    the dialogs, the upload controls and the tables are never touched. *)
Theorem loadLibrary_mirrors_the_table (s : session) :
  (online s = true →
   library_view (the_page (loadLibrary s)) = library_view_of (audio (db_of (server s))) ∧
   items (library_view (the_page (loadLibrary s)))
     = item_of_row <$> audio (db_of (server s)) ∧
   active_items (library_view (the_page (loadLibrary s))) = [] ∧
   (library_view (the_page (loadLibrary s)) = [NoFilesYet]
    ↔ audio (db_of (server s)) = [])) ∧
  (online s = false → loadLibrary s = s) ∧
  the_player (the_page (loadLibrary s)) = the_player (the_page s) ∧
  the_dialogs (the_page (loadLibrary s)) = the_dialogs (the_page s) ∧
  the_uploader (the_page (loadLibrary s)) = the_uploader (the_page s) ∧
  db_of (server (loadLibrary s)) = db_of (server s).
Proof.
  rewrite loadLibrary_eq. destruct (online s); cbn.
  - split; [|split; [done|]].
    + intros _. split; [done|]. split; [apply items_library_view_of|].
      split; [apply active_items_library_view_of|].
      by destruct (audio (db_of (server s))).
    + repeat split; try done. apply step_library_db.
  - done.
Qed.

Lemma spans_render_transcript (rows : list segment_row) :
  spans (render_transcript (row_triple <$> rows)) = span_of_row <$> rows.
Proof.
  induction rows as [|r rows IH]; [done|].
  destruct rows as [|r' rows]; [done|].
  change (span_of_row r :: spans (render_transcript (row_triple <$> r' :: rows))
          = span_of_row r :: (span_of_row <$> r' :: rows)).
  f_equal. exact IH.
Qed.

Lemma length_render_transcript (segs : list (REAL * REAL * string)) :
  length (render_transcript segs) = 2 * length segs - 1.
Proof.
  induction segs as [|seg segs IH]; [done|].
  destruct segs as [|seg' segs]; [done|].
  change (render_transcript (seg :: seg' :: segs))
    with (new_span seg :: LineBreak :: render_transcript (seg' :: segs)).
  cbn [length] in *. lia.
Qed.

(** The spans of a transcript after [timeupdate] and after a click on a
    span. *)
Lemma spans_fmap_highlight (t : REAL) (nodes : list transcript_node) :
  spans (highlight_node t <$> nodes) = highlighted t <$> spans nodes.
Proof.
  induction nodes as [|[sp| |] nodes IH]; [done|..].
  - rewrite fmap_cons.
    change (highlighted t sp :: spans (highlight_node t <$> nodes)
            = highlighted t sp :: (highlighted t <$> spans nodes)).
    by f_equal.
  - exact IH.
  - exact IH.
Qed.

(** X18. The highlight is recomputed, not accumulated: after [timeupdate] a
    span is [playing] exactly when its interval, ends included, holds the
    playback position, whatever it was before; so the last of two updates
    wins, and the [active] marks, the texts, the order of the nodes and the
    rest of the session are as they were. *)
Theorem timeupdate_recomputes_highlight (s : session) (t t' : REAL) :
  spans (transcript (the_player (the_page (timeupdate t s))))
    = highlighted t <$> spans (transcript (the_player (the_page s))) ∧
  timeupdate t (timeupdate t' s) = timeupdate t s ∧
  active_spans (transcript (the_player (the_page (timeupdate t s))))
    = highlighted t <$> active_spans (transcript (the_player (the_page s))) ∧
  length (transcript (the_player (the_page (timeupdate t s))))
    = length (transcript (the_player (the_page s))) ∧
  audio_commands (the_player (the_page (timeupdate t s)))
    = audio_commands (the_player (the_page s)) ∧
  server (timeupdate t s) = server s.
Proof.
  split; [apply spans_fmap_highlight|]. split; [|split; [|split; [|done]]].
  - unfold timeupdate, with_player, with_page. cbn. do 3 f_equal.
    rewrite <- list_fmap_compose. apply list_fmap_ext. by intros i [sp| |] _.
  - unfold active_spans. cbn [timeupdate with_player with_page the_page the_player transcript].
    rewrite spans_fmap_highlight.
    generalize (spans (transcript (the_player (the_page s)))). intros l.
    induction l as [|sp l IH]; [done|].
    rewrite fmap_cons, !filter_cons. cbn [highlighted seg_active].
    case_decide; by rewrite IH.
  - cbn. by rewrite length_fmap.
Qed.

(** The marks after a click on a span. *)
Lemma active_spans_mark_elsewhere (k : nat) (f : nat → nat) (nodes : list transcript_node) :
  (∀ i, f i ≠ k) → active_spans (imap (λ i, mark_clicked k (f i)) nodes) = [].
Proof.
  revert f. induction nodes as [|node nodes IH]; intros f Hf; [done|].
  rewrite imap_cons.
  change (imap ((λ i, mark_clicked k (f i)) ∘ S) nodes)
    with (imap (λ i, mark_clicked k ((f ∘ S) i)) nodes).
  pose proof (IH (f ∘ S) (λ i, Hf (S i))) as IH'.
  destruct node as [sp| |]; [|exact IH'..].
  unfold active_spans, spans in *. cbn [omap list_omap mark_clicked].
  rewrite filter_cons_False; [exact IH'|].
  cbn. rewrite bool_decide_eq_false_2 by apply Hf. discriminate.
Qed.

Lemma imap_mark_clicked_S (k : nat) (nodes : list transcript_node) :
  imap (mark_clicked (S k) ∘ S) nodes = imap (mark_clicked k) nodes.
Proof.
  apply imap_ext. intros i [sp| |] _; cbn; [|done..].
  do 2 f_equal. apply bool_decide_ext. lia.
Qed.

Lemma active_spans_mark_clicked (k : nat) (nodes : list transcript_node) sp :
  nodes !! k = Some (SegmentSpan sp) →
  active_spans (imap (mark_clicked k) nodes) = [activated sp].
Proof.
  revert k. induction nodes as [|node nodes IH]; intros k Hk; [done|].
  rewrite imap_cons. destruct k as [|k].
  - injection Hk as ->.
    pose proof (active_spans_mark_elsewhere 0 S nodes (λ i, Nat.neq_succ_0 i)) as Hrest.
    unfold active_spans, spans in *. cbn [omap list_omap mark_clicked].
    rewrite filter_cons_True by done.
    exact (f_equal (cons (activated sp)) Hrest).
  - rewrite imap_mark_clicked_S. specialize (IH k Hk).
    destruct node as [x| |]; [|exact IH..].
    unfold active_spans, spans in *. cbn [omap list_omap mark_clicked].
    rewrite filter_cons_False; [exact IH|]. cbn. discriminate.
Qed.

Lemma unmarked_mark_clicked (k : nat) (f : nat → nat) (nodes : list transcript_node) :
  unmarked <$> spans (imap (λ i, mark_clicked k (f i)) nodes) = unmarked <$> spans nodes.
Proof.
  revert f. induction nodes as [|node nodes IH]; intros f; [done|].
  rewrite imap_cons.
  change (imap ((λ i, mark_clicked k (f i)) ∘ S) nodes)
    with (imap (λ i, mark_clicked k ((f ∘ S) i)) nodes).
  specialize (IH (f ∘ S)).
  destruct node as [sp| |]; [|exact IH..].
  unfold spans in *. cbn [omap list_omap mark_clicked]. rewrite !fmap_cons.
  by f_equal.
Qed.

(** X19. A click on a segment seeks and marks: the element is asked to move
    to the start of the segment and then to play, the clicked span is the
    only one marked active afterwards, and the starts, ends, texts and
    [playing] marks of all spans are as before.  A click on a position that
    holds no span changes nothing. *)
Theorem click_segment_seeks_and_marks (s : session) (k : nat) :
  (∀ sp,
     transcript (the_player (the_page s)) !! k = Some (SegmentSpan sp) →
     audio_commands (the_player (the_page (click_segment k s)))
       = audio_commands (the_player (the_page s)) ++ [SetCurrentTime (seg_start sp); Play] ∧
     active_spans (transcript (the_player (the_page (click_segment k s))))
       = [activated sp] ∧
     unmarked <$> spans (transcript (the_player (the_page (click_segment k s))))
       = unmarked <$> spans (transcript (the_player (the_page s))) ∧
     length (transcript (the_player (the_page (click_segment k s))))
       = length (transcript (the_player (the_page s))) ∧
     audio_src (the_player (the_page (click_segment k s)))
       = audio_src (the_player (the_page s)) ∧
     server (click_segment k s) = server s) ∧
  ((∀ sp, transcript (the_player (the_page s)) !! k ≠ Some (SegmentSpan sp)) →
   click_segment k s = s).
Proof.
  split.
  - intros sp Hk. unfold click_segment. rewrite Hk. cbn.
    split; [done|]. split; [by apply active_spans_mark_clicked|].
    split; [apply (unmarked_mark_clicked k id)|]. split; [apply length_imap|done].
  - intros Hk. unfold click_segment.
    destruct (_ !! k) as [[sp| |]|]; try done. by destruct (Hk sp).
Qed.

(** X20. A click, then the [timeupdate] at the position it asked for: the
    click asks the [audio] element to move to the start of the segment; when
    the listener then runs with the element at that position, the clicked span
    is both active and playing (its start being neither after itself nor
    after its end), and every other span is not active and is playing exactly
    when its closed interval holds that start. *)
Theorem click_then_timeupdate_at_start (s : session) (k : nat) (sp : segment_span) :
  transcript (the_player (the_page s)) !! k = Some (SegmentSpan sp) →
  REAL_leb (seg_start sp) (seg_start sp) = true →
  REAL_leb (seg_start sp) (seg_end sp) = true →
  let s1 := timeupdate (seg_start sp) (click_segment k s) in
  audio_commands (the_player (the_page s1))
    = audio_commands (the_player (the_page s)) ++ [SetCurrentTime (seg_start sp); Play] ∧
  transcript (the_player (the_page s1)) !! k
    = Some (SegmentSpan {| seg_start := seg_start sp; seg_end := seg_end sp;
                           seg_text := seg_text sp; seg_active := true;
                           seg_playing := true |}) ∧
  (∀ j sp', j ≠ k →
     transcript (the_player (the_page s)) !! j = Some (SegmentSpan sp') →
     transcript (the_player (the_page s1)) !! j
       = Some (SegmentSpan {| seg_start := seg_start sp'; seg_end := seg_end sp';
                              seg_text := seg_text sp'; seg_active := false;
                              seg_playing := within (seg_start sp) sp' |})).
Proof.
  intros Hk Hrefl Horder s1. subst s1. unfold click_segment. rewrite Hk.
  unfold timeupdate. page_simpl. split; [done|]. split.
  - rewrite list_lookup_fmap, list_lookup_imap, Hk. cbn.
    rewrite bool_decide_eq_true_2 by done.
    unfold highlighted, within. cbn. by rewrite Hrefl, Horder.
  - intros j sp' Hj Hsp'.
    rewrite list_lookup_fmap, list_lookup_imap, Hsp'. cbn.
    by rewrite bool_decide_eq_false_2.
Qed.

(** X21. Closed intervals meet: when one span ends where another starts and
    the playback position is that instant, [timeupdate] marks both as
    playing. *)
Theorem timeupdate_shared_boundary (s : session) (t : REAL) (i j : nat)
    (sp1 sp2 : segment_span) :
  transcript (the_player (the_page s)) !! i = Some (SegmentSpan sp1) →
  transcript (the_player (the_page s)) !! j = Some (SegmentSpan sp2) →
  seg_end sp1 = t → seg_start sp2 = t →
  REAL_leb (seg_start sp1) t = true → REAL_leb t (seg_end sp2) = true →
  REAL_leb t t = true →
  ∃ sp1' sp2',
    transcript (the_player (the_page (timeupdate t s))) !! i = Some (SegmentSpan sp1') ∧
    transcript (the_player (the_page (timeupdate t s))) !! j = Some (SegmentSpan sp2') ∧
    seg_playing sp1' = true ∧ seg_playing sp2' = true ∧
    unmarked sp1' = (seg_start sp1, seg_end sp1, seg_text sp1, true) ∧
    unmarked sp2' = (seg_start sp2, seg_end sp2, seg_text sp2, true).
Proof.
  intros Hi Hj He Hs Hle1 Hle2 Hrefl.
  exists (highlighted t sp1), (highlighted t sp2).
  cbn [timeupdate with_player with_page the_page the_player transcript].
  rewrite !list_lookup_fmap, Hi, Hj.
  assert (within t sp1 = true) as H1' by (unfold within; by rewrite Hle1, He, Hrefl).
  assert (within t sp2 = true) as H2' by (unfold within; by rewrite Hs, Hrefl, Hle2).
  unfold unmarked. cbn. by rewrite H1', H2'.
Qed.

(** The marks of the library after a click on a name. *)
Lemma active_items_mark_elsewhere (k : nat) (f : nat → nat) (view : list library_node) :
  (∀ i, f i ≠ k) → active_items (imap (λ i, mark_item k (f i)) view) = [].
Proof.
  revert f. induction view as [|node view IH]; intros f Hf; [done|].
  rewrite imap_cons.
  change (imap ((λ i, mark_item k (f i)) ∘ S) view)
    with (imap (λ i, mark_item k ((f ∘ S) i)) view).
  pose proof (IH (f ∘ S) (λ i, Hf (S i))) as IH'.
  destruct node as [a|]; [|exact IH'].
  unfold active_items, items in *. cbn [omap list_omap mark_item].
  rewrite filter_cons_False; [exact IH'|].
  cbn. rewrite bool_decide_eq_false_2 by apply Hf. discriminate.
Qed.

Lemma imap_mark_item_S (k : nat) (view : list library_node) :
  imap (mark_item (S k) ∘ S) view = imap (mark_item k) view.
Proof.
  apply imap_ext. intros i [a|] _; cbn; [|done].
  do 2 f_equal. apply bool_decide_ext. lia.
Qed.

Lemma active_items_activate (k : nat) (view : list library_node) a :
  view !! k = Some (AudioItem a) →
  active_items (activate_item k view) = [selected_item a].
Proof.
  unfold activate_item. revert k.
  induction view as [|node view IH]; intros k Hk; [done|].
  rewrite imap_cons. destruct k as [|k].
  - injection Hk as ->.
    pose proof (active_items_mark_elsewhere 0 S view (λ i, Nat.neq_succ_0 i)) as Hrest.
    unfold active_items, items in *. cbn [omap list_omap mark_item].
    rewrite filter_cons_True by done.
    exact (f_equal (cons (selected_item a)) Hrest).
  - rewrite imap_mark_item_S. specialize (IH k Hk).
    destruct node as [x|]; [|exact IH].
    unfold active_items, items in *. cbn [omap list_omap mark_item].
    rewrite filter_cons_False; [exact IH|]. cbn. discriminate.
Qed.

Lemma active_spans_render (rows : list segment_row) :
  active_spans (render_transcript (row_triple <$> rows)) = [].
Proof.
  unfold active_spans. rewrite spans_render_transcript.
  induction rows as [|r rows IH]; [done|].
  rewrite fmap_cons, filter_cons_False; [done|]. cbn. discriminate.
Qed.

(** [loadAudio] on line, in closed form. *)
Lemma loadAudio_online (id : string) (element : nat) (s : session) :
  online s = true →
  loadAudio id element s =
  {| the_page :=
       {| the_player :=
            match audio_rows_for id (db_of (server s)) with
            | [] =>
                {| currentAudioId := Some id;
                   audio_src := audio_src (the_player (the_page s));
                   audio_commands := audio_commands (the_player (the_page s));
                   transcript := transcript (the_player (the_page s)) |}
            | r :: _ =>
                {| currentAudioId := Some id;
                   audio_src := "/audio/" +:+ a_filename r;
                   audio_commands := audio_commands (the_player (the_page s));
                   transcript :=
                     render_transcript
                       (row_triple <$> segment_rows_for id (db_of (server s))) |}
            end;
          the_uploader := the_uploader (the_page s);
          the_dialogs := the_dialogs (the_page s);
          library_view := activate_item element (library_view (the_page s)) |};
     server := step (server s) (GET_audio_data id);
     online := true |}.
Proof.
  intros Hon. unfold loadAudio.
  set (s0 := with_player _ (with_library_view _ s)).
  assert (server s0 = server s) as Hserver by done.
  assert (online s0 = true) as Hon0 by done.
  rewrite fetch_eq, Hon0, Hserver. cbn [handle].
  rewrite as_json_eq, audio_data_eq.
  destruct (audio_rows_for id (db_of (server s))) as [|r rest];
    cbn [fst snd json_outcome res_json].
  - by subst s0.
  - rewrite body_audio_url_detail, body_segments_detail. by subst s0.
Qed.

Lemma step_audio_data_db (w : world) (id : string) :
  db_of (step w (GET_audio_data id)) = db_of w.
Proof.
  unfold step. cbn [handle]. rewrite as_json_eq, audio_data_eq.
  by destruct (audio_rows_for id (db_of w)).
Qed.

(** X22. Opening a recording: on line, a click on the name of a listed
    recording that the service still has makes it the current one, points the
    [audio] element at ["/audio/" + stored name], and replaces the transcript
    by one span per segment row of that id, in table order, with the trimmed
    text, no mark, and a [br] between neighbours; the clicked item is the one
    active item of the library. *)
Theorem click_name_opens_recording (s : session) (element : nat) (a : audio_item) :
  library_view (the_page s) !! element = Some (AudioItem a) →
  online s = true →
  present (entry_id a) (db_of (server s)) →
  let s1 := click_name element s in
  let rows := segment_rows_for (entry_id a) (db_of (server s)) in
  ∃ r, r ∈ audio (db_of (server s)) ∧ a_id r = entry_id a ∧
    currentAudioId (the_player (the_page s1)) = Some (entry_id a) ∧
    audio_src (the_player (the_page s1)) = "/audio/" +:+ a_filename r ∧
    spans (transcript (the_player (the_page s1))) = span_of_row <$> rows ∧
    length (transcript (the_player (the_page s1))) = 2 * length rows - 1 ∧
    active_spans (transcript (the_player (the_page s1))) = [] ∧
    active_items (library_view (the_page s1)) = [selected_item a] ∧
    audio_commands (the_player (the_page s1)) = audio_commands (the_player (the_page s)) ∧
    db_of (server s1) = db_of (server s).
Proof.
  intros Hitem Hon Hp s1 rows. subst s1. unfold click_name. rewrite Hitem.
  rewrite loadAudio_online by done.
  destruct (audio_rows_for (entry_id a) (db_of (server s))) as [|r rest] eqn:Hrows.
  { by apply audio_rows_for_nil in Hrows. }
  apply audio_rows_for_head in Hrows as [Hid Hr]. exists r. cbn.
  split; [done|]. split; [done|]. split; [done|]. split; [done|].
  split; [apply spans_render_transcript|].
  split; [by rewrite length_render_transcript, length_fmap|].
  split; [apply active_spans_render|].
  split; [by apply active_items_activate|]. split; [done|apply step_audio_data_db].
Qed.

(** X23. A click that gets no answer: when the recording was deleted in the
    meantime (the service raises, and the body is not JSON) or the service
    cannot be reached, a click on a listed name still makes that id the
    current one and marks the item active, while the transcript, the source
    of the [audio] element and the tables stay as they were: the page shows
    the previous recording under the new selection. *)
Theorem click_name_without_answer (s : session) (element : nat) (a : audio_item) :
  library_view (the_page s) !! element = Some (AudioItem a) →
  online s = false ∨ ¬ present (entry_id a) (db_of (server s)) →
  let s1 := click_name element s in
  currentAudioId (the_player (the_page s1)) = Some (entry_id a) ∧
  active_items (library_view (the_page s1)) = [selected_item a] ∧
  transcript (the_player (the_page s1)) = transcript (the_player (the_page s)) ∧
  audio_src (the_player (the_page s1)) = audio_src (the_player (the_page s)) ∧
  audio_commands (the_player (the_page s1)) = audio_commands (the_player (the_page s)) ∧
  alerts (the_dialogs (the_page s1)) = alerts (the_dialogs (the_page s)) ∧
  db_of (server s1) = db_of (server s).
Proof.
  intros Hitem Hwhy s1. subst s1. unfold click_name. rewrite Hitem.
  destruct (online s) eqn:Hon.
  - destruct Hwhy as [|Hno]; [done|]. rewrite loadAudio_online by done.
    apply audio_rows_for_nil in Hno. rewrite Hno. cbn.
    split; [done|]. split; [by apply active_items_activate|].
    repeat split; try done. apply step_audio_data_db.
  - unfold loadAudio. rewrite fetch_eq. cbn. rewrite Hon. cbn.
    split; [done|]. split; [by apply active_items_activate|]. done.
Qed.

(** [upload] with a file selected, on line and off line, in closed form. *)
Lemma upload_online (random : N) (s : session) (file : UploadFile) :
  fileInput_files (the_uploader (the_page s)) = Some file → online s = true →
  upload random s =
  {| the_page :=
       {| the_player := the_player (the_page s);
          the_uploader := {| fileInput_files := None; fileLabel := "Choose Audio File";
                             uploadText := StartTranscription;
                             uploadBtn_disabled := false; fileInput_disabled := false |};
          the_dialogs := {| deleteAudioId := deleteAudioId (the_dialogs (the_page s));
                            successModal := true;
                            confirmModal := confirmModal (the_dialogs (the_page s));
                            alerts := alerts (the_dialogs (the_page s)) |};
          library_view :=
            library_view_of
              (audio (db_of (step (server s) (POST_transcribe random file)))) |};
     server := step (step (server s) (POST_transcribe random file)) GET_library;
     online := true |}.
Proof.
  intros Hfile Hon. unfold upload. rewrite Hfile.
  set (s0 := set_upload_controls true Transcribing s).
  assert (server s0 = server s) as Hserver by done.
  assert (online s0 = true) as Hon0 by done.
  rewrite fetch_eq, Hon0, Hserver, loadLibrary_eq. by subst s0.
Qed.

Lemma upload_offline (random : N) (s : session) (file : UploadFile) :
  fileInput_files (the_uploader (the_page s)) = Some file → online s = false →
  upload random s =
  {| the_page :=
       {| the_player := the_player (the_page s);
          the_uploader := {| fileInput_files := Some file;
                             fileLabel := fileLabel (the_uploader (the_page s));
                             uploadText := StartTranscription;
                             uploadBtn_disabled := false; fileInput_disabled := false |};
          the_dialogs := {| deleteAudioId := deleteAudioId (the_dialogs (the_page s));
                            successModal := successModal (the_dialogs (the_page s));
                            confirmModal := confirmModal (the_dialogs (the_page s));
                            alerts := alerts (the_dialogs (the_page s))
                                      ++ ["Upload failed. Please try again."] |};
          library_view := library_view (the_page s) |};
     server := server s;
     online := false |}.
Proof.
  intros Hfile Hon. unfold upload. rewrite Hfile.
  set (s0 := set_upload_controls true Transcribing s).
  assert (online s0 = false) as Hon0 by done.
  rewrite fetch_eq, Hon0. subst s0.
  destruct s as [[p [files label text btn inp] d l] w o].
  cbn in Hfile, Hon. by subst.
Qed.

(** X24. What [upload] tells the user.  Without a selected file it only
    alerts.  On line it shows the success dialog, clears the selection and
    renders the library again whatever the service answered, so also when
    the handler raised and nothing was stored.  Off line it alerts that the
    upload failed and sends nothing.  With a file selected the controls end
    up enabled in every case. *)
Theorem upload_outcomes (random : N) (s : session) :
  (fileInput_files (the_uploader (the_page s)) = None →
   upload random s = alert "Please select a file first" s) ∧
  (∀ file,
     fileInput_files (the_uploader (the_page s)) = Some file → online s = true →
     let s1 := upload random s in
     successModal (the_dialogs (the_page s1)) = true ∧
     alerts (the_dialogs (the_page s1)) = alerts (the_dialogs (the_page s)) ∧
     fileInput_files (the_uploader (the_page s1)) = None ∧
     fileLabel (the_uploader (the_page s1)) = "Choose Audio File" ∧
     uploadBtn_disabled (the_uploader (the_page s1)) = false ∧
     fileInput_disabled (the_uploader (the_page s1)) = false ∧
     uploadText (the_uploader (the_page s1)) = StartTranscription ∧
     db_of (server s1) = db_of (step (server s) (POST_transcribe random file)) ∧
     library_view (the_page s1) = library_view_of (audio (db_of (server s1))) ∧
     the_player (the_page s1) = the_player (the_page s)) ∧
  (∀ file,
     fileInput_files (the_uploader (the_page s)) = Some file → online s = false →
     let s1 := upload random s in
     alerts (the_dialogs (the_page s1))
       = alerts (the_dialogs (the_page s)) ++ ["Upload failed. Please try again."] ∧
     successModal (the_dialogs (the_page s1)) = successModal (the_dialogs (the_page s)) ∧
     fileInput_files (the_uploader (the_page s1)) = Some file ∧
     uploadBtn_disabled (the_uploader (the_page s1)) = false ∧
     fileInput_disabled (the_uploader (the_page s1)) = false ∧
     uploadText (the_uploader (the_page s1)) = StartTranscription ∧
     server s1 = server s ∧
     library_view (the_page s1) = library_view (the_page s)).
Proof.
  split; [|split].
  - intros Hfile. unfold upload. by rewrite Hfile.
  - intros file Hfile Hon s1. subst s1. rewrite (upload_online _ _ _ Hfile Hon). cbn.
    by rewrite step_library_db.
  - intros file Hfile Hon s1. subst s1. by rewrite (upload_offline _ _ _ Hfile Hon).
Qed.

(** [confirmDelete] with an id waiting, on line and off line, in closed form. *)
Lemma confirmDelete_online (s : session) (id : string) :
  deleteAudioId (the_dialogs (the_page s)) = Some id → id ≠ "" → online s = true →
  confirmDelete s =
  {| the_page :=
       {| the_player :=
            if bool_decide (currentAudioId (the_player (the_page s)) = Some id)
            then {| currentAudioId := None; audio_src := "";
                    audio_commands := audio_commands (the_player (the_page s));
                    transcript := [EmptyState] |}
            else the_player (the_page s);
          the_uploader := the_uploader (the_page s);
          the_dialogs := {| deleteAudioId := None;
                            successModal := successModal (the_dialogs (the_page s));
                            confirmModal := false;
                            alerts := alerts (the_dialogs (the_page s)) |};
          library_view :=
            library_view_of (audio (db_of (step (server s) (DELETE_delete id)))) |};
     server := step (step (server s) (DELETE_delete id)) GET_library;
     online := true |}.
Proof.
  intros Hid Hne Hon. unfold confirmDelete. rewrite Hid. cbn [falsy default].
  rewrite (bool_decide_eq_false_2 _ Hne), fetch_eq, Hon. cbn [the_page the_player].
  case_bool_decide; rewrite loadLibrary_eq; reflexivity.
Qed.

Lemma confirmDelete_offline (s : session) (id : string) :
  deleteAudioId (the_dialogs (the_page s)) = Some id → id ≠ "" → online s = false →
  confirmDelete s =
  {| the_page :=
       {| the_player := the_player (the_page s);
          the_uploader := the_uploader (the_page s);
          the_dialogs := {| deleteAudioId := None;
                            successModal := successModal (the_dialogs (the_page s));
                            confirmModal := false;
                            alerts := alerts (the_dialogs (the_page s))
                                      ++ ["Delete failed. Please try again."] |};
          library_view := library_view (the_page s) |};
     server := server s;
     online := false |}.
Proof.
  intros Hid Hne Hon. unfold confirmDelete. rewrite Hid. cbn [falsy default].
  rewrite (bool_decide_eq_false_2 _ Hne), fetch_eq, Hon.
  destruct s as [[p u d l] w o]. cbn in Hon. by subst.
Qed.

(** X25. What [confirmDelete] does.  With no id waiting it does nothing.  On
    line it sends the delete, closes the dialog and forgets the id, empties
    the player exactly when the deleted recording was the one open, and
    renders the library from the table after the delete; when the service is
    in a state it reaches, no item of that library carries the id.  Off line
    it alerts that the delete failed, closes the dialog and forgets the id,
    and leaves the service, the player and the library as they were. *)
Theorem confirmDelete_outcomes (s : session) :
  (falsy (deleteAudioId (the_dialogs (the_page s))) = true → confirmDelete s = s) ∧
  (∀ id,
     deleteAudioId (the_dialogs (the_page s)) = Some id → id ≠ "" → online s = true →
     let s1 := confirmDelete s in
     confirmModal (the_dialogs (the_page s1)) = false ∧
     deleteAudioId (the_dialogs (the_page s1)) = None ∧
     alerts (the_dialogs (the_page s1)) = alerts (the_dialogs (the_page s)) ∧
     db_of (server s1) = db_of (step (server s) (DELETE_delete id)) ∧
     library_view (the_page s1) = library_view_of (audio (db_of (server s1))) ∧
     (currentAudioId (the_player (the_page s)) = Some id →
      currentAudioId (the_player (the_page s1)) = None ∧
      audio_src (the_player (the_page s1)) = "" ∧
      transcript (the_player (the_page s1)) = [EmptyState] ∧
      audio_commands (the_player (the_page s1))
        = audio_commands (the_player (the_page s))) ∧
     (currentAudioId (the_player (the_page s)) ≠ Some id →
      the_player (the_page s1) = the_player (the_page s)) ∧
     (reachable (server s) →
      ∀ a, a ∈ items (library_view (the_page s1)) → entry_id a ≠ id)) ∧
  (∀ id,
     deleteAudioId (the_dialogs (the_page s)) = Some id → id ≠ "" → online s = false →
     let s1 := confirmDelete s in
     alerts (the_dialogs (the_page s1))
       = alerts (the_dialogs (the_page s)) ++ ["Delete failed. Please try again."] ∧
     confirmModal (the_dialogs (the_page s1)) = false ∧
     deleteAudioId (the_dialogs (the_page s1)) = None ∧
     server s1 = server s ∧
     the_player (the_page s1) = the_player (the_page s) ∧
     library_view (the_page s1) = library_view (the_page s)).
Proof.
  split; [|split].
  - intros Hfalsy. unfold confirmDelete. by rewrite Hfalsy.
  - intros id Hid Hne Hon s1. subst s1. rewrite (confirmDelete_online _ _ Hid Hne Hon).
    cbn [the_page the_player the_dialogs library_view server confirmModal deleteAudioId
         alerts].
    rewrite step_library_db. repeat split.
    + by rewrite bool_decide_eq_true_2.
    + by rewrite bool_decide_eq_true_2.
    + by rewrite bool_decide_eq_true_2.
    + by rewrite bool_decide_eq_true_2.
    + intros Hcur. by rewrite bool_decide_eq_false_2.
    + intros Hreach a. rewrite items_library_view_of.
      intros (r & -> & Hr)%list_elem_of_fmap Heq.
      apply (step_delete_gone _ id Hreach). unfold present.
      apply list_elem_of_fmap. exists r. split; [exact (eq_sym Heq)|done].
  - intros id Hid Hne Hon s1. subst s1. by rewrite (confirmDelete_offline _ _ Hid Hne Hon).
Qed.

Lemma active_spans_fmap_highlight (t : REAL) (nodes : list transcript_node) :
  length (active_spans (highlight_node t <$> nodes)) = length (active_spans nodes).
Proof.
  unfold active_spans. rewrite spans_fmap_highlight.
  induction (spans nodes) as [|sp l IH]; [done|].
  rewrite fmap_cons. destruct (seg_active sp) eqn:Hsp.
  - rewrite !filter_cons_True by done. cbn [length]. by rewrite IH.
  - rewrite !filter_cons_False; [done|by rewrite Hsp|cbn; by rewrite Hsp].
Qed.

Lemma active_spans_render_transcript (segs : list (REAL * REAL * string)) :
  active_spans (render_transcript segs) = [].
Proof.
  induction segs as [|seg segs IH]; [done|].
  destruct segs as [|seg' segs]; [done|].
  change (render_transcript (seg :: seg' :: segs))
    with (new_span seg :: LineBreak :: render_transcript (seg' :: segs)).
  unfold active_spans, spans in *. cbn [omap list_omap new_span].
  rewrite filter_cons_False; [exact IH|]. cbn. discriminate.
Qed.

(** *** The script, one turn of the event loop at a time *)

Lemma uploads_in_flight_app (l : list in_flight) (c : awaited) :
  uploads_in_flight (l ++ [{| waiting := c; answered := None |}])
  = uploads_in_flight l + (if is_upload c then 1 else 0).
Proof.
  unfold uploads_in_flight. rewrite filter_app, length_app. f_equal.
  destruct (is_upload c) eqn:Hc.
  - by rewrite filter_cons_True.
  - rewrite filter_cons_False; [done|]. cbn. by rewrite Hc.
Qed.

Lemma uploads_in_flight_insert (l : list in_flight) (i : nat) (p p' : in_flight) :
  l !! i = Some p → waiting p' = waiting p →
  uploads_in_flight (<[i := p']> l) = uploads_in_flight l.
Proof.
  unfold uploads_in_flight. intros Hi Hsame. revert i Hi.
  induction l as [|q l IH]; intros i Hi; [done|]. destruct i as [|i].
  - injection Hi as ->. change (<[0:=p']> (p :: l)) with (p' :: l).
    rewrite !filter_cons, Hsame. by destruct (decide (is_upload (waiting p) = true)).
  - change (<[S i:=p']> (q :: l)) with (q :: <[i:=p']> l).
    rewrite !filter_cons. specialize (IH i Hi).
    destruct (decide (is_upload (waiting q) = true)); cbn [length]; by rewrite IH.
Qed.

Lemma uploads_in_flight_delete (l : list in_flight) (i : nat) (p : in_flight) :
  l !! i = Some p →
  uploads_in_flight l
  = (if is_upload (waiting p) then 1 else 0) + uploads_in_flight (delete i l).
Proof.
  unfold uploads_in_flight. revert i. induction l as [|q l IH]; intros i Hi; [done|].
  destruct i as [|i].
  - injection Hi as ->. change (delete 0 (p :: l)) with l. rewrite filter_cons.
    destruct (decide (is_upload (waiting p) = true)) as [Hp|Hp].
    + by rewrite Hp.
    + apply not_true_is_false in Hp. by rewrite Hp.
  - change (delete (S i) (q :: l)) with (q :: delete i l).
    rewrite !filter_cons. specialize (IH i Hi).
    destruct (decide (is_upload (waiting q) = true)); cbn [length]; lia.
Qed.

Lemma active_items_render_library (entries : list (string * string)) :
  active_items (render_library entries) = [].
Proof.
  destruct entries as [|e entries]; [done|]. unfold render_library.
  generalize (e :: entries). intros l. unfold active_items, items.
  induction l as [|x l IH]; [done|].
  rewrite fmap_cons. cbn [omap list_omap]. rewrite filter_cons_False; [exact IH|].
  cbn. discriminate.
Qed.

(** The requests an event lets the service handle. *)
Lemma react_server (t : tab_state) (ev : event) :
  ∃ rqs, server (now (react t ev)) = run (server (now t)) rqs.
Proof.
  destruct ev as [selection| | | |element|element| | | |k|time|i random|i delivered|rq];
    cbn [react].
  - by destruct (fileInput_disabled _); exists [].
  - destruct (uploadBtn_disabled _); [by exists []|].
    unfold upload_begins. by destruct (fileInput_files _); exists [].
  - by exists [].
  - by exists [].
  - by destruct (library_view _ !! element) as [[a|]|]; exists [].
  - exists []. cbn. unfold click_delete. by destruct (library_view _ !! element) as [[a|]|].
  - by exists [].
  - by exists [].
  - unfold confirmDelete_begins.
    destruct (deleteAudioId _) as [id|]; [|by exists []].
    by case_bool_decide; exists [].
  - exists []. cbn. unfold click_segment. by destruct (_ !! k) as [[sp| |]|].
  - by exists [].
  - destruct (pending t !! i) as [[c [r|]]|]; try by exists [].
    by exists [request_of c random].
  - destruct (pending t !! i) as [[c r]|]; [|by exists []]. exists [].
    cbn [waiting answered].
    destruct c, r as [r|], delivered; cbn [resumes]; try done;
      try (destruct (res_json r) as [data|]; [|done]).
    + by destruct (library_entries data).
    + by destruct (body_audio_url data), (body_segments data).
    + cbn. unfold clear_if_current. by case_bool_decide.
  - by exists [rq].
Qed.

Lemma browsing_reachable (t : tab_state) : browsing t → reachable (server (now t)).
Proof.
  induction 1 as [w Hw|t ev _ IH]; [done|].
  destruct (react_server t ev) as [rqs ->]. by apply reachable_run.
Qed.

Lemma tidy_opens (w : world) : tidy (opens w).
Proof.
  unfold tidy, opens, sends. cbn. repeat split; first [done|lia|by intros [? ?]].
Qed.

(** The parts of [tidy], for a tab whose page was changed by [f] and whose
    requests in flight became [l']. *)
Lemma tidy_react (t : tab_state) (ev : event) : tidy t → tidy (react t ev).
Proof.
  destruct t as [[[pl [files label text btn inp] [did sm cm al] lv] w o] l].
  unfold tidy. cbv zeta. page_simpl.
  intros (Hsp & Hit & Hdlg & Hctl & Htxt & Hup).
  destruct ev as [selection| | | |element|element| | | |k|time|i random|i delivered|rq];
    cbn [react]; page_simpl.
  - (* a file is selected *)
    destruct inp; [done|]. unfold fileInput_change. by page_simpl.
  - (* the upload button *)
    destruct btn; [done|]. unfold upload_begins. page_simpl.
    destruct files as [file|].
    + unfold sends, set_upload_controls. page_simpl.
      rewrite uploads_in_flight_app. cbn [is_upload]. rewrite Hup. page_facts.
    + unfold alert. by page_simpl.
  - unfold closeModal, set_successModal. by page_simpl.
  - unfold closeModal, set_successModal. by page_simpl.
  - (* a name *)
    destruct (lv !! element) as [[a|]|] eqn:Hel; try done.
    unfold loadAudio_begins, sends, select_item. page_simpl.
    rewrite (active_items_activate _ _ _ Hel), uploads_in_flight_app. cbn [is_upload].
    rewrite Nat.add_0_r. page_facts.
  - (* a delete button *)
    unfold click_delete. page_simpl.
    destruct (lv !! element) as [[a|]|]; unfold showDeleteConfirm; page_simpl; page_facts.
  - unfold closeConfirmModal. page_simpl. page_facts.
  - unfold closeConfirmModal. page_simpl. page_facts.
  - (* the confirm button *)
    unfold confirmDelete_begins. page_simpl.
    destruct did as [id|]; [|done]. case_bool_decide; [done|].
    unfold sends. page_simpl. rewrite uploads_in_flight_app. cbn [is_upload].
    by rewrite Nat.add_0_r.
  - (* a segment *)
    unfold click_segment. page_simpl.
    destruct (transcript pl !! k) as [[sp| |]|] eqn:Hk; try done. page_simpl.
    rewrite (active_spans_mark_clicked _ _ _ Hk). page_facts.
  - (* the playback position *)
    unfold timeupdate. page_simpl. by rewrite active_spans_fmap_highlight.
  - (* the service handles a request *)
    destruct (l !! i) as [[c [r|]]|] eqn:Hi; try done. page_simpl.
    by rewrite (uploads_in_flight_insert _ _ _ _ Hi).
  - (* a promise settles *)
    destruct (l !! i) as [[c r]|] eqn:Hi; [|done]. cbn [waiting answered].
    pose proof (uploads_in_flight_delete _ _ _ Hi) as Hcount. cbn [waiting] in Hcount.
    set (settled := match r with
                    | Some r0 => if delivered then Answered r0 else Rejected
                    | None => Rejected
                    end).
    destruct c as [file| |id|id]; cbn [is_upload] in Hcount.
    + (* upload *)
      assert (btn = true ∧ uploads_in_flight (delete i l) = 0) as [-> Hnone]
        by (destruct btn; lia).
      destruct settled as [|r']; cbn [resumes];
        unfold sends, set_upload_controls, showSuccessModal, set_successModal,
          reset_file_input, alert; page_simpl;
        rewrite ?uploads_in_flight_app; cbn [is_upload]; rewrite Hnone; page_facts.
    + (* loadLibrary *)
      rewrite Nat.add_0_l in Hcount. rewrite Hcount in Hup.
      destruct settled as [|r']; cbn [resumes]; [done|].
      destruct (res_json r') as [data|]; [|done].
      destruct (library_entries data) as [entries|]; [|done]. page_simpl.
      rewrite active_items_render_library. page_facts.
    + (* loadAudio *)
      rewrite Nat.add_0_l in Hcount. rewrite Hcount in Hup.
      destruct settled as [|r']; cbn [resumes]; [done|].
      destruct (res_json r') as [data|]; [|done].
      destruct (body_audio_url data) as [url|], (body_segments data) as [segs|];
        try done.
      page_simpl. rewrite active_spans_render_transcript. page_facts.
    + (* confirmDelete *)
      rewrite Nat.add_0_l in Hcount. rewrite Hcount in Hup.
      destruct settled as [|r']; cbn [resumes].
      * unfold closeConfirmModal, alert. page_simpl. page_facts.
      * unfold closeConfirmModal, sends, clear_if_current. page_simpl.
        rewrite uploads_in_flight_app. cbn [is_upload]. rewrite Nat.add_0_r.
        case_bool_decide; unfold clear_player; page_simpl; page_facts.
  - (* another client *)
    done.
Qed.

(** X26. What holds between any two turns of the event loop, in a tab opened on
    a service in a state it reaches, whatever the user does, whenever the
    service handles the requests in flight and in whatever order their
    promises settle: at most one span and at most one library item are marked
    active; the delete dialog is displayed exactly when an id is waiting; the
    upload button and the file input are disabled together, exactly while an
    upload is in flight, of which there is never more than one, and the button
    shows the spinner text exactly then; and the service is in a state it
    reaches. *)
Theorem browsing_keeps_tab_tidy (t : tab_state) :
  browsing t → tidy t ∧ reachable (server (now t)).
Proof.
  intros Ht. split; [|by apply browsing_reachable].
  induction Ht as [w Hw|t ev _ IH].
  - apply tidy_opens.
  - by apply tidy_react.
Qed.

(** *** Run without interruption, the pieces are the functions at rest *)

Lemma served_first (s : session) (c : awaited) (random : N) (l : list in_flight) :
  react {| now := s; pending := {| waiting := c; answered := None |} :: l |}
    (Served 0 random)
  = {| now := {| the_page := the_page s;
                 server := step (server s) (request_of c random);
                 online := online s |};
       pending := {| waiting := c;
                     answered := Some (handle (request_of c random) (server s)).1 |}
                  :: l |}.
Proof. reflexivity. Qed.

Lemma settled_first (s : session) (c : awaited) (r : outcome response)
    (l : list in_flight) :
  react {| now := s; pending := {| waiting := c; answered := Some r |} :: l |}
    (Settled 0 true)
  = resumes c (Answered r) {| now := s; pending := l |}.
Proof. reflexivity. Qed.

Lemma rejected_first (s : session) (c : awaited) (l : list in_flight) :
  react {| now := s; pending := {| waiting := c; answered := None |} :: l |}
    (Settled 0 true)
  = resumes c Rejected {| now := s; pending := l |}.
Proof. reflexivity. Qed.

Lemma resumes_library (s : session) (w : world) (l : list in_flight) :
  resumes FromLoadLibrary (Answered (handle GET_library w).1) {| now := s; pending := l |}
  = {| now := with_library_view (λ _, library_view_of (audio (db_of w))) s;
       pending := l |}.
Proof.
  cbn [resumes handle]. rewrite as_json_eq, library_eq. cbn [fst json_outcome res_json].
  by rewrite library_entries_rows, render_library_rows.
Qed.

(** The library of a tab just opened, once its request was handled and its
    promise settled, is the one of [open_tab]. *)
Lemma opens_uninterrupted (w : world) (random : N) :
  foldl react (opens w) [Served 0 random; Settled 0 true]
  = {| now := open_tab w; pending := [] |}.
Proof.
  unfold opens, sends, open_tab. cbn [foldl now pending app].
  rewrite served_first, settled_first. cbn [request_of server].
  rewrite resumes_library, loadLibrary_eq. reflexivity.
Qed.

Lemma nothing_in_flight (s : session) (i : nat) (random : N) (delivered : bool) :
  react {| now := s; pending := [] |} (Served i random) = {| now := s; pending := [] |} ∧
  react {| now := s; pending := [] |} (Settled i delivered)
    = {| now := s; pending := [] |}.
Proof. by destruct i. Qed.

(** [upload()], [loadAudio()] behind a click on a name, and [confirmDelete()],
    each with its requests handled and settled before anything else
    happens. *)
Lemma upload_uninterrupted (s : session) (random random' : N) :
  online s = true → uploadBtn_disabled (the_uploader (the_page s)) = false →
  foldl react {| now := s; pending := [] |}
    [ClickUpload; Served 0 random; Settled 0 true; Served 0 random'; Settled 0 true]
  = {| now := upload random s; pending := [] |}.
Proof.
  intros Hon Hbtn. cbn [foldl].
  assert (react {| now := s; pending := [] |} ClickUpload
          = upload_begins {| now := s; pending := [] |}) as ->
    by (cbn [react now]; by rewrite Hbtn).
  unfold upload_begins. cbn [now].
  destruct (fileInput_files (the_uploader (the_page s))) as [file|] eqn:Hfile.
  - rewrite (upload_online _ _ _ Hfile Hon).
    unfold sends, on_page. cbn [now pending app].
    rewrite served_first, settled_first. cbn [resumes request_of].
    unfold sends, on_page. cbn [now pending app].
    rewrite served_first, settled_first. cbn [request_of server].
    rewrite resumes_library.
    destruct s as [[pl up dl lv] w o]. cbn in Hon, Hfile. subst. reflexivity.
  - unfold upload. rewrite Hfile. unfold on_page. cbn [now pending].
    by rewrite !(proj1 (nothing_in_flight _ 0 _ true)),
      !(proj2 (nothing_in_flight _ 0 random true)).
Qed.

Lemma click_name_uninterrupted (s : session) (element : nat) (random : N) :
  online s = true →
  foldl react {| now := s; pending := [] |}
    [ClickName element; Served 0 random; Settled 0 true]
  = {| now := click_name element s; pending := [] |}.
Proof.
  intros Hon. cbn [foldl]. unfold click_name.
  change (react {| now := s; pending := [] |} (ClickName element))
    with (match library_view (the_page s) !! element with
          | Some (AudioItem a) =>
              loadAudio_begins (entry_id a) element {| now := s; pending := [] |}
          | _ => {| now := s; pending := [] |}
          end).
  destruct (library_view (the_page s) !! element) as [[a|]|];
    try by rewrite (proj1 (nothing_in_flight _ 0 _ true)),
             (proj2 (nothing_in_flight _ 0 random true)).
  unfold loadAudio_begins, sends, on_page. cbn [now pending app].
  rewrite served_first, settled_first. cbn [resumes request_of].
  unfold loadAudio. fold (select_item (entry_id a) element s).
  rewrite fetch_eq.
  assert (online (select_item (entry_id a) element s) = true) as -> by done.
  cbn [fst]. unfold step.
  destruct (res_json _) as [data|]; [|done].
  by destruct (body_audio_url data), (body_segments data).
Qed.

Lemma confirmDelete_uninterrupted (s : session) (random random' : N) :
  online s = true →
  foldl react {| now := s; pending := [] |}
    [ClickConfirm; Served 0 random; Settled 0 true; Served 0 random'; Settled 0 true]
  = {| now := confirmDelete s; pending := [] |}.
Proof.
  intros Hon. cbn [foldl].
  change (react {| now := s; pending := [] |} ClickConfirm)
    with (confirmDelete_begins {| now := s; pending := [] |}).
  unfold confirmDelete_begins, confirmDelete. cbn [now].
  destruct (deleteAudioId (the_dialogs (the_page s))) as [id|] eqn:Hid;
    cbn [falsy default].
  2:{ by rewrite !(proj1 (nothing_in_flight _ 0 _ true)),
        !(proj2 (nothing_in_flight _ 0 random true)). }
  case_bool_decide as Hne.
  { by rewrite !(proj1 (nothing_in_flight _ 0 _ true)),
        !(proj2 (nothing_in_flight _ 0 random true)). }
  unfold sends, on_page. cbn [now pending app].
  rewrite served_first, settled_first. cbn [resumes request_of].
  unfold sends, on_page. cbn [now pending app].
  rewrite served_first, settled_first. cbn [request_of server].
  rewrite resumes_library, fetch_eq, Hon.
  unfold clear_if_current. cbn [the_page the_player the_dialogs]. rewrite Hid.
  case_bool_decide; rewrite loadLibrary_eq;
    destruct s as [[pl up dl lv] w o]; cbn in Hon; subst; reflexivity.
Qed.

Lemma library_view_of_snoc (rows : list audio_row) (r : audio_row) :
  library_view_of (rows ++ [r]) !! length rows = Some (AudioItem (item_of_row r)).
Proof.
  assert (library_view_of (rows ++ [r]) = AudioItem ∘ item_of_row <$> rows ++ [r]) as ->
    by by destruct rows.
  rewrite list_lookup_fmap, lookup_app_r, Nat.sub_diag by done. done.
Qed.

Lemma span_of_row_segment_row_of (id : string) (segs : list whisper_segment) :
  span_of_row <$> (segment_row_of id <$> segs) = span_of_segment <$> segs.
Proof. rewrite <- list_fmap_compose. by apply list_fmap_ext. Qed.

(** X27. From the upload to the transcript: on line, with a file selected
    whose name holds no separator and no zero byte and whose stored name is
    at most [NAME_MAX] bytes long, on a service in a state it reaches, under
    an id that is not in the table and for which the model returns a result,
    [upload] adds the recording as the last item of the library, under its
    original name; a click on that item makes it the current and the only
    active one, points the [audio] element at ["/audio/" + id + "_" + name],
    and shows one span per segment the model returned, in the model's order,
    with the model's start and end and the trimmed text. *)
Theorem upload_then_open (s : session) (random : N) (file : UploadFile)
    (language : pyval) (result : transcription) :
  let audio_id := uuid_str (uuid4 random) in
  let stored := audio_id +:+ "_" +:+ upload_filename file in
  let path := os_path_join UPLOAD_DIR stored in
  let f1 := {| dirs := dirs (fs (server s));
               files := <[path := upload_content file]> (files (fs (server s))) |} in
  let item := {| entry_id := audio_id; entry_name := upload_filename file;
                 entry_active := false |} in
  let element := length (audio (db_of (server s))) in
  reachable (server s) → online s = true →
  fileInput_files (the_uploader (the_page s)) = Some file →
  has_sep (upload_filename file) = false →
  has_nul (upload_filename file) = false →
  String.length stored ≤ NAME_MAX →
  path ∉ dirs (fs (server s)) →
  ¬ present audio_id (db_of (server s)) →
  config (server s) !! "language" = Some language →
  model_transcribe (model (server s)) f1 path language = Returned result →
  let s1 := upload random s in
  let s2 := click_name element s1 in
  items (library_view (the_page s1))
    = (item_of_row <$> audio (db_of (server s))) ++ [item] ∧
  library_view (the_page s1) !! element = Some (AudioItem item) ∧
  currentAudioId (the_player (the_page s2)) = Some audio_id ∧
  audio_src (the_player (the_page s2)) = "/audio/" +:+ stored ∧
  spans (transcript (the_player (the_page s2))) = span_of_segment <$> t_segments result ∧
  active_items (library_view (the_page s2)) = [selected_item item].
Proof.
  intros audio_id stored path f1 item element Hreach Hon Hfile Hsep Hnul Hlong Hdir
    Hfresh Hlang Hmodel s1 s2.
  assert (db_of (step (server s) (POST_transcribe random file))
          = insert_rows audio_id stored (upload_filename file) (t_segments result)
              (db_of (server s))) as Hdb.
  { unfold step. cbn [handle].
    by rewrite as_json_eq,
      (transcribe_ok_state _ _ _ _ _ Hreach Hsep Hnul Hlong Hdir Hfresh Hlang Hmodel). }
  assert (library_view (the_page s1) !! element = Some (AudioItem item)) as Hel.
  { subst s1. rewrite (upload_online _ _ _ Hfile Hon). page_simpl. rewrite Hdb.
    apply library_view_of_snoc. }
  assert (online s1 = true) as Hon1
    by (subst s1; by rewrite (upload_online _ _ _ Hfile Hon)).
  assert (db_of (server s1)
          = insert_rows audio_id stored (upload_filename file) (t_segments result)
              (db_of (server s))) as Hdb1.
  { subst s1. rewrite (upload_online _ _ _ Hfile Hon). page_simpl.
    by rewrite step_library_db. }
  split; [|split; [exact Hel|]].
  { subst s1. rewrite (upload_online _ _ _ Hfile Hon). page_simpl.
    rewrite Hdb, items_library_view_of. unfold insert_rows. cbn [audio].
    by rewrite fmap_app. }
  subst s2. unfold click_name. rewrite Hel. cbn [entry_id item].
  rewrite (loadAudio_online _ _ _ Hon1). page_simpl.
  rewrite Hdb1, audio_rows_for_insert, segment_rows_for_insert, !decide_True by done.
  apply audio_rows_for_nil in Hfresh as Hnone. rewrite Hnone. cbn [app a_filename].
  rewrite segment_rows_for_absent
    by (done || by destruct (reachable_consistent _ Hreach) as [_ [_ ? _ _]]).
  cbn [app]. page_simpl.
  rewrite spans_render_transcript, span_of_row_segment_row_of.
  by rewrite (active_items_activate _ _ _ Hel).
Qed.

End PageProperties.

(* ===================================================================== *)
(** ** The further properties on the test double *)
(* ===================================================================== *)

#[local] Existing Instance Demo.floats.
#[local] Existing Instance Demo.collaborators.
#[local] Existing Instance DemoPage.browser.

Lemma reachable_ready : reachable (server DemoPage.ready).
Proof.
  assert (server DemoPage.ready = run Demo.one_upload [GET_library]) as ->
    by (vm_compute; reflexivity).
  apply reachable_run, reachable_one_upload.
Qed.

Lemma reachable_confirming : reachable (server DemoPage.confirming).
Proof.
  assert (server DemoPage.confirming
          = run Demo.two_uploads [GET_library; GET_audio_data Demo.id1]) as ->
    by (vm_compute; reflexivity).
  apply reachable_run, reachable_two_uploads.
Qed.

Lemma browsing_busy : browsing DemoPage.busy.
Proof.
  unfold DemoPage.busy. cbn [foldl]. repeat apply browsing_react.
  apply browsing_opens, reachable_two_uploads.
Qed.


Lemma startup_postconditions_witness :
  UPLOAD_DIR ∈ dirs (fs Demo.booted) ∧
  has_default_keys (config Demo.booted) ∧
  db_of Demo.booted = empty_database.
Proof.
  destruct (startup_postconditions Demo.blank_disk empty_database Demo.booted)
    as (Hup & Hkeys & _ & Hdb & _); [vm_compute; reflexivity|].
  exact (conj Hup (conj Hkeys Hdb)).
Defined.

Lemma startup_uploads_is_a_file_witness :
  startup DemoPage.uploads_is_a_file empty_database = Raised (FileExistsError UPLOAD_DIR).
Proof.
  apply (startup_uploads_is_a_file DemoPage.uploads_is_a_file empty_database
           "not a directory").
  vm_compute. reflexivity.
Defined.

Lemma reads_change_nothing_witness :
  db_of (step Demo.two_uploads (GET_audio_data Demo.id1)) = db_of Demo.two_uploads ∧
  fs (step Demo.two_uploads (GET_audio_data Demo.id1)) = fs Demo.two_uploads.
Proof.
  destruct (reads_change_nothing Demo.two_uploads (GET_audio_data Demo.id1))
    as (Hdb & _ & Hfs & _); [reflexivity|].
  exact (conj Hdb Hfs).
Defined.

Lemma library_lists_the_audio_table_witness :
  ∃ items,
    (handle GET_library Demo.two_uploads).1 = Returned (JSON (PyList items)) ∧
    length items = length (audio (db_of Demo.two_uploads)) ∧
    NoDup (item_id <$> items).
Proof.
  destruct (library_lists_the_audio_table Demo.two_uploads)
    as (items & Hbody & _ & Hlen & _ & Hnodup).
  exists items. exact (conj Hbody (conj Hlen (Hnodup reachable_two_uploads))).
Defined.

Lemma delete_then_reads_witness :
  (handle (GET_audio_data Demo.id1)
     (step Demo.two_uploads (DELETE_delete Demo.id1))).1 = Raised TypeError.
Proof.
  exact (proj1 (proj2 (delete_then_reads Demo.two_uploads Demo.id1
                         reachable_two_uploads))).
Defined.

Lemma transcribe_model_failure_orphans_asset_witness :
  let path := os_path_join UPLOAD_DIR (uuid_str (uuid4 3) +:+ "_silent.mp3") in
  (handle (POST_transcribe 3 DemoPage.silent) Demo.one_upload).1
    = Raised (RuntimeError "no audio") ∧
  files (fs (step Demo.one_upload (POST_transcribe 3 DemoPage.silent))) !! path
    = Some "" ∧
  ∀ r, r ∈ audio (db_of (step Demo.one_upload (POST_transcribe 3 DemoPage.silent))) →
       asset_path r ≠ path.
Proof.
  intros path.
  destruct (transcribe_model_failure_orphans_asset Demo.one_upload 3 DemoPage.silent
              (PyStr "ja") (RuntimeError "no audio")
              (write_file path "" (fs Demo.one_upload)).2)
    as (Hraised & _ & _ & Hfile & Horphan);
    [vm_compute; reflexivity..|].
  split; [exact Hraised|]. split; [exact Hfile|].
  apply Horphan; [exact reachable_one_upload|by_evaluation].
Defined.

Lemma transcribe_existing_id_witness :
  (handle (POST_transcribe 1 Demo.lesson2) Demo.one_upload).1 = Raised IntegrityError ∧
  db_of (step Demo.one_upload (POST_transcribe 1 Demo.lesson2)) = db_of Demo.one_upload.
Proof.
  assert (present (uuid_str (uuid4 1)) (db_of Demo.one_upload)) as Hpresent
    by by_evaluation.
  destruct (transcribe_existing_id Demo.one_upload 1 Demo.lesson2 Hpresent)
    as (_ & Hdb & _ & Hkind).
  destruct (Hkind (write_file (os_path_join UPLOAD_DIR (Demo.id1 +:+ "_lesson2.mp3"))
                     "ID3-lesson-two" (fs Demo.one_upload)).2
              (PyStr "ja") Demo.two_segments) as [Hraised _];
    [vm_compute; reflexivity..|].
  exact (conj Hraised Hdb).
Defined.

Lemma reachable_keys_and_names_witness :
  NoDup (a_id <$> audio (db_of Demo.two_uploads)) ∧
  String.length Demo.id1 = 36 ∧
  asset_path DemoPage.row1 ∉ dirs (fs Demo.two_uploads).
Proof.
  destruct (reachable_keys_and_names Demo.two_uploads reachable_two_uploads)
    as (Hnodup & Hrows & _).
  destruct (Hrows DemoPage.row1) as (Hlen & _ & Hasset); [vm_compute; left|].
  exact (conj Hnodup (conj Hlen Hasset)).
Defined.

Lemma returned_changes_are_committed_witness :
  durable (conn (step Demo.two_uploads (DELETE_delete Demo.id1)))
    = db_of (step Demo.two_uploads (DELETE_delete Demo.id1)) ∧
  durable (conn (step Demo.two_uploads GET_library))
    = db_of (step Demo.two_uploads GET_library).
Proof.
  destruct (returned_changes_are_committed Demo.two_uploads (DELETE_delete Demo.id1)
              (JSON (status "deleted"))) as (_ & _ & Hchanged); [vm_compute; reflexivity|].
  destruct (returned_changes_are_committed Demo.two_uploads GET_library
              (JSON (PyList (row_library_item <$> audio (db_of Demo.two_uploads)))))
    as (_ & Hkept & _); [vm_compute; reflexivity|].
  split; [apply Hchanged; by vm_compute|apply Hkept; vm_compute; reflexivity].
Defined.

Lemma load_config_second_run_witness :
  ∃ f1, load_config Demo.blank_disk = (Returned default_config, f1) ∧
        load_config f1 = (Returned default_config, f1).
Proof.
  apply (load_config_second_run Demo.blank_disk); vm_compute; reflexivity.
Defined.

Lemma transcribe_returns_ok_witness :
  (handle (POST_transcribe 2 Demo.lesson2) Demo.one_upload).1
    = Returned (JSON (status "ok")) ∧
  segments (db_of Demo.two_uploads)
    = segments (db_of Demo.one_upload)
      ++ (segment_row_of Demo.id2 <$> t_segments Demo.two_segments).
Proof.
  destruct (transcribe_returns_ok Demo.one_upload 2 Demo.lesson2 (PyStr "ja")
              Demo.two_segments) as (Hok & _ & _ & Hsegments & _).
  - exact reachable_one_upload.
  - vm_compute. reflexivity.
  - vm_compute. reflexivity.
  - by_evaluation.
  - by_evaluation.
  - by_evaluation.
  - vm_compute. reflexivity.
  - vm_compute. reflexivity.
  - exact (conj Hok Hsegments).
Defined.

Lemma get_audio_route_containment_witness :
  inside_upload_dir (os_path_join UPLOAD_DIR "lesson1.mp3") = true.
Proof.
  apply (get_audio_route_containment "lesson1.mp3"); [vm_compute; reflexivity|].
  split; discriminate.
Defined.

Lemma listed_audio_opens_witness :
  ∃ body,
    (handle (GET_audio_data Demo.id1) Demo.two_uploads).1 = Returned (JSON body) ∧
    body_audio_url body = Some ("/audio/" +:+ Demo.id1 +:+ "_" +:+ "lesson1.mp3").
Proof.
  destruct (listed_audio_opens Demo.two_uploads Demo.id1 "lesson1.mp3"
              (row_library_item <$> audio (db_of Demo.two_uploads)))
    as (body & Hbody & _ & Hurl).
  - exact reachable_two_uploads.
  - vm_compute. reflexivity.
  - apply library_item_elem. exists DemoPage.row1.
    split; [vm_compute; left|]. split; reflexivity.
  - exists body. exact (conj Hbody Hurl).
Defined.

Lemma delete_audio_asset_is_directory_witness :
  (handle (DELETE_delete Demo.id1) DemoPage.directory_in_the_way).1
    = Raised (IsADirectoryError (asset_path DemoPage.row1)) ∧
  db_of (step DemoPage.directory_in_the_way (DELETE_delete Demo.id1))
    = db_of DemoPage.directory_in_the_way.
Proof.
  destruct (delete_audio_asset_is_directory DemoPage.directory_in_the_way Demo.id1
              DemoPage.row1 []) as (Hraised & _ & Hdb & _).
  - vm_compute. reflexivity.
  - by_evaluation.
  - exact (conj Hraised Hdb).
Defined.


Lemma loadLibrary_mirrors_the_table_witness :
  items (library_view (the_page (loadLibrary DemoPage.stale)))
    = item_of_row <$> audio (db_of (server DemoPage.stale)) ∧
  loadLibrary (offline DemoPage.stale) = offline DemoPage.stale.
Proof.
  destruct (loadLibrary_mirrors_the_table DemoPage.stale) as (Hon & _).
  destruct (loadLibrary_mirrors_the_table (offline DemoPage.stale))
    as (_ & Hoff & _).
  destruct Hon as (_ & Hitems & _); [vm_compute; reflexivity|].
  split; [exact Hitems|]. apply Hoff. vm_compute. reflexivity.
Defined.

Lemma click_segment_seeks_and_marks_witness :
  active_spans (transcript (the_player (the_page (click_segment 2 DemoPage.opened))))
    = [activated DemoPage.span2] ∧
  click_segment 1 DemoPage.opened = DemoPage.opened.
Proof.
  destruct (click_segment_seeks_and_marks DemoPage.opened 2) as (Hspan & _).
  destruct (click_segment_seeks_and_marks DemoPage.opened 1) as (_ & Hbreak).
  destruct (Hspan DemoPage.span2) as (_ & Hactive & _); [vm_compute; reflexivity|].
  split; [exact Hactive|].
  apply Hbreak. intros sp. vm_compute. discriminate.
Defined.

Lemma click_then_timeupdate_at_start_witness :
  transcript (the_player (the_page
     (timeupdate Demo.d2_5 (click_segment 2 DemoPage.opened)))) !! 2
    = Some (SegmentSpan {| seg_start := seg_start DemoPage.span2;
                           seg_end := seg_end DemoPage.span2;
                           seg_text := seg_text DemoPage.span2;
                           seg_active := true; seg_playing := true |}).
Proof.
  destruct (click_then_timeupdate_at_start DemoPage.opened 2 DemoPage.span2)
    as (_ & Hclicked & _); [vm_compute; reflexivity..|].
  exact Hclicked.
Defined.

Lemma timeupdate_shared_boundary_witness :
  ∃ sp1' sp2',
    transcript (the_player (the_page (timeupdate Demo.d2_5 DemoPage.opened))) !! 0
      = Some (SegmentSpan sp1') ∧
    transcript (the_player (the_page (timeupdate Demo.d2_5 DemoPage.opened))) !! 2
      = Some (SegmentSpan sp2') ∧
    seg_playing sp1' = true ∧ seg_playing sp2' = true.
Proof.
  destruct (timeupdate_shared_boundary DemoPage.opened Demo.d2_5 0 2
              DemoPage.span1 DemoPage.span2)
    as (sp1' & sp2' & H1 & H2 & Hp1 & Hp2 & _); [vm_compute; reflexivity..|].
  exists sp1', sp2'. exact (conj H1 (conj H2 (conj Hp1 Hp2))).
Defined.

Lemma click_name_opens_recording_witness :
  currentAudioId (the_player (the_page (click_name 0 DemoPage.tab))) = Some Demo.id1 ∧
  spans (transcript (the_player (the_page (click_name 0 DemoPage.tab))))
    = span_of_row <$> segment_rows_for Demo.id1 (db_of (server DemoPage.tab)) ∧
  active_items (library_view (the_page (click_name 0 DemoPage.tab)))
    = [selected_item DemoPage.item1].
Proof.
  destruct (click_name_opens_recording DemoPage.tab 0 DemoPage.item1)
    as (r & _ & _ & Hcurrent & _ & Hspans & _ & _ & Hactive & _).
  - vm_compute. reflexivity.
  - vm_compute. reflexivity.
  - by_evaluation.
  - exact (conj Hcurrent (conj Hspans Hactive)).
Defined.

Lemma click_name_without_answer_witness :
  currentAudioId (the_player (the_page (click_name 0 DemoPage.stale))) = Some Demo.id1 ∧
  transcript (the_player (the_page (click_name 0 DemoPage.stale)))
    = transcript (the_player (the_page DemoPage.stale)).
Proof.
  destruct (click_name_without_answer DemoPage.stale 0 DemoPage.item1)
    as (Hcurrent & _ & Htranscript & _).
  - vm_compute. reflexivity.
  - right. by_evaluation.
  - exact (conj Hcurrent Htranscript).
Defined.

Lemma upload_outcomes_witness :
  upload 3 DemoPage.tab = alert "Please select a file first" DemoPage.tab ∧
  successModal (the_dialogs (the_page (upload 3 DemoPage.selected))) = true ∧
  db_of (server (upload 3 DemoPage.selected))
    = db_of (step (server DemoPage.selected) (POST_transcribe 3 Demo.nested)) ∧
  server (upload 3 (offline DemoPage.selected))
    = server (offline DemoPage.selected).
Proof.
  destruct (upload_outcomes 3 DemoPage.tab) as (Hnone & _).
  destruct (upload_outcomes 3 DemoPage.selected) as (_ & Hon & _).
  destruct (upload_outcomes 3 (offline DemoPage.selected)) as (_ & _ & Hoff).
  destruct (Hon Demo.nested) as (Hmodal & _ & _ & _ & _ & _ & _ & Hdb & _);
    [vm_compute; reflexivity..|].
  destruct (Hoff Demo.nested) as (_ & _ & _ & _ & _ & _ & Hserver & _);
    [vm_compute; reflexivity..|].
  split; [apply Hnone; vm_compute; reflexivity|].
  exact (conj Hmodal (conj Hdb Hserver)).
Defined.

Lemma confirmDelete_outcomes_witness :
  confirmDelete DemoPage.tab = DemoPage.tab ∧
  currentAudioId (the_player (the_page (confirmDelete DemoPage.confirming))) = None ∧
  (∀ a, a ∈ items (library_view (the_page (confirmDelete DemoPage.confirming))) →
        entry_id a ≠ Demo.id1) ∧
  server (confirmDelete (offline DemoPage.confirming))
    = server (offline DemoPage.confirming).
Proof.
  destruct (confirmDelete_outcomes DemoPage.tab) as (Hnone & _).
  destruct (confirmDelete_outcomes DemoPage.confirming) as (_ & Hon & _).
  destruct (confirmDelete_outcomes (offline DemoPage.confirming))
    as (_ & _ & Hoff).
  assert (Demo.id1 ≠ "") as Hne by (by vm_compute).
  destruct (Hon Demo.id1) as (_ & _ & _ & _ & _ & Hcleared & _ & Hgone);
    [vm_compute; reflexivity|exact Hne|vm_compute; reflexivity|].
  destruct (Hoff Demo.id1) as (_ & _ & _ & Hserver & _);
    [vm_compute; reflexivity|exact Hne|vm_compute; reflexivity|].
  destruct Hcleared as (Hcurrent & _); [vm_compute; reflexivity|].
  split; [apply Hnone; vm_compute; reflexivity|].
  split; [exact Hcurrent|]. split; [|exact Hserver].
  apply Hgone. exact reachable_confirming.
Defined.

Lemma browsing_keeps_tab_tidy_witness :
  tidy DemoPage.busy ∧ reachable (server (now DemoPage.busy)).
Proof. exact (browsing_keeps_tab_tidy DemoPage.busy browsing_busy). Defined.

Lemma upload_then_open_witness :
  let s1 := upload 2 DemoPage.ready in
  let s2 := click_name 1 s1 in
  audio_src (the_player (the_page s2)) = "/audio/" +:+ Demo.id2 +:+ "_lesson2.mp3" ∧
  spans (transcript (the_player (the_page s2)))
    = span_of_segment <$> t_segments Demo.two_segments.
Proof.
  destruct (upload_then_open DemoPage.ready 2 Demo.lesson2 (PyStr "ja")
              Demo.two_segments) as (_ & _ & _ & Hsrc & Hspans & _).
  - exact reachable_ready.
  - vm_compute. reflexivity.
  - vm_compute. reflexivity.
  - vm_compute. reflexivity.
  - vm_compute. reflexivity.
  - by_evaluation.
  - by_evaluation.
  - by_evaluation.
  - vm_compute. reflexivity.
  - vm_compute. reflexivity.
  - exact (conj Hsrc Hspans).
Defined.
